(** * fortunass-auto-publisher: topic allocation, content policy,
      publishing with fallback, ledger statistics and scheduling.

    A shallow embedding of the Python sources under [src/src/]:
    - [data/topic_data.py]            (module [TopicData])
    - [utils/database.py]             (module [Database])
    - [generators/topic_generator.py] (module [TopicGen])
    - [validators/content_validator.py] (module [Validator])
    - [generators/content_generator.py] (module [ContentGen], the
      retried call of the oracle only)
    - [publishers/wordpress_publisher.py] (module [WordPress])
    - [orchestrator.py]               (module [Orchestrator])
    - [utils/schedule.py]             (module [Schedule])
    - [publishers/wordpress.py]       (modules [Html], [Weekly])
    - [validators/seo_validator.py]   (module [Seo])
    - [generators/weekly_fortune_generator.py] and [weekly_main.py]
      (modules [Weekly], [Parse])
    with the rate of [get_stats] on binary64 numbers in module
    [Float64].

    Python [str] values are sequences of Unicode code points, so that
    [len] counts characters as Python does.  [str.lower] and the
    comparison of [re.IGNORECASE] are two different case mappings and
    are modelled apart ([lower], [casefold]).  Exceptions are
    values of [Exn] threaded through a state-and-error monad; the external
    services (random source, content oracle, CMS) are oracles indexed by
    the number of calls made so far. *)

From Stdlib Require Import ZArith NArith QArith Ascii String SpecFloat.
From stdpp Require Import base option list gmap strings.

Set Default Proof Using "Type".
Local Open Scope nat_scope.

(** ** Text: Python strings and the two regular expressions in use *)

Module Text.

(** A Python string: the list of its code points. *)
Abbreviation str := (list N).

(** ASCII literal to string. *)
Definition u (s : string) : str :=
  (fun a => N_of_ascii a) <$> list_ascii_of_string s.
Arguments u s%_string.

Definition NL : N := 10%N.
Definition SPACE : N := 32%N.

(** [c.lower()] on one character.  The lower-case form is written out
    for the characters whose form holds an ASCII character: the ASCII
    capitals, [U+0130] (an [i] followed by the combining dot [U+0307])
    and the Kelvin sign [U+212A]; no lower-case form holds a Hangul
    syllable.  The other characters stand for themselves: their forms
    hold no character of the word lists of the program, and a search
    for one of those words is all the program does with lowered text. *)
Definition lower_cp (c : N) : str :=
  if ((65 <=? c) && (c <=? 90))%N then [(c + 32)%N]
  else if (c =? 304)%N then [105; 775]%N
  else if (c =? 8490)%N then [107%N]
  else [c].

(** [s.lower()] *)
Definition lower (s : str) : str := s ≫= lower_cp.

(** What [re] compares a character by under [IGNORECASE]: its simple
    lower-case form ([_sre.unicode_tolower]: [U+0130] gives [i], the
    Kelvin sign gives [k]) and the equivalences [sre_compile] adds to a
    cased literal (dotless [U+0131] with [i], long [U+017F] with [s]).
    A literal that is an ASCII or an uncased character, as are all
    characters of the patterns of the program, matches a character of
    the text exactly when the two have the same image. *)
Definition fold_cp (c : N) : N :=
  if ((65 <=? c) && (c <=? 90))%N then (c + 32)%N
  else if ((c =? 304) || (c =? 305))%N then 105%N
  else if (c =? 383)%N then 115%N
  else if (c =? 8490)%N then 107%N
  else c.

Definition casefold (s : str) : str := fold_cp <$> s.

(** [s.startswith(p)] *)
Fixpoint starts_with (p s : str) : bool :=
  match p, s with
  | [], _ => true
  | _ :: _, [] => false
  | a :: p', b :: s' => (a =? b)%N && starts_with p' s'
  end.

(** [p in s] *)
Fixpoint contains (p s : str) : bool :=
  starts_with p s ||
  match s with
  | [] => false
  | _ :: s' => contains p s'
  end.

(** [str.isspace()] on one character; also the class [\s] of [re] on
    [str] patterns. *)
Definition is_space (c : N) : bool :=
  (((9 <=? c) && (c <=? 13)) || ((28 <=? c) && (c <=? 32))
   || (c =? 133) || (c =? 160) || (c =? 5760)
   || ((8192 <=? c) && (c <=? 8202))
   || (c =? 8232) || (c =? 8233) || (c =? 8239) || (c =? 8287)
   || (c =? 12288))%N.

Definition is_nl (c : N) : bool := (c =? NL)%N.

(** [s.lstrip()], [s.rstrip()], [s.strip()] *)
Fixpoint lstrip (s : str) : str :=
  match s with
  | c :: s' => if is_space c then lstrip s' else s
  | [] => []
  end.
Definition rstrip (s : str) : str := rev (lstrip (rev s)).
Definition strip (s : str) : str := rstrip (lstrip s).

(** [s.split(sep)[0]] for a one-character separator. *)
Fixpoint split_head (sep : N) (s : str) : str :=
  match s with
  | [] => []
  | c :: s' => if (c =? sep)%N then [] else c :: split_head sep s'
  end.

(** *** [re.compile(re.escape(pat), re.IGNORECASE).sub(repl, s)]

    The pattern is a literal; it matches at a position when each of
    its characters matches the character of the text it meets, in the
    sense of [fold_cp].  [sub] replaces the leftmost non-overlapping
    matches, scanning left to right; [skip] counts the characters of
    the current match that are still to be passed over. *)
Definition imatch (pat s : str) : bool :=
  starts_with (casefold pat) (casefold s).

Fixpoint sub_scan (pat repl : str) (skip : nat) (s : str) : str :=
  match s with
  | [] => []
  | c :: s' =>
      match skip with
      | S k => sub_scan pat repl k s'
      | O =>
          if imatch pat s
          then repl ++ sub_scan pat repl (length pat - 1) s'
          else c :: sub_scan pat repl 0 s'
      end
  end.

Definition re_sub_i (pat repl s : str) : str := sub_scan pat repl 0 s.

(** *** [re.findall(r'^##\s+.+$', s, re.MULTILINE)]

    [line_length s] is the number of characters before the first line
    feed of [s].  [dot_plus_eol s] is [.+$] at [s]: at least one character
    other than a line feed, then greedily to the end of the line, where
    [$] holds.  [space_plus_then s] is [\s+.+$] at [s]: [\s+] takes
    as many whitespace characters as it can and gives them back one
    by one until [.+$] succeeds.  Both return the length matched. *)
Fixpoint line_length (s : str) : nat :=
  match s with
  | [] => 0
  | c :: s' => if is_nl c then 0 else S (line_length s')
  end.

Definition dot_plus_eol (s : str) : option nat :=
  match s with
  | [] => None
  | c :: s' => if is_nl c then None else Some (S (line_length s'))
  end.

Fixpoint space_plus_then (s : str) : option nat :=
  match s with
  | [] => None
  | c :: s' =>
      if is_space c then
        match space_plus_then s' with
        | Some n => Some (S n)
        | None => S <$> dot_plus_eol s'
        end
      else None
  end.

(** The whole pattern at a line start: the length of the match. *)
Definition h2_match (s : str) : option nat :=
  match s with
  | 35%N :: 35%N :: s' => (fun n => 2 + n) <$> space_plus_then s'
  | _ => None
  end.

(** Number of matches [findall] returns.  [bol] tells whether the
    current position is the start of a line ([^] under MULTILINE);
    [skip] is as in [sub_scan]. *)
Fixpoint h2_scan (bol : bool) (skip : nat) (s : str) : nat :=
  match s with
  | [] => 0
  | c :: s' =>
      match skip with
      | S k => h2_scan false k s'
      | O =>
          match (if bol then h2_match s else None) with
          | Some n => S (h2_scan false (n - 1) s')
          | None => h2_scan (is_nl c) 0 s'
          end
      end
  end.

Definition h2_findall_count (s : str) : nat := h2_scan true 0 s.

(** [s.split('\n')] *)
Fixpoint lines_aux (cur : str) (s : str) : list str :=
  match s with
  | [] => [rev cur]
  | c :: s' => if is_nl c then rev cur :: lines_aux [] s'
               else lines_aux (c :: cur) s'
  end.
Definition lines (s : str) : list str := lines_aux [] s.

End Text.
Import Text.

(** ** Topic vocabularies ([data/topic_data.py])

    Text outside ASCII (Hangul) is written by its code points. *)

Module TopicData.

Local Open Scope N_scope.

Definition CARD_TYPES : list str :=
  [ u "tarot";
    u "numerology";
    u "oracle" ].

Definition MBTI_TYPES : list str :=
  [ u "INTJ";
    u "INTP";
    u "ENTJ";
    u "ENTP";
    u "INFJ";
    u "INFP";
    u "ENFJ";
    u "ENFP";
    u "ISTJ";
    u "ISFJ";
    u "ESTJ";
    u "ESFJ";
    u "ISTP";
    u "ISFP";
    u "ESTP";
    u "ESFP" ].

Definition LOVE_SITUATIONS : list str :=
  [ [50672; 50528] ++ u " " ++ [48520; 50504] ++ u " (relationship anxiety)";
    [48128; 45817] ++ u " (push-pull dynamics)";
    [50528; 52265] ++ u " " ++ [50976; 54805] ++ u " (attachment style)";
    [44144; 47532; 44048] ++ u " (emotional distance)";
    [51116; 54924] ++ u " " ++ [44256; 48124] ++ u " (reconciliation concerns)";
    [51060; 48324] ++ u " " ++ [54980] ++ u " " ++ [44048; 51221] ++ u " (post-breakup emotions)";
    [51677; 49324; 46993] ++ u " (unrequited love)";
    [44428; 53468; 44592] ++ u " (relationship boredom)";
    [49888; 47280] ++ u " " ++ [47928; 51228] ++ u " (trust issues)";
    [49548; 53685] ++ u " " ++ [45800; 51208] ++ u " (communication breakdown)";
    [51656; 53804; 50752] ++ u " " ++ [51665; 52265] ++ u " (jealousy and obsession)";
    [49324; 46993; 44284] ++ u " " ++ [51088; 51316; 44048] ++ u " (love and self-esteem)";
    [44208; 54844] ++ u " " ++ [44256; 48124] ++ u " (marriage concerns)";
    [50672; 49345] ++ u "/" ++ [50672; 54616] ++ u " " ++ [44288; 44228] ++ u " (age gap relationship)";
    [51109; 44144; 47532] ++ u " " ++ [50672; 50528] ++ u " (long-distance relationship)";
    [44048; 51221] ++ u " " ++ [54364; 54788] ++ u " " ++ [50612; 47140; 50880] ++ u " (difficulty expressing emotions)";
    [49345; 45824; 48169] ++ u " " ++ [47560; 51020] ++ u " " ++ [51069; 44592] ++ u " (reading partner's mind)";
    [44288; 44228] ++ u " " ++ [54056; 53556] ++ u " " ++ [48152; 48373] ++ u " (repeating relationship patterns)";
    [54756; 50612; 51664] ++ u " " ++ [54980] ++ u " " ++ [48120; 47144] ++ u " (lingering attachment after breakup)";
    [49352; 47196; 50868] ++ u " " ++ [49884; 51089] ++ u " " ++ [44256; 48124] ++ u " (concerns about new beginning)" ].

Definition TAROT_MAJOR_ARCANA : list str :=
  [ u "The Fool";
    u "The Magician";
    u "The High Priestess";
    u "The Empress";
    u "The Emperor";
    u "The Hierophant";
    u "The Lovers";
    u "The Chariot";
    u "Strength";
    u "The Hermit";
    u "Wheel of Fortune";
    u "Justice";
    u "The Hanged Man";
    u "Death";
    u "Temperance";
    u "The Devil";
    u "The Tower";
    u "The Star";
    u "The Moon";
    u "The Sun";
    u "Judgement";
    u "The World" ].

Definition TAROT_KOREAN : list (str * str) :=
  [ (u "The Fool", [48148; 48372]);
    (u "The Magician", [47560; 48277; 49324]);
    (u "The High Priestess", [50668; 49324; 51228]);
    (u "The Empress", [50668; 54889; 51228]);
    (u "The Emperor", [54889; 51228]);
    (u "The Hierophant", [44368; 54889]);
    (u "The Lovers", [50672; 51064]);
    (u "The Chariot", [51204; 52264]);
    (u "Strength", [55192]);
    (u "The Hermit", [51008; 46164; 51088]);
    (u "Wheel of Fortune", [50868; 47749; 51032] ++ u " " ++ [49688; 47112; 48148; 53300]);
    (u "Justice", [51221; 51032]);
    (u "The Hanged Man", [47588; 45804; 47536] ++ u " " ++ [49324; 46988]);
    (u "Death", [51453; 51020]);
    (u "Temperance", [51208; 51228]);
    (u "The Devil", [50501; 47560]);
    (u "The Tower", [53457]);
    (u "The Star", [48324]);
    (u "The Moon", [45804]);
    (u "The Sun", [53468; 50577]);
    (u "Judgement", [49900; 54032]);
    (u "The World", [49464; 44228]) ].

Definition NUMEROLOGY_NUMBERS : list str :=
  [ u "1";
    u "2";
    u "3";
    u "4";
    u "5";
    u "6";
    u "7";
    u "8";
    u "9";
    u "11";
    u "22";
    u "33" ].

Definition NUMEROLOGY_KOREAN : list (str * str) :=
  [ (u "1", [49707; 51088] ++ u " 1 (" ++ [47532; 45908; 49901; 44284] ++ u " " ++ [46021; 47549] ++ u ")");
    (u "2", [49707; 51088] ++ u " 2 (" ++ [51312; 54868; 50752] ++ u " " ++ [54028; 53944; 45320; 49901] ++ u ")");
    (u "3", [49707; 51088] ++ u " 3 (" ++ [52285; 51032; 49457; 44284] ++ u " " ++ [54364; 54788] ++ u ")");
    (u "4", [49707; 51088] ++ u " 4 (" ++ [50504; 51221; 44284] ++ u " " ++ [44592; 48152] ++ u ")");
    (u "5", [49707; 51088] ++ u " 5 (" ++ [48320; 54868; 50752] ++ u " " ++ [51088; 50976] ++ u ")");
    (u "6", [49707; 51088] ++ u " 6 (" ++ [49324; 46993; 44284] ++ u " " ++ [52293; 51076] ++ u ")");
    (u "7", [49707; 51088] ++ u " 7 (" ++ [50689; 51201] ++ u " " ++ [53456; 44396] ++ u ")");
    (u "8", [49707; 51088] ++ u " 8 (" ++ [55192; 44284] ++ u " " ++ [49457; 52712] ++ u ")");
    (u "9", [49707; 51088] ++ u " 9 (" ++ [50756; 49457; 44284] ++ u " " ++ [45208; 45588] ++ u ")");
    (u "11", [47560; 49828; 53552] ++ u " " ++ [45336; 48260] ++ u " 11 (" ++ [51649; 44288; 44284] ++ u " " ++ [50689; 44048] ++ u ")");
    (u "22", [47560; 49828; 53552] ++ u " " ++ [45336; 48260] ++ u " 22 (" ++ [49892; 54788; 44284] ++ u " " ++ [48708; 51204] ++ u ")");
    (u "33", [47560; 49828; 53552] ++ u " " ++ [45336; 48260] ++ u " 33 (" ++ [49324; 46993; 44284] ++ u " " ++ [52824; 50976] ++ u ")") ].

Definition ORACLE_CARDS : list str :=
  [ u "New Beginnings";
    u "Trust Your Path";
    u "Release and Let Go";
    u "Divine Timing";
    u "Self Love";
    u "Healing Heart";
    u "Soul Connection";
    u "Inner Wisdom";
    u "Transformation";
    u "Boundaries";
    u "Forgiveness";
    u "Clarity";
    u "Patience";
    u "Courage";
    u "Balance";
    u "Authenticity";
    u "Gratitude";
    u "Hope";
    u "Surrender";
    u "Manifesting Love" ].

Definition ORACLE_KOREAN : list (str * str) :=
  [ (u "New Beginnings", [49352; 47196; 50868] ++ u " " ++ [49884; 51089]);
    (u "Trust Your Path", [44600; 51012] ++ u " " ++ [48127; 44592]);
    (u "Release and Let Go", [45459; 50500; 51452; 44592]);
    (u "Divine Timing", [49888; 49457; 54620] ++ u " " ++ [53440; 51060; 48141]);
    (u "Self Love", [51088; 44592] ++ u " " ++ [49324; 46993]);
    (u "Healing Heart", [52824; 50976; 54616; 45716] ++ u " " ++ [47560; 51020]);
    (u "Soul Connection", [50689; 54844; 51032] ++ u " " ++ [50672; 44208]);
    (u "Inner Wisdom", [45236; 47732; 51032] ++ u " " ++ [51648; 54812]);
    (u "Transformation", [48320; 54868]);
    (u "Boundaries", [44221; 44228] ++ u " " ++ [49444; 51221]);
    (u "Forgiveness", [50857; 49436]);
    (u "Clarity", [47749; 54869; 54632]);
    (u "Patience", [51064; 45236]);
    (u "Courage", [50857; 44592]);
    (u "Balance", [44512; 54805]);
    (u "Authenticity", [51652; 51221; 49457]);
    (u "Gratitude", [44048; 49324]);
    (u "Hope", [55148; 47581]);
    (u "Surrender", [47585; 44592; 44592]);
    (u "Manifesting Love", [49324; 46993] ++ u " " ++ [54788; 49892; 54868]) ].

Definition FORBIDDEN_WORDS : list str :=
  [ u "definitely";
    u "guaranteed";
    u "100%";
    u "must happen";
    u "will happen";
    u "certain";
    [54869; 49892; 55176];
    [48152; 46300; 49884];
    [53952; 47548; 50630; 51060];
    [48372; 51109];
    [47924; 51312; 44148];
    u "100%" ].

End TopicData.
Import TopicData.

(** ** Exceptions, the outside world and the state-and-error monad *)

Module Sys.

(** The exceptions that the modelled code raises or lets through. *)
Inductive Exn :=
| RuntimeError (msg : str)
| IndexError
| KeyError (key : str)
| ZeroDivisionError
| RequestException (msg : str)
| OracleError (msg : str)
| RetryError
| ValueError (msg : str).

(** [str(e)]; for exceptions whose text the program does not build, a
    fixed text stands for it. *)
Definition exn_str (e : Exn) : str :=
  match e with
  | RuntimeError msg => msg
  | IndexError => u "Cannot choose from an empty sequence"
  | KeyError key => u "'" ++ key ++ u "'"
  | ZeroDivisionError => u "division by zero"
  | RequestException msg => msg
  | OracleError msg => msg
  | RetryError => u "RetryError"
  | ValueError msg => msg
  end.

Inductive result (A : Type) :=
| Ok (a : A)
| Raise (e : Exn).
Arguments Ok {A} a.
Arguments Raise {A} e.

(** A row of table [published_topics] (columns [id] and [published_at]
    are assigned by the store and are not read by the program). *)
Record Row := mkRow {
  mbti : str;
  love_situation : str;
  tarot_card : str;
  title : str;
  post_id : option Z;
  post_url : option str;
  status : str;
  error_message : option str
}.

(** The topic dictionary built by [generate_unique_topic].  The legacy
    entries ['tarot_card'] and ['tarot_korean'] repeat [card_name] and
    [card_korean]. *)
Record Topic := mkTopic {
  t_mbti : str;
  t_love_situation : str;
  t_card_type : str;
  t_card_name : str;
  t_card_korean : str
}.
Definition t_tarot_card (t : Topic) : str := t_card_name t.
Definition t_tarot_korean (t : Topic) : str := t_card_korean t.

(** The JSON body of [POST /posts].  [pd_categories] and [pd_tags] are
    present only when the list given is not empty; [pd_date] holds the
    number of hours added to the current time when the post is
    scheduled. *)
Record PostData := mkPostData {
  pd_title : str;
  pd_content : str;
  pd_status : str;
  pd_categories : option (list Z);
  pd_tags : option (list Z);
  pd_date : option Z
}.

(** The fields read from the CMS answer to [POST /posts]. *)
Record WpPost := mkWpPost {
  wp_id : Z;
  wp_link : str;
  wp_status : str;
  wp_title_rendered : str
}.

(** The external collaborators.  Each oracle receives the number of
    calls made to it before. *)
Record World := mkWorld {
  draws : nat -> nat;
  llm : nat -> Topic -> option (str * str);
  wp_term : nat -> str -> option Z;
  wp_post : nat -> PostData -> WpPost + str
}.

(** The fields of a [ContentPublisher] object that [run] reads or
    assigns. *)
Record ContentPublisher := mkContentPublisher {
  publish_status : str;
  auto_sanitize : bool;
  schedule_hours : option Z
}.

(** The program state: the [ContentPublisher] object, the ledger table,
    how far each oracle has been consumed, the number of membership
    queries run against the ledger and the requests the CMS has
    received on [/posts]. *)
Record Env := mkEnv {
  self : ContentPublisher;
  db : list Row;
  rng_pos : nat;
  queries : nat;
  llm_calls : nat;
  term_calls : nat;
  wp_requests : list PostData
}.

Definition set_self (p : ContentPublisher) (e : Env) : Env :=
  mkEnv p (db e) (rng_pos e) (queries e) (llm_calls e) (term_calls e)
        (wp_requests e).
Definition set_db (f : list Row -> list Row) (e : Env) : Env :=
  mkEnv (self e) (f (db e)) (rng_pos e) (queries e) (llm_calls e)
        (term_calls e) (wp_requests e).
Definition tick_rng (e : Env) : Env :=
  mkEnv (self e) (db e) (S (rng_pos e)) (queries e) (llm_calls e)
        (term_calls e) (wp_requests e).
Definition tick_queries (e : Env) : Env :=
  mkEnv (self e) (db e) (rng_pos e) (S (queries e)) (llm_calls e)
        (term_calls e) (wp_requests e).
Definition tick_llm (e : Env) : Env :=
  mkEnv (self e) (db e) (rng_pos e) (queries e) (S (llm_calls e))
        (term_calls e) (wp_requests e).
Definition tick_term (e : Env) : Env :=
  mkEnv (self e) (db e) (rng_pos e) (queries e) (llm_calls e)
        (S (term_calls e)) (wp_requests e).
Definition push_request (d : PostData) (e : Env) : Env :=
  mkEnv (self e) (db e) (rng_pos e) (queries e) (llm_calls e)
        (term_calls e) (wp_requests e ++ [d]).

(** Computations that read and change [Env] and may raise. *)
Definition M (A : Type) : Type := Env -> result A * Env.

Definition ret {A} (a : A) : M A := fun e => (Ok a, e).
Definition raise {A} (x : Exn) : M A := fun e => (Raise x, e).
Definition bind {A B} (m : M A) (k : A -> M B) : M B :=
  fun e => match m e with
           | (Ok a, e') => k a e'
           | (Raise x, e') => (Raise x, e')
           end.
(** [try: m except Exception as x: h x] *)
Definition catch {A} (m : M A) (h : Exn -> M A) : M A :=
  fun e => match m e with
           | (Ok a, e') => (Ok a, e')
           | (Raise x, e') => h x e'
           end.
Definition lift {A} (r : result A) : M A := fun e => (r, e).

(** tenacity's [stop_after_attempt(n)]: the call is made again after
    each failure, [n] times at most ([extra] = [n - 1] further attempts);
    the waits between attempts take time only.  With [reraise=True] the
    last exception is raised again, without it [RetryError] is. *)
Fixpoint retry_loop {A} (extra : nat) (m : M A) : M A :=
  match extra with
  | O => m
  | S k => catch m (fun _ => retry_loop k m)
  end.
Definition retry_reraise {A} (attempts : nat) (m : M A) : M A :=
  retry_loop (attempts - 1) m.
Definition retry_wrap {A} (attempts : nat) (m : M A) : M A :=
  catch (retry_loop (attempts - 1) m) (fun _ => raise RetryError).

(** [d[k]] for a dictionary given by its items. *)
Fixpoint eqb_str (a b : str) : bool :=
  match a, b with
  | [], [] => true
  | x :: a', y :: b' => (x =? y)%N && eqb_str a' b'
  | _, _ => false
  end.

Fixpoint dict_get (d : list (str * str)) (k : str) : result str :=
  match d with
  | [] => Raise (KeyError k)
  | (k', v) :: d' => if eqb_str k' k then Ok v else dict_get d' k
  end.

End Sys.
Import Sys.

Declare Scope m_scope.
Delimit Scope m_scope with M.
Notation "'let*' x ':=' m 'in' k" := (bind m (fun x => k))
  (at level 10, x name, m at level 100, k at level 200) : m_scope.
Notation "'let*' ' p ':=' m 'in' k" := (bind m (fun x => let 'p := x in k))
  (at level 10, p pattern, m at level 100, k at level 200) : m_scope.
Local Open Scope m_scope.

(** ** The ledger ([utils/database.py]) *)

Module Database.

Fixpoint count_where (f : Row -> bool) (rows : list Row) : nat :=
  match rows with
  | [] => 0
  | r :: rows' => (if f r then 1 else 0) + count_where f rows'
  end.

(** [WHERE mbti = ? AND love_situation = ? AND tarot_card = ?] *)
Definition key_matches (m s c : str) (r : Row) : bool :=
  eqb_str (mbti r) m && eqb_str (love_situation r) s
  && eqb_str (tarot_card r) c.

(** [SELECT COUNT( * ) ... ; return count > 0] *)
Definition is_topic_used_in (rows : list Row) (m s c : str) : bool :=
  0 <? count_where (key_matches m s c) rows.

Definition is_topic_used (m s c : str) : M bool :=
  fun e => (Ok (is_topic_used_in (db e) m s c), tick_queries e).

(** [INSERT INTO published_topics ...]: appends one row. *)
Definition save_published_topic (m s c t : str) (pid : option Z)
    (url : option str) (st : str) (err : option str) : M unit :=
  fun e => (Ok tt, set_db (fun rows => rows ++ [mkRow m s c t pid url st err]) e).

(** [SELECT status, COUNT( * ) ... GROUP BY status] as a dictionary. *)
Definition by_status_of (rows : list Row) : gmap str nat :=
  foldr (fun r m => <[status r := S (default 0 (m !! status r))]> m) ∅ rows.

(** [a / b] on numbers: true division. *)
Definition truediv (a b : Z) : result Q :=
  if (b =? 0)%Z then Raise ZeroDivisionError
  else Ok (Qmake a (Z.to_pos b)).

(** [round(x, 2)]: to the nearest hundredth, ties to even.  Here
    floating point numbers are taken as the exact rationals, which is
    enough for the counts of [get_stats] and for the range of its rate;
    the value of the rate as the interpreter computes it, on binary64
    numbers, is in module [Float64]. *)
Definition round_half_even (q : Q) : Z :=
  let n := Qnum q in
  let d := Zpos (Qden q) in
  let fl := (n / d)%Z in
  let r2 := (2 * (n mod d))%Z in
  if (r2 <? d)%Z then fl
  else if (d <? r2)%Z then (fl + 1)%Z
  else if Z.even fl then fl else (fl + 1)%Z.

Definition round2 (q : Q) : Q :=
  Qmake (round_half_even (q * 100)) 100.

Record Stats := mkStats {
  total_published : nat;
  by_status : gmap str nat;
  success_rate : Q
}.

Definition dict_get0 (d : gmap str nat) (k : str) : nat := default 0 (d !! k).

Definition get_stats_of (rows : list Row) : result Stats :=
  let total := length rows in
  let by_st := by_status_of rows in
  let success_count := dict_get0 by_st (u "publish") + dict_get0 by_st (u "draft") in
  match (if 0 <? total
         then match truediv (Z.of_nat success_count) (Z.of_nat total) with
              | Ok x => Ok (x * 100)%Q
              | Raise x => Raise x
              end
         else Ok 0%Q) with
  | Ok rate => Ok (mkStats total by_st (round2 rate))
  | Raise x => Raise x
  end.

Definition get_stats : M Stats := fun e => (get_stats_of (db e), e).

End Database.
Import Database.

(** ** The rate of [get_stats] on binary64 numbers

    Python's [float] is the IEEE 754 binary64 format, given here by the
    specification of the Standard Library ([prec = 53], [emax = 1024],
    rounding to nearest, ties to even).  The module is used by its
    qualified names. *)

Module Float64.

(** A Python number: an [int] or a [float]. *)
Inductive Number :=
| PyInt (z : Z)
| PyFloat (x : spec_float).

(** An integer with its exact value, as the operand of a division. *)
Definition exact_int (z : Z) : spec_float :=
  match z with
  | Z0 => S754_zero false
  | Zpos m => S754_finite false m 0
  | Zneg m => S754_finite true m 0
  end.

(** [float(k)]: the nearest binary64 number. *)
Definition float_of_int (k : Z) : spec_float := binary_normalize 53 1024 k 0 false.

(** [a / b] on two [int]s: the quotient of the integers, rounded once.
    (The ledger counts are below [2^63], far from the quotients for
    which the interpreter raises [OverflowError].) *)
Definition truediv (a b : Z) : result spec_float :=
  if (b =? 0)%Z then Raise ZeroDivisionError
  else Ok (SFdiv 53 1024 (exact_int a) (exact_int b)).

(** [x * k] for a [float] and an [int]. *)
Definition mul_int (x : spec_float) (k : Z) : spec_float :=
  SFmul 53 1024 x (float_of_int k).

(** [round(x, 2)] on a [float]: the exact value of [x] is rounded to
    hundredths, ties to even, and the decimal obtained is converted back
    to the nearest binary64 number. *)
Definition hundredths (m : positive) (e : Z) : Z :=
  match e with
  | Zneg p => round_half_even (Qmake (Zpos m * 100) (2 ^ p)%positive)
  | _ => (Zpos m * 100 * 2 ^ e)%Z
  end.

Definition round2 (x : spec_float) : spec_float :=
  match x with
  | S754_finite s m e =>
      match hundredths m e with
      | Zpos n => SFdiv 53 1024 (S754_finite s n 0) (exact_int 100)
      | _ => S754_zero s
      end
  | _ => x
  end.

(** [round(x, 2)] on a number: an [int] is returned as it is. *)
Definition round (x : Number) : Number :=
  match x with
  | PyInt z => PyInt z
  | PyFloat f => PyFloat (round2 f)
  end.

Record Stats := mkStats {
  total_published : nat;
  by_status : gmap str nat;
  success_rate : Number
}.

Definition get_stats_of (rows : list Row) : result Stats :=
  let total := length rows in
  let by_st := by_status_of rows in
  let success_count := dict_get0 by_st (u "publish") + dict_get0 by_st (u "draft") in
  match (if 0 <? total
         then match truediv (Z.of_nat success_count) (Z.of_nat total) with
              | Ok x => Ok (PyFloat (mul_int x 100))
              | Raise x => Raise x
              end
         else Ok (PyInt 0)) with
  | Ok rate => Ok (mkStats total by_st (round rate))
  | Raise x => Raise x
  end.

Definition get_stats : M Stats := fun e => (get_stats_of (db e), e).

End Float64.

(** ** The allocator ([generators/topic_generator.py]) *)

Module TopicGen.

Definition max_attempts : nat := 100.

(** [random.choice(seq)]: the next raw draw, reduced to an index. *)
Definition choice (w : World) (seq : list str) : M str :=
  fun e =>
    match seq !! (draws w (rng_pos e) mod length seq) with
    | Some x => (Ok x, tick_rng e)
    | None => (Raise IndexError, tick_rng e)
    end.

(** The body of the loop up to the membership test: the four draws and
    the lookup of the card's Korean name. *)
Definition draw_topic (w : World) : M Topic :=
  let* m := choice w MBTI_TYPES in
  let* s := choice w LOVE_SITUATIONS in
  let* ty := choice w CARD_TYPES in
  if eqb_str ty (u "tarot") then
    let* c := choice w TAROT_MAJOR_ARCANA in
    let* k := lift (dict_get TAROT_KOREAN c) in
    ret (mkTopic m s ty c k)
  else if eqb_str ty (u "numerology") then
    let* c := choice w NUMEROLOGY_NUMBERS in
    let* k := lift (dict_get NUMEROLOGY_KOREAN c) in
    ret (mkTopic m s ty c k)
  else
    let* c := choice w ORACLE_CARDS in
    let* k := lift (dict_get ORACLE_KOREAN c) in
    ret (mkTopic m s ty c k).

Definition exhausted_msg : str :=
  u "Unable to generate unique topic after 100 attempts. Database may be exhausted.".

(** [for attempt in range(n): ...] followed by the [raise]. *)
Fixpoint attempt_loop (w : World) (n : nat) : M Topic :=
  match n with
  | O => raise (RuntimeError exhausted_msg)
  | S n' =>
      let* t := draw_topic w in
      let* used := is_topic_used (t_mbti t) (t_love_situation t) (t_card_name t) in
      if negb used then ret t else attempt_loop w n'
  end.

Definition generate_unique_topic (w : World) : M Topic :=
  attempt_loop w max_attempts.

(** [calculate_remaining_combinations]: reads the statistics; the
    utilisation is only logged. *)
Definition calculate_remaining_combinations : M Z :=
  let total_possible :=
    length MBTI_TYPES * length LOVE_SITUATIONS * length TAROT_MAJOR_ARCANA in
  let* stats := get_stats in
  let* _ := lift (truediv (Z.of_nat (total_published stats)) (Z.of_nat total_possible)) in
  ret (Z.of_nat total_possible - Z.of_nat (total_published stats))%Z.

End TopicGen.
Import TopicGen.

(** ** The content policy ([validators/content_validator.py]) *)

Module Validator.

Definition required_disclaimer : str :=
  [52280; 44256; 32; 51088; 47308; 51068; 32; 49104]%N.

(** The messages appended to [issues], with what each one formats. *)
Inductive Issue :=
| FoundForbidden (found : list str)
| MissingDisclaimer
| MissingHeadings
| TooShort (len : nat).

(** [_check_forbidden_words] *)
Definition check_forbidden_words (text : str) : list str :=
  List.filter (fun word => contains (lower word) (lower text)) FORBIDDEN_WORDS.

(** [_check_disclaimer] *)
Definition check_disclaimer (content : str) : bool :=
  contains required_disclaimer content.

(** [_check_seo_structure] *)
Definition check_seo_structure (content : str) : bool :=
  3 <=? h2_findall_count content.

Definition validate (title content : str) : bool * list Issue :=
  let issues := [] in
  let forbidden_found := check_forbidden_words (title ++ u " " ++ content) in
  let issues :=
    match forbidden_found with
    | [] => issues
    | _ :: _ => issues ++ [FoundForbidden forbidden_found]
    end in
  let issues :=
    if negb (check_disclaimer content) then issues ++ [MissingDisclaimer]
    else issues in
  let issues :=
    if negb (check_seo_structure content) then issues ++ [MissingHeadings]
    else issues in
  let issues :=
    if length content <? 1000 then issues ++ [TooShort (length content)]
    else issues in
  (length issues =? 0, issues).

(** The substitution table of [sanitize_content], in insertion order. *)
Definition replacements : list (str * str) :=
  [ (u "definitely", u "likely");
    (u "guaranteed", u "possible");
    (u "100%", u "highly");
    (u "must happen", u "may happen");
    (u "will happen", u "might happen");
    (u "certain", u "probable");
    ([54869; 49892; 55176], [50500; 47560; 46020]);
    ([48152; 46300; 49884], [44032; 45733; 54616; 47732]);
    ([53952; 47548; 50630; 51060],
     [44536; 47092; 32; 49688; 32; 51080; 49845; 45768; 45796]);
    ([48372; 51109], [44032; 45733; 49457]);
    ([47924; 51312; 44148], [44221; 50864; 50640; 32; 46384; 46972]) ]%N.

Definition sanitize_content (content : str) : str :=
  fold_left (fun sanitized fr => re_sub_i (fst fr) (snd fr) sanitized)
            replacements content.

End Validator.
Import Validator.

(** ** The content oracle ([generators/content_generator.py]) *)

Module ContentGen.

(** One call of the oracle, parsed into title and content. *)
Definition generate_content_attempt (w : World) (topic : Topic) : M (str * str) :=
  fun e =>
    match llm w (llm_calls e) topic with
    | Some tc => (Ok tc, tick_llm e)
    | None => (Raise (OracleError (u "Claude API error")), tick_llm e)
    end.

(** [@retry(stop=stop_after_attempt(3), wait=...)] *)
Definition generate_content (w : World) (topic : Topic) : M (str * str) :=
  retry_wrap 3 (generate_content_attempt w topic).

End ContentGen.
Import ContentGen.

(** ** The CMS client ([publishers/wordpress_publisher.py]) *)

Module WordPress.

(** The dictionaries returned by [publish_post] and
    [publish_with_fallback]: with ['success': True] the post fields and
    the optional ['fallback_used'], with ['success': False] the error. *)
Inductive PublishResult :=
| Published (post_id : Z) (link status title : str) (fallback_used : bool)
| NotPublished (error title : str).

Definition success (r : PublishResult) : bool :=
  match r with
  | Published _ _ _ _ _ => true
  | NotPublished _ _ => false
  end.

Definition set_fallback_used (r : PublishResult) : PublishResult :=
  match r with
  | Published i l s t _ => Published i l s t true
  | NotPublished err t => NotPublished err t
  end.

(** Truth value of a list and of an optional number. *)
Definition nonempty {A} (l : list A) : option (list A) :=
  match l with
  | [] => None
  | _ :: _ => Some l
  end.
Definition truthy (h : option Z) : bool :=
  match h with
  | Some z => negb (z =? 0)%Z
  | None => false
  end.

Definition post_data_of (title content status : str) (categories tags : list Z)
    (schedule_hours : option Z) : PostData :=
  mkPostData title content status (nonempty categories) (nonempty tags)
    (if truthy schedule_hours && eqb_str status (u "future")
     then schedule_hours else None).

(** The body of [publish_post]: one request. *)
Definition publish_post_attempt (w : World) (title content status : str)
    (categories tags : list Z) (schedule_hours : option Z) : M PublishResult :=
  let post_data := post_data_of title content status categories tags schedule_hours in
  fun e =>
    match wp_post w (length (wp_requests e)) post_data with
    | inl p =>
        (Ok (Published (wp_id p) (wp_link p) (wp_status p) (wp_title_rendered p) false),
         push_request post_data e)
    | inr msg => (Raise (RequestException msg), push_request post_data e)
    end.

(** [@retry(stop=stop_after_attempt(3), wait=..., reraise=True)] *)
Definition publish_post (w : World) (title content status : str)
    (categories tags : list Z) (schedule_hours : option Z) : M PublishResult :=
  retry_reraise 3
    (publish_post_attempt w title content status categories tags schedule_hours).

Definition publish_with_fallback (w : World) (title content preferred_status : str)
    (categories tags : list Z) (schedule_hours : option Z) : M PublishResult :=
  catch
    (publish_post w title content preferred_status categories tags schedule_hours)
    (fun _ =>
       catch
         (let* result :=
            publish_post w title content (u "draft") categories tags schedule_hours in
          ret (set_fallback_used result))
         (fun fallback_error =>
            ret (NotPublished (exn_str fallback_error) title))).

(** [get_or_create_category] and [get_or_create_tag]: search by name,
    create on a miss; either request may fail. *)
Definition get_or_create_term (w : World) (name : str) : M Z :=
  fun e =>
    match wp_term w (term_calls e) name with
    | Some id => (Ok id, tick_term e)
    | None => (Raise (RequestException (u "taxonomy request failed")), tick_term e)
    end.
Definition get_or_create_category := get_or_create_term.
Definition get_or_create_tag := get_or_create_term.

End WordPress.
Import WordPress.

(** ** The coordinator ([orchestrator.py]) *)

Module Orchestrator.

Definition get_self : M ContentPublisher := fun e => (Ok (self e), e).

(** [self.publish_status = st] *)
Definition set_publish_status (st : str) : M unit :=
  fun e =>
    (Ok tt,
     set_self (mkContentPublisher st (auto_sanitize (self e)) (schedule_hours (self e))) e).

(** [_get_categories] *)
Definition get_categories (w : World) (topic : Topic) : M (list Z) :=
  catch
    (let* mbti_cat := get_or_create_category w (u "MBTI " ++ t_mbti topic) in
     let* tarot_cat :=
       get_or_create_category w [53440; 47196; 32; 49900; 47532; 32; 54644; 49437]%N in
     let* love_cat :=
       get_or_create_category w [50672; 50528; 32; 49900; 47532]%N in
     ret [mbti_cat; tarot_cat; love_cat])
    (fun _ => ret []).

(** [_get_tags] *)
Definition get_tags (w : World) (topic : Topic) : M (list Z) :=
  catch
    (let* mbti_tag := get_or_create_tag w (t_mbti topic) in
     let* tarot_tag := get_or_create_tag w (t_tarot_card topic) in
     let* tarot_kr_tag := get_or_create_tag w (t_tarot_korean topic) in
     let love_keyword := strip (split_head 40 (t_love_situation topic)) in
     let* love_tag := get_or_create_tag w love_keyword in
     ret [mbti_tag; tarot_tag; tarot_kr_tag; love_tag])
    (fun _ => ret []).

(** Step 3: validate, sanitize once and validate again, downgrade.
    Returns the content to publish. *)
Definition validate_step (title content : str) : M str :=
  let '(is_valid, _) := validate title content in
  if negb is_valid then
    let* this := get_self in
    let '(content, is_valid) :=
      if auto_sanitize this
      then (sanitize_content content,
            fst (validate title (sanitize_content content)))
      else (content, is_valid) in
    if negb is_valid then
      let* _ := set_publish_status (u "draft") in
      ret content
    else ret content
  else ret content.

(** Steps 4 and 5: taxonomy terms, then the publication. *)
Definition publish_step (w : World) (topic : Topic) (title content : str)
    : M PublishResult :=
  let* categories := get_categories w topic in
  let* tags := get_tags w topic in
  let* this := get_self in
  let kw_schedule_hours :=
    if eqb_str (publish_status this) (u "future") && truthy (schedule_hours this)
    then schedule_hours this else None in
  publish_with_fallback w title content (publish_status this)
    categories tags kw_schedule_hours.

(** Step 6: the ledger entry and the value [run] returns. *)
Definition record_step (topic : Topic) (title : str) (result : PublishResult)
    : M bool :=
  match result with
  | Published pid link st _ _ =>
      let* _ :=
        save_published_topic (t_mbti topic) (t_love_situation topic)
          (t_tarot_card topic) title (Some pid) (Some link) st None in
      ret true
  | NotPublished err _ =>
      let* _ :=
        save_published_topic (t_mbti topic) (t_love_situation topic)
          (t_tarot_card topic) title None None (u "failed") (Some err) in
      ret false
  end.

Definition run (w : World) : M bool :=
  catch
    (let* topic := generate_unique_topic w in
     let* _ := calculate_remaining_combinations in
     let* content_data := generate_content w topic in
     let title := fst content_data in
     let* content := validate_step title (snd content_data) in
     let* result := publish_step w topic title content in
     record_step topic title result)
    (fun _ => ret false).

(** [n] calls of [run] on the same object, one after the other. *)
Fixpoint runs (w : World) (n : nat) (e : Env) : Env :=
  match n with
  | O => e
  | S n' => runs w n' (snd (run w e))
  end.

End Orchestrator.
Import Orchestrator.

(** ** The scheduling policy ([utils/schedule.py]) *)

Module Schedule.

(** A naive [datetime]: the day as a number, then the time of day. *)
Record DateTime := mkDateTime {
  date : Z;
  hour : nat;
  minute : nat;
  second : nat;
  microsecond : nat
}.

(** [a < b] on [datetime] values. *)
Definition dt_ltb (a b : DateTime) : bool :=
  (date a <? date b)%Z
  || ((date a =? date b)%Z
      && ((hour a <? hour b)
          || ((hour a =? hour b)
              && ((minute a <? minute b)
                  || ((minute a =? minute b)
                      && ((second a <? second b)
                          || ((second a =? second b)
                              && (microsecond a <? microsecond b)))))))).

(** [dt.replace(hour=h, minute=m, second=0, microsecond=0)] *)
Definition replace_time (dt : DateTime) (h m : nat) : DateTime :=
  mkDateTime (date dt) h m 0 0.

(** [dt + timedelta(days=n)] *)
Definition add_days (dt : DateTime) (n : Z) : DateTime :=
  mkDateTime (date dt + n)%Z (hour dt) (minute dt) (second dt) (microsecond dt).

Definition target_times : list nat := [10; 14; 18].

(** The [for hour in target_times] loop with its [break]. *)
Fixpoint first_target (now : DateTime) (random_minute : nat) (hours : list nat)
    : option DateTime :=
  match hours with
  | [] => None
  | h :: hours' =>
      let target := replace_time now h random_minute in
      if dt_ltb now target then Some target
      else first_target now random_minute hours'
  end.

(** [now] is the value of [datetime.now()], [raw] the raw draw behind
    [random.randint(0, 59)].  The result is the [datetime] whose ISO
    text the function returns. *)
Definition get_next_publish_time (now : DateTime) (raw : nat) : DateTime :=
  let random_minute := raw mod 60 in
  match first_target now random_minute target_times with
  | Some next_time => next_time
  | None => replace_time (add_days now 1) 10 random_minute
  end.

Definition should_schedule (now : DateTime) : bool :=
  let current_hour := hour now in
  if ((9 <=? current_hour) && (current_hour <? 11))
     || ((13 <=? current_hour) && (current_hour <? 15))
     || ((17 <=? current_hour) && (current_hour <? 19))
  then false
  else true.

End Schedule.
Import Schedule.

(** ** Notions used to state the properties *)

Module Props.

(** The identity of a topic in the ledger: the 3-tuple
    [(mbti, love_situation, card_name)]. *)
Definition topic_key (t : Topic) : str * str * str :=
  (t_mbti t, t_love_situation t, t_card_name t).
Definition row_key (r : Row) : str * str * str :=
  (mbti r, love_situation r, tarot_card r).

(** The card names of the three vocabularies together. *)
Definition ALL_CARDS : list str :=
  TAROT_MAJOR_ARCANA ++ NUMEROLOGY_NUMBERS ++ ORACLE_CARDS.

(** Every combination of the topic space is in the ledger. *)
Definition all_used (rows : list Row) : bool :=
  forallb (fun m =>
    forallb (fun s =>
      forallb (fun c => is_topic_used_in rows m s c) ALL_CARDS)
    LOVE_SITUATIONS)
  MBTI_TYPES.

(** The rows of the whole topic space, one per combination. *)
Definition full_ledger : list Row :=
  m ← MBTI_TYPES; s ← LOVE_SITUATIONS; c ← ALL_CARDS;
  [mkRow m s c [] None None (u "draft") None].

(** One allocate-and-record cycle: [generate_unique_topic], then
    [save_published_topic] with the topic returned.  [outcome] gives the
    other columns of the entry (title, post id, URL, status, error). *)
Definition allocate_and_record (w : World)
    (outcome : Topic -> str * option Z * option str * str * option str)
    : M Topic :=
  let* t := generate_unique_topic w in
  let '(title, pid, url, st, err) := outcome t in
  let* _ :=
    save_published_topic (t_mbti t) (t_love_situation t) (t_tarot_card t)
                         title pid url st err in
  ret t.

(** [n] cycles in a row, the [i]-th with outcome [outcome i]; the topics
    allocated, first cycle first. *)
Fixpoint cycles (w : World)
    (outcome : nat -> Topic -> str * option Z * option str * str * option str)
    (n : nat) : M (list Topic) :=
  match n with
  | O => ret []
  | S n' =>
      let* t := allocate_and_record w (outcome 0) in
      let* ts := cycles w (fun i => outcome (S i)) n' in
      ret (t :: ts)
  end.

(** A world for examples: the raw draws count up, the content oracle
    returns a short text, every taxonomy request succeeds and the CMS
    accepts every post with the status asked for. *)
Definition sample_world : World :=
  mkWorld (fun n => n)
          (fun _ t => Some (u "Reading for " ++ t_mbti t, u "A short text."))
          (fun n _ => Some (Z.of_nat n))
          (fun n d => inl (mkWpPost (Z.of_nat n) (u "https://blog.example/p")
                                    (pd_status d) (pd_title d))).

(** As [sample_world], but the CMS refuses the first three posts. *)
Definition flaky_world : World :=
  mkWorld (draws sample_world) (llm sample_world) (wp_term sample_world)
          (fun n d => if n <? 3 then inr (u "503 Service Unavailable")
                      else wp_post sample_world n d).

(** As [sample_world], but the CMS refuses the first five posts. *)
Definition refusing_world : World :=
  mkWorld (draws sample_world) (llm sample_world) (wp_term sample_world)
          (fun n d => if n <? 5 then inr (u "503 Service Unavailable")
                      else wp_post sample_world n d).

(** As [sample_world], but the CMS reports every post it accepts as
    published, whatever status the request asked for. *)
Definition relabelling_world : World :=
  mkWorld (draws sample_world) (llm sample_world) (wp_term sample_world)
          (fun n d => inl (mkWpPost (Z.of_nat n) (u "https://blog.example/p")
                                    (u "publish") (pd_title d))).

(** A body that passes the four rules. *)
Definition valid_body : str :=
  u "## One" ++ [NL] ++ u "## Two" ++ [NL] ++ u "## Three" ++ [NL]
  ++ required_disclaimer ++ repeat 120%N 1000.

(** As [sample_world], but from its second call on the content oracle
    returns a valid text. *)
Definition improving_world : World :=
  mkWorld (draws sample_world)
          (fun n t => if n =? 0 then llm sample_world n t
                      else Some (u "Reading", valid_body))
          (wp_term sample_world) (wp_post sample_world).

(** A publisher as configured, with an empty ledger and fresh oracles. *)
Definition initial_env (p : ContentPublisher) (rows : list Row) : Env :=
  mkEnv p rows 0 0 0 0 [].

Definition default_publisher : ContentPublisher :=
  mkContentPublisher (u "draft") true None.

Definition sample_outcome (i : nat) (t : Topic)
    : str * option Z * option str * str * option str :=
  (t_card_name t, Some (Z.of_nat i), None, u "draft", None).

(** Every card name has its entry in the dictionary of its kind. *)
Definition dict_covers (d : list (str * str)) (keys : list str) : bool :=
  forallb (fun k => match dict_get d k with Ok _ => true | Raise _ => false end) keys.

(** Number of positions of [s] at which [t] starts. *)
Fixpoint occurrences (t s : str) : nat :=
  (if starts_with t s then 1 else 0) +
  match s with
  | [] => 0
  | _ :: s' => occurrences t s'
  end.

(** Case-insensitive occurrences of the forbidden terms in a text, as
    [_check_forbidden_words] looks for them. *)
Definition forbidden_occurrences (s : str) : nat :=
  foldr (fun w n => occurrences (lower w) (lower s) + n) 0 FORBIDDEN_WORDS.

(** Positions at which a pattern of [sanitize_content] matches. *)
Definition pattern_matches (s : str) : nat :=
  foldr (fun fr n => occurrences (casefold (fst fr)) (casefold s) + n)
        0 replacements.

(** The letters on which the two case mappings differ do not occur:
    [U+0130], [U+0131], [U+017F] and the Kelvin sign [U+212A]. *)
Definition no_fold_letters (s : str) : bool :=
  forallb (fun c => negb ((c =? 304) || (c =? 305) || (c =? 383)
                          || (c =? 8490))%N) s.

(** No combining dot [U+0307], dotless [i] or long [s] occurs. *)
Definition plain (t : str) : bool :=
  forallb (fun c => negb ((c =? 775) || (c =? 305) || (c =? 383))%N) t.

(** ["certaın"], with the dotless [U+0131]. *)
Definition dotless_certain : str := [99; 101; 114; 116; 97; 305; 110]%N.

(** Headings and disclaimer, then [n] letters [x]. *)
Definition padded_body (n : nat) : str :=
  u "## One" ++ [NL] ++ u "## Two" ++ [NL] ++ u "## Three" ++ [NL]
  ++ required_disclaimer ++ repeat 120%N n.

(** 999 characters ending in ["certaın"]: one character short, and
    the sanitize pass makes it 1000 characters long. *)
Definition short_dotless_body : str := padded_body 961 ++ dotless_certain.

(** 1000 characters ending in ["100% definıtely"]: the sanitize pass
    makes it 998 characters long. *)
Definition long_dotless_body : str :=
  padded_body 954 ++ u "100% defin" ++ [305%N] ++ u "tely".

(** The non-empty suffixes of a string. *)
Fixpoint tails_ne (s : str) : list str :=
  match s with
  | [] => []
  | _ :: s' => s :: tails_ne s'
  end.

(** Two strings agree as far as both go. *)
Definition compat (a b : str) : bool := starts_with a b || starts_with b a.

(** No copy of [t] can overlap a copy of [r], whatever surrounds them:
    wherever the two are laid over each other they differ. *)
Definition overlap_free (r t : str) : bool :=
  forallb (fun r' => negb (compat r' t)) (tails_ne r)
  && forallb (fun t' => negb (compat t' r)) (tails_ne t).

(** Every replacement of the table is free of overlaps with its own
    term and with the terms handled before it ([seen]), all read
    through [casefold]. *)
Fixpoint table_ok (seen : list str) (table : list (str * str)) : bool :=
  match table with
  | [] => true
  | (p, r) :: table' =>
      (0 <? length p)
      && forallb (overlap_free (casefold r)) (casefold p :: seen)
      && table_ok (casefold p :: seen) table'
  end.

(** One turn of the loop of [sanitize_content]. *)
Definition step (sanitized : str) (fr : str * str) : str :=
  re_sub_i (fst fr) (snd fr) sanitized.

(** The four rules of the content policy, the third as the pattern
    decides it. *)
Inductive Rule := NoForbidden | Disclaimer | Headings | MinLength.

Definition holds (title body : str) (r : Rule) : bool :=
  match r with
  | NoForbidden =>
      forallb (fun w => negb (contains (lower w) (lower (title ++ u " " ++ body))))
              FORBIDDEN_WORDS
  | Disclaimer => contains required_disclaimer body
  | Headings => 3 <=? h2_findall_count body
  | MinLength => 1000 <=? length body
  end.

Definition rule_of (i : Issue) : Rule :=
  match i with
  | FoundForbidden _ => NoForbidden
  | MissingDisclaimer => Disclaimer
  | MissingHeadings => Headings
  | TooShort _ => MinLength
  end.

Definition all_rules : list Rule := [NoForbidden; Disclaimer; Headings; MinLength].

(** The third rule read by its words: at least three lines of the body
    begin with the marker ["## "]. *)
Definition heading_lines (body : str) : nat :=
  length (List.filter (starts_with (u "## ")) (lines body)).

Definition holds_as_worded (title body : str) (r : Rule) : bool :=
  match r with
  | Headings => 3 <=? heading_lines body
  | _ => holds title body r
  end.

(** A body of more than 1000 characters that carries the disclaimer and
    whose first three lines are the bare marker ["## "]. *)
Definition bare_headings_body : str :=
  u "## " ++ [NL] ++ u "## " ++ [NL] ++ u "## " ++ [NL]
  ++ required_disclaimer ++ repeat 120%N 1000.

(** A body of the same kind whose three headings separate the marker
    from the heading text by a tab. *)
Definition tab_headings_body : str :=
  u "##" ++ [9%N] ++ u "One" ++ [NL] ++ u "##" ++ [9%N] ++ u "Two" ++ [NL]
  ++ u "##" ++ [9%N] ++ u "Three" ++ [NL]
  ++ required_disclaimer ++ repeat 120%N 1000.

(** Content that is still invalid after the one sanitize-and-revalidate
    pass of [run] (no pass at all without [auto_sanitize]). *)
Definition still_invalid (auto : bool) (title content : str) : bool :=
  negb (fst (validate title content))
  && (if auto
      then negb (fst (validate title (sanitize_content content)))
      else true).

(** A step that leaves the publisher object, the ledger and the CMS
    as they were ([frame]), or that only sends the requests [new] to the
    CMS ([sent]). *)
Definition frame (e e' : Env) : Prop :=
  self e' = self e /\ db e' = db e /\ wp_requests e' = wp_requests e.
Definition sent (e e' : Env) (new : list PostData) : Prop :=
  self e' = self e /\ db e' = db e /\ wp_requests e' = wp_requests e ++ new.

(** The result of a publication carries what the CMS answered to one
    of the requests [new]: the post it created, or the error. *)
Definition answers (w : World) (new : list PostData) (res : PublishResult) : Prop :=
  match res with
  | Published i l s t _ =>
      exists n d p, d ∈ new /\ wp_post w n d = inl p
                    /\ i = wp_id p /\ l = wp_link p /\ s = wp_status p
  | NotPublished err _ =>
      exists n d msg, d ∈ new /\ wp_post w n d = inr msg /\ err = msg
  end.

(** What [publish_with_fallback] returns after its fallback call of
    [publish_post] ended with [r]. *)
Definition fallback_result (title : str) (r : result PublishResult) : PublishResult :=
  match r with
  | Ok res => set_fallback_used res
  | Raise x => NotPublished (exn_str x) title
  end.

(** The CMS answers a request with the status it was asked for. *)
Definition echoes_status (w : World) : Prop :=
  forall n d p, wp_post w n d = inl p -> wp_status p = pd_status d.


(** Number of rows with a given status. *)
Definition count_status (st : str) (rows : list Row) : nat :=
  count_where (fun r => eqb_str (status r) st) rows.

(** A ledger with [p] rows of status [publish] and [f] of status
    [failed]. *)
Definition ledger_of (p f : nat) : list Row :=
  replicate p (mkRow (u "INTJ") (u "s") (u "c") (u "t") None None (u "publish") None)
  ++ replicate f (mkRow (u "INTJ") (u "s") (u "c") (u "t") None None (u "failed") None).

(** A ledger with one row of each status. *)
Definition one_of_each : list Row :=
  (fun st => mkRow (u "INTJ") (u "s") st (u "t") None None st None)
  <$> [u "publish"; u "draft"; u "failed"; u "future"].

End Props.
Import Props.

(** ** Further notions, for the properties beyond the claims *)

Module More.

(** The keys of the topic space: one per combination. *)
Definition topic_space : list (str * str * str) :=
  m ← MBTI_TYPES; s ← LOVE_SITUATIONS; c ← ALL_CARDS; [(m, s, c)].

(** A topic as [generate_unique_topic] builds it: the card comes from
    the vocabulary of the card type, with its entry of the matching
    dictionary as [card_korean]. *)
Definition card_of_kind (t : Topic) (kind : str) (cards : list str)
    (korean : list (str * str)) : Prop :=
  t_card_type t = kind /\ t_card_name t ∈ cards
  /\ dict_get korean (t_card_name t) = Ok (t_card_korean t).

Definition well_formed_topic (t : Topic) : Prop :=
  t_mbti t ∈ MBTI_TYPES
  /\ t_love_situation t ∈ LOVE_SITUATIONS
  /\ (card_of_kind t (u "tarot") TAROT_MAJOR_ARCANA TAROT_KOREAN
      \/ card_of_kind t (u "numerology") NUMEROLOGY_NUMBERS NUMEROLOGY_KOREAN
      \/ card_of_kind t (u "oracle") ORACLE_CARDS ORACLE_KOREAN).

(** No ASCII letter occurs in the string, and no character that is
    compared as one. *)
Definition uncased (t : str) : bool :=
  forallb (fun c => negb (((65 <=? c) && (c <=? 90))
                          || ((97 <=? c) && (c <=? 122)))%N
                    && (fold_cp c =? c)%N) t.

(** The terms and the replacements of the table leave [t] alone: no
    copy of [t] can overlap a term or a replacement. *)
Definition table_apart (t : str) (table : list (str * str)) : bool :=
  forallb (fun fr => (0 <? length (fst fr))
                     && overlap_free (casefold (fst fr)) t
                     && overlap_free (casefold (snd fr)) t) table.

(** The content [run] goes on with after step 3: the content as
    generated when it is valid or when [auto_sanitize] is off, the
    sanitized content otherwise. *)
Definition content_after (auto : bool) (title content : str) : str :=
  if fst (validate title content) then content
  else if auto then sanitize_content content else content.

(** The [schedule_hours] keyword [run] passes on to the publisher. *)
Definition hours_passed (this : ContentPublisher) : option Z :=
  if eqb_str (publish_status this) (u "future") && truthy (schedule_hours this)
  then schedule_hours this else None.

(** As [sample_world], with a content oracle whose text is valid. *)
Definition valid_world : World :=
  mkWorld (draws sample_world) (fun _ _ => Some (u "Reading", valid_body))
          (wp_term sample_world) (wp_post sample_world).

(** The strings of a list are pairwise different. *)
Fixpoint nodupb (l : list str) : bool :=
  match l with
  | [] => true
  | x :: l' => negb (existsb (eqb_str x) l') && nodupb l'
  end.

(** The key asked for is the key [(m, s, c)]. *)
Definition same_key (m s c m' s' c' : str) : bool :=
  eqb_str m' m && eqb_str s' s && eqb_str c' c.

End More.
Import More.

(** ** The HTML formatter of the second publisher
       ([publishers/wordpress.py], [format_content_html]) *)

Module Html.

(** [s.replace(old, new)] for a non-empty [old]: the leftmost
    non-overlapping occurrences, [skip] as in [sub_scan]. *)
Fixpoint replace_scan (old new : str) (skip : nat) (s : str) : str :=
  match s with
  | [] => []
  | c :: s' =>
      match skip with
      | S k => replace_scan old new k s'
      | O =>
          if starts_with old s
          then new ++ replace_scan old new (length old - 1) s'
          else c :: replace_scan old new 0 s'
      end
  end.
Definition replace (old new s : str) : str := replace_scan old new 0 s.

(** [sep.join(parts)] *)
Fixpoint join (sep : str) (parts : list str) : str :=
  match parts with
  | [] => []
  | [x] => x
  | x :: parts' => x ++ sep ++ join sep parts'
  end.

(** The body of the loop: what is appended to [html_lines] for a line. *)
Definition format_line (line : str) : str :=
  if starts_with (u "## ") line then
    u "<h2>" ++ strip (replace (u "## ") [] line) ++ u "</h2>"
  else if starts_with (u "### ") line then
    u "<h3>" ++ strip (replace (u "### ") [] line) ++ u "</h3>"
  else
    match strip line with
    | _ :: _ => u "<p>" ++ line ++ u "</p>"
    | [] => []
    end.

(** [title] and [metadata] are accepted and not used (the schema block
    is commented out in the source). *)
Definition format_content_html (content : str) : str :=
  join [NL] (format_line <$> lines content).

(** No line feed in the string. *)
Definition one_line (s : str) : Prop := Forall (fun c => c <> NL) s.

(** A line of whitespace only. *)
Definition blank (line : str) : bool :=
  match strip line with
  | [] => true
  | _ :: _ => false
  end.

End Html.
Import Html.

(** ** The stricter validator of the command-line entry point
       ([validators/seo_validator.py]) *)

Module Seo.

(** ["참고 자료"], ["선택과 책임"], ["본인에게"] *)
Definition required_disclaimer_keywords : list str :=
  [ [52280; 44256; 32; 51088; 47308];
    [49440; 53469; 44284; 32; 52293; 51076];
    [48376; 51064; 50640; 44172] ]%N.

(** The messages of [SEOValidator.validate], with what each formats. *)
Inductive SeoIssue :=
| SeoForbidden (first_three : list str)
| SeoMissingDisclaimer
| SeoMissingHeadings
| SeoTooShort (len : nat).

(** [all(keyword in content for keyword in ...)] *)
Definition seo_check_disclaimer (content : str) : bool :=
  forallb (fun keyword => contains keyword content) required_disclaimer_keywords.

(** [_check_headings] *)
Definition seo_check_headings (content : str) : bool :=
  3 <=? h2_findall_count content.

Definition seo_validate (title content : str) : bool * list SeoIssue :=
  let issues := [] in
  let forbidden_found := check_forbidden_words (title ++ u " " ++ content) in
  let issues :=
    match forbidden_found with
    | [] => issues
    | _ :: _ => issues ++ [SeoForbidden (take 3 forbidden_found)]
    end in
  let issues :=
    if negb (seo_check_disclaimer content) then issues ++ [SeoMissingDisclaimer]
    else issues in
  let issues :=
    if negb (seo_check_headings content) then issues ++ [SeoMissingHeadings]
    else issues in
  let issues :=
    if length content <? 1000 then issues ++ [SeoTooShort (length content)]
    else issues in
  (length issues =? 0, issues).

Definition seo_rule_of (i : SeoIssue) : Rule :=
  match i with
  | SeoForbidden _ => NoForbidden
  | SeoMissingDisclaimer => Disclaimer
  | SeoMissingHeadings => Headings
  | SeoTooShort _ => MinLength
  end.

(** The rules other than the disclaimer rule. *)
Definition not_disclaimer (r : Rule) : bool :=
  match r with
  | Disclaimer => false
  | _ => true
  end.

End Seo.
Import Seo.

(** ** The weekly cycle ([utils/database.py], weekly part;
       [generators/weekly_fortune_generator.py]; [weekly_main.py]) *)

Module Weekly.

(** A row of table [weekly_fortunes]. *)
Record WeeklyRow := mkWeeklyRow {
  wk_mbti : str;
  wk_week_start : str;
  wk_week_end : str;
  wk_title : str;
  wk_post_id : option Z;
  wk_post_url : option str;
  wk_status : str;
  wk_error_message : option str
}.

Fixpoint count_weekly (f : WeeklyRow -> bool) (rows : list WeeklyRow) : nat :=
  match rows with
  | [] => 0
  | r :: rows' => (if f r then 1 else 0) + count_weekly f rows'
  end.

(** [WHERE mbti = ? AND week_start = ?] *)
Definition weekly_matches (m ws : str) (r : WeeklyRow) : bool :=
  eqb_str (wk_mbti r) m && eqb_str (wk_week_start r) ws.

Definition is_weekly_fortune_published_in (rows : list WeeklyRow) (m ws : str) : bool :=
  0 <? count_weekly (weekly_matches m ws) rows.

Definition save_weekly_fortune_in (rows : list WeeklyRow) (m ws we t : str)
    (pid : option Z) (url : option str) (st : str) (err : option str)
    : list WeeklyRow :=
  rows ++ [mkWeeklyRow m ws we t pid url st err].

Definition weekly_key (r : WeeklyRow) : str * str := (wk_mbti r, wk_week_start r).

(** Dates are proleptic Gregorian ordinals, as [date.toordinal] gives
    them (day 1 is a Monday); [weekday] is 0 on Mondays. *)
Definition weekday (ordinal : Z) : Z := ((ordinal + 6) mod 7)%Z.

(** [get_week_dates], on the date of [datetime.now()]: Monday and
    Sunday of the current week, before they are rendered as text. *)
Definition get_week_dates (today : Z) : Z * Z :=
  let monday := (today - weekday today)%Z in
  let sunday := (monday + 6)%Z in
  (monday, sunday).

(** The collaborators of the weekly script: the text oracle, the
    taxonomy requests (which answer with an id or fail), the CMS and the
    rendering [strftime("%Y-%m-%d")] of a date. *)
Record WWorld := mkWWorld {
  ww_llm : nat -> str -> option (str * str);
  ww_term : nat -> str -> option Z;
  ww_post : nat -> PostData -> WpPost + str;
  ww_iso : Z -> str
}.

(** The state the script reads and changes. *)
Record WEnv := mkWEnv {
  weekly : list WeeklyRow;
  ww_llm_calls : nat;
  ww_term_calls : nat;
  ww_requests : list PostData
}.

Definition MW (A : Type) : Type := WEnv -> result A * WEnv.

Definition wret {A} (a : A) : MW A := fun e => (Ok a, e).
Definition wraise {A} (x : Exn) : MW A := fun e => (Raise x, e).
Definition wbind {A B} (m : MW A) (k : A -> MW B) : MW B :=
  fun e => match m e with
           | (Ok a, e') => k a e'
           | (Raise x, e') => (Raise x, e')
           end.
Definition wcatch {A} (m : MW A) (h : Exn -> MW A) : MW A :=
  fun e => match m e with
           | (Ok a, e') => (Ok a, e')
           | (Raise x, e') => h x e'
           end.

(** tenacity without [reraise], as [retry_wrap]. *)
Fixpoint wretry_loop {A} (extra : nat) (m : MW A) : MW A :=
  match extra with
  | O => m
  | S k => wcatch m (fun _ => wretry_loop k m)
  end.
Definition wretry {A} (attempts : nat) (m : MW A) : MW A :=
  wcatch (wretry_loop (attempts - 1) m) (fun _ => wraise RetryError).

(** [generate_weekly_fortune]: one call of the oracle, parsed. *)
Definition generate_weekly_fortune_attempt (w : WWorld) (m : str) : MW (str * str) :=
  fun e =>
    match ww_llm w (ww_llm_calls e) m with
    | Some tc =>
        (Ok tc, mkWEnv (weekly e) (S (ww_llm_calls e)) (ww_term_calls e) (ww_requests e))
    | None =>
        (Raise (OracleError (u "Weekly fortune generation failed")),
         mkWEnv (weekly e) (S (ww_llm_calls e)) (ww_term_calls e) (ww_requests e))
    end.
Definition generate_weekly_fortune (w : WWorld) (m : str) : MW (str * str) :=
  wretry 3 (generate_weekly_fortune_attempt w m).

(** [get_or_create_category] and [get_or_create_tag] of
    [publishers/wordpress.py]: an id, or [None] after any failure; they
    never raise. *)
Definition w_get_or_create_term (w : WWorld) (name : str) : MW (option Z) :=
  fun e =>
    (Ok (ww_term w (ww_term_calls e) name),
     mkWEnv (weekly e) (ww_llm_calls e) (S (ww_term_calls e)) (ww_requests e)).

(** Truth value of an optional id. *)
Definition truthy_id (o : option Z) : list Z :=
  match o with
  | Some id => if (id =? 0)%Z then [] else [id]
  | None => []
  end.

(** One request on [/posts]. *)
Definition w_post (w : WWorld) (d : PostData) : MW WpPost :=
  fun e =>
    let e' := mkWEnv (weekly e) (ww_llm_calls e) (ww_term_calls e)
                     (ww_requests e ++ [d]) in
    match ww_post w (length (ww_requests e)) d with
    | inl p => (Ok p, e')
    | inr msg => (Raise (RequestException msg), e')
    end.

(** What [publish_post] of [publishers/wordpress.py] returns. *)
Record Posted := mkPosted {
  posted_id : Z;
  posted_url : str;
  posted_status : str
}.

(** The body of that [publish_post]: the request at the status asked
    for; after a refusal, unless that status is [draft], the same request
    as draft, whose failure raises the first error again.  (The SEO
    fields are then set by further requests that cannot raise and do not
    change the result.) *)
Definition w_publish_post_attempt (w : WWorld) (title content st : str)
    (categories tags : list Z) : MW Posted :=
  let post_data := mkPostData title content st (nonempty categories)
                              (nonempty tags) None in
  wcatch
    (wbind (w_post w post_data)
       (fun p => wret (mkPosted (wp_id p) (wp_link p) (wp_status p))))
    (fun x =>
       if negb (eqb_str st (u "draft")) then
         wcatch
           (wbind (w_post w (mkPostData title content (u "draft")
                                        (nonempty categories) (nonempty tags) None))
              (fun p => wret (mkPosted (wp_id p) (wp_link p) (u "draft"))))
           (fun _ => wraise x)
       else wraise x).

Definition w_publish_post (w : WWorld) (title content st : str)
    (categories tags : list Z) : MW Posted :=
  wretry 3 (w_publish_post_attempt w title content st categories tags).

(** ["주간운세"] *)
Definition weekly_tag : str := [51452; 44036; 50868; 49464]%N.

(** The body of the [for] loop of [main] for one MBTI type; [true] when
    a fortune was published, [false] when the type was skipped. *)
Definition weekly_one (w : WWorld) (st : str) (week_start week_end : str)
    (m : str) : MW bool :=
  fun e =>
    if is_weekly_fortune_published_in (weekly e) m week_start
    then (Ok false, e)
    else
      wbind (generate_weekly_fortune w m) (fun result =>
      let title := fst result in
      let html_content := format_content_html (snd result) in
      wbind (w_get_or_create_term w (u "MBTI " ++ m)) (fun cat_id =>
      wbind (w_get_or_create_term w weekly_tag) (fun tag_weekly =>
      wbind (w_get_or_create_term w m) (fun tag_mbti =>
      let categories := truthy_id cat_id in
      let tags := truthy_id tag_weekly ++ truthy_id tag_mbti in
      wbind (w_publish_post w title html_content st categories tags)
        (fun publish_result =>
      fun e' =>
        (Ok true,
         mkWEnv (save_weekly_fortune_in (weekly e') m week_start week_end title
                   (Some (posted_id publish_result))
                   (Some (posted_url publish_result))
                   (posted_status publish_result) None)
                (ww_llm_calls e') (ww_term_calls e') (ww_requests e'))))))) e.

(** The loop over the types, counting published and skipped ones. *)
Fixpoint weekly_loop (w : WWorld) (st week_start week_end : str)
    (types : list str) (published skipped : nat) : MW (nat * nat) :=
  match types with
  | [] => wret (published, skipped)
  | m :: types' =>
      wbind (weekly_one w st week_start week_end m) (fun done =>
        if done
        then weekly_loop w st week_start week_end types' (S published) skipped
        else weekly_loop w st week_start week_end types' published (S skipped))
  end.

(** The environment variables the script and the constructors read:
    what [os.getenv] returns for each. *)
Record Environ := mkEnviron {
  ANTHROPIC_API_KEY : option str;
  WORDPRESS_URL : option str;
  WORDPRESS_USERNAME : option str;
  WORDPRESS_APP_PASSWORD : option str
}.

(** Truth value of what [os.getenv] returns. *)
Definition getenv_set (o : option str) : bool :=
  match o with
  | Some (_ :: _) => true
  | _ => false
  end.

(** [[v for v in required_vars if not os.getenv(v)]] *)
Definition missing (env : Environ) : list str :=
  fst <$> List.filter (fun nv => negb (getenv_set (snd nv)))
            [ (u "ANTHROPIC_API_KEY", ANTHROPIC_API_KEY env);
              (u "WORDPRESS_URL", WORDPRESS_URL env);
              (u "WORDPRESS_USERNAME", WORDPRESS_USERNAME env);
              (u "WORDPRESS_APP_PASSWORD", WORDPRESS_APP_PASSWORD env) ].

(** [s.rstrip("/")] *)
Fixpoint lstrip_slash (s : str) : str :=
  match s with
  | c :: s' => if (c =? 47)%N then lstrip_slash s' else s
  | [] => []
  end.
Definition rstrip_slash (s : str) : str := rev (lstrip_slash (rev s)).

(** [WeeklyFortuneGenerator.__init__], without arguments (the client
    object it then builds is taken to be built without error). *)
Definition generator_init (env : Environ) : result unit :=
  if getenv_set (ANTHROPIC_API_KEY env) then Ok tt
  else Raise (ValueError (u "ANTHROPIC_API_KEY is required")).

(** [WordPressPublisher.__init__], without arguments: the URL loses its
    trailing slashes before the three settings are tested. *)
Definition publisher_url (env : Environ) : str :=
  rstrip_slash (default [] (WORDPRESS_URL env)).

Definition publisher_init (env : Environ) : result unit :=
  if match publisher_url env with [] => false | _ :: _ => true end
     && getenv_set (WORDPRESS_USERNAME env)
     && getenv_set (WORDPRESS_APP_PASSWORD env)
  then Ok tt
  else Raise (ValueError (u "WORDPRESS_URL, WORDPRESS_USERNAME, and WORDPRESS_APP_PASSWORD are required")).

Definition wlift {A} (r : result A) : MW A := fun e => (r, e).

(** [main] of [weekly_main.py]: [env] holds the environment variables,
    [st] is [WORDPRESS_STATUS] (or its default), [today] the date of
    [datetime.now()].  The exit code. *)
Definition weekly_main (w : WWorld) (env : Environ) (st : str) (today : Z)
    : WEnv -> Z * WEnv :=
  fun e =>
    match missing env with
    | _ :: _ => (1%Z, e)
    | [] =>
        if negb (weekday today =? 0)%Z then (0%Z, e)
        else
          match wbind (wlift (generator_init env)) (fun _ =>
                wbind (wlift (publisher_init env)) (fun _ =>
                let '(monday, sunday) := get_week_dates today in
                weekly_loop w st (ww_iso w monday) (ww_iso w sunday)
                            MBTI_TYPES 0 0)) e with
          | (Ok _, e') => (0%Z, e')
          | (Raise _, e') => (1%Z, e')
          end
    end.

(** Every MBTI type has its fortune for the week. *)
Definition week_complete (rows : list WeeklyRow) (week_start : str) : bool :=
  forallb (fun m => is_weekly_fortune_published_in rows m week_start) MBTI_TYPES.

(** A world for examples and a rendering of dates. *)
Definition sample_wworld : WWorld :=
  mkWWorld (fun _ m => Some (u "Week of " ++ m, u "## Monday"))
           (fun n _ => Some (Z.of_nat (S n)))
           (fun n d => inl (mkWpPost (Z.of_nat n) (u "https://blog.example/w")
                                     (pd_status d) (pd_title d)))
           (fun z => [Z.to_N z]).

Definition empty_wenv : WEnv := mkWEnv [] 0 0 [].

(** An environment with the four variables set, and the same with a
    site URL made of a slash only. *)
Definition sample_environ : Environ :=
  mkEnviron (Some (u "key")) (Some (u "https://blog.example/"))
            (Some (u "editor")) (Some (u "secret")).
Definition slash_environ : Environ :=
  mkEnviron (Some (u "key")) (Some (u "/")) (Some (u "editor")) (Some (u "secret")).

End Weekly.
Import Weekly.

(** ** Parsing the generated text ([_parse_response] of
       [generators/content_generator.py] and of
       [generators/weekly_fortune_generator.py]) *)

Module Parse.

(** [s.split(sep)] for a non-empty [sep]: the pieces between the
    leftmost non-overlapping occurrences; [cur] is the piece being read,
    reversed, [skip] as in [sub_scan]. *)
Fixpoint split_scan (sep : str) (skip : nat) (cur : str) (s : str) : list str :=
  match s with
  | [] => [rev cur]
  | c :: s' =>
      match skip with
      | S k => split_scan sep k cur s'
      | O =>
          if starts_with sep s
          then rev cur :: split_scan sep (length sep - 1) [] s'
          else split_scan sep 0 (c :: cur) s'
      end
  end.
Definition split (sep s : str) : list str := split_scan sep 0 [] s.

(** The part of the response that holds title and body. *)
Definition content_part (response_text : str) : str :=
  let parts := split (u "---") response_text in
  if 2 <=? length parts then join (u "---") (drop 1 parts)
  else response_text.

(** [s.lstrip('#')] *)
Fixpoint lstrip_hash (s : str) : str :=
  match s with
  | c :: s' => if (c =? 35)%N then lstrip_hash s' else s
  | [] => []
  end.

(** The first loop over the lines, on [title], [found_title] and
    [content_lines]. *)
Fixpoint scan_title (ls : list str) (title : str) (found_title : bool)
    (content_lines : list str) : str * list str :=
  match ls with
  | [] => (title, content_lines)
  | line :: rest =>
      let stripped := strip line in
      if negb found_title && starts_with (u "#") stripped then
        scan_title rest (strip (lstrip_hash stripped)) true content_lines
      else if found_title then
        scan_title rest title found_title (content_lines ++ [line])
      else scan_title rest title found_title content_lines
  end.

(** The second loop: the first line that is not blank, stripped. *)
Fixpoint first_nonblank (ls : list str) (title : str) : str :=
  match ls with
  | [] => title
  | line :: rest =>
      match strip line with
      | _ :: _ => strip line
      | [] => first_nonblank rest title
      end
  end.

Definition parse_response (response_text : str) : str * str :=
  let content_part := content_part response_text in
  let ls := lines (strip content_part) in
  let '(title, content_lines) := scan_title ls [] false [] in
  let title :=
    match title with
    | [] => first_nonblank ls title
    | _ :: _ => title
    end in
  let content := strip (join [NL] content_lines) in
  let content :=
    match content with
    | [] => content_part
    | _ :: _ => content
    end in
  (title, content).

End Parse.
Import Parse.

(** * Properties *)

(** ** Strings *)

Section TextFacts.

Lemma lower_app (a b : str) : lower (a ++ b) = lower a ++ lower b.
Proof. apply bind_app. Qed.

Lemma lower_cons (c : N) (s : str) : lower (c :: s) = lower_cp c ++ lower s.
Proof. done. Qed.

Lemma casefold_app (a b : str) : casefold (a ++ b) = casefold a ++ casefold b.
Proof. apply fmap_app. Qed.

Lemma casefold_drop (n : nat) (s : str) :
  casefold (drop n s) = drop n (casefold s).
Proof. apply fmap_drop. Qed.

Lemma casefold_length (s : str) : length (casefold s) = length s.
Proof. apply length_fmap. Qed.

Lemma starts_with_nil_r (t : str) : starts_with t [] = true -> t = [].
Proof. destruct t; [done | discriminate]. Qed.

Lemma starts_with_refl (t : str) : starts_with t t = true.
Proof. induction t as [|c t IH]; simpl; [done|]. by rewrite N.eqb_refl. Qed.

Lemma starts_with_app (t x : str) : starts_with t (t ++ x) = true.
Proof. induction t as [|c t IH]; simpl; [done|]. by rewrite N.eqb_refl. Qed.

(** A prefix of [a ++ x] and [a] itself agree as far as both go. *)
Lemma starts_with_app_compat (t a x : str) :
  starts_with t (a ++ x) = true -> compat a t = true.
Proof.
  unfold compat. revert a.
  induction t as [|c t IH]; intros [|d a] H; simpl in *; try done.
  apply andb_true_iff in H as [Hc H].
  rewrite (N.eqb_sym d c), Hc. simpl. by apply IH.
Qed.

Lemma compat_sym (a b : str) : compat a b = compat b a.
Proof. unfold compat. apply orb_comm. Qed.

Lemma contains_cons (t : str) (c : N) (s : str) :
  contains t (c :: s) = starts_with t (c :: s) || contains t s.
Proof. done. Qed.

Lemma contains_nil_l (s : str) : contains [] s = true.
Proof. by destruct s. Qed.

Lemma contains_false_starts (t s : str) :
  contains t s = false -> starts_with t s = false.
Proof. destruct s; simpl; intros H; by apply orb_false_iff in H as [? _]. Qed.

Lemma contains_false_drop (t s : str) (n : nat) :
  contains t s = false -> contains t (drop n s) = false.
Proof.
  revert s. induction n as [|n IH]; intros s H; [done|].
  destruct s as [|c s]; [done|]. simpl.
  apply IH. rewrite contains_cons in H. by apply orb_false_iff in H as [_ ?].
Qed.

(** An occurrence in [a ++ b] starts inside [a] or lies in [b]. *)
Lemma contains_app_inv (t a b : str) :
  contains t (a ++ b) = true ->
  (exists a', a' ∈ tails_ne a /\ starts_with t (a' ++ b) = true)
  \/ contains t b = true.
Proof.
  induction a as [|c a IH]; intros H; simpl in *; [by right|].
  apply orb_true_iff in H as [H|H].
  - left. exists (c :: a). split; [left | done].
  - destruct (IH H) as [(a' & Hin & Ha')|Hb]; [left | by right].
    exists a'. split; [by right | done].
Qed.

Lemma tails_ne_tail (c : N) (t' t : str) :
  c :: t' ∈ tails_ne t -> t' <> [] -> t' ∈ tails_ne t.
Proof.
  induction t as [|d t IH]; simpl; intros Hin Hne; [by apply elem_of_nil in Hin|].
  apply elem_of_cons in Hin as [Heq|Hin].
  - inversion Heq; subst. right. destruct t; [done | left].
  - right. by apply IH.
Qed.

Lemma tails_ne_not_nil (t : str) : [] ∉ tails_ne t.
Proof.
  induction t as [|c t IH]; simpl; intros Hin.
  - by apply elem_of_nil in Hin.
  - apply elem_of_cons in Hin as [?|?]; [done | auto].
Qed.

Lemma occurrences_zero (t s : str) :
  occurrences t s = 0 <-> contains t s = false.
Proof.
  induction s as [|c s IH]; simpl.
  - destruct (starts_with t []); simpl; split; (done || lia).
  - destruct (starts_with t (c :: s)); simpl; [split; (done || lia)|].
    exact IH.
Qed.

End TextFacts.

(** ** One substitution pass *)

Section SubFacts.

Variables pat repl : str.
Hypothesis pat_ne : pat <> [].

Lemma sub_scan_skip (k : nat) (s : str) :
  sub_scan pat repl k s = sub_scan pat repl 0 (drop k s).
Proof.
  revert k. induction s as [|c s IH]; intros [|k]; simpl; first [done | apply IH].
Qed.

Lemma re_sub_i_nil : re_sub_i pat repl [] = [].
Proof. done. Qed.

Lemma re_sub_i_miss (c : N) (s : str) :
  imatch pat (c :: s) = false ->
  re_sub_i pat repl (c :: s) = c :: re_sub_i pat repl s.
Proof. unfold re_sub_i. simpl. by intros ->. Qed.

Lemma re_sub_i_hit (c : N) (s : str) :
  imatch pat (c :: s) = true ->
  re_sub_i pat repl (c :: s)
  = repl ++ re_sub_i pat repl (drop (length pat) (c :: s)).
Proof using pat_ne.
  unfold re_sub_i. simpl. intros ->. rewrite sub_scan_skip.
  destruct pat as [|p0 pat']; [done|]. simpl. by rewrite Nat.sub_0_r.
Qed.

(** A text without the term is left as it is. *)
Lemma re_sub_i_id (s : str) :
  contains (casefold pat) (casefold s) = false -> re_sub_i pat repl s = s.
Proof.
  induction s as [|c s IH]; intros H; [done|].
  rewrite re_sub_i_miss.
  - f_equal. apply IH. change (casefold (c :: s)) with (fold_cp c :: casefold s) in H.
    rewrite contains_cons in H. by apply orb_false_iff in H as [_ ?].
  - unfold imatch. by apply contains_false_starts.
Qed.

(** [t] is the term whose occurrences are followed, as [casefold]
    gives it. *)
Variable t : str.
Hypothesis free : overlap_free (casefold repl) t = true.

Lemma free_l (r' : str) : r' ∈ tails_ne (casefold repl) -> compat r' t = false.
Proof using free.
  intros Hin. unfold overlap_free in free.
  apply andb_true_iff in free as [H _].
  rewrite forallb_forall in H. apply negb_true_iff, H.
  by apply list_elem_of_In.
Qed.

Lemma free_r (t' : str) : t' ∈ tails_ne t -> compat t' (casefold repl) = false.
Proof using free.
  intros Hin. unfold overlap_free in free.
  apply andb_true_iff in free as [_ H].
  rewrite forallb_forall in H. apply negb_true_iff, H.
  by apply list_elem_of_In.
Qed.

(** A tail of the term that starts in unmatched text of the output lies
    in unmatched text of the input as a whole. *)
Lemma tail_in_gap (s t' : str) :
  t' ∈ tails_ne t ->
  starts_with t' (casefold (re_sub_i pat repl s)) = true ->
  starts_with t' (casefold s) = true /\ imatch pat s = false.
Proof using pat_ne free.
  revert t'. induction s as [|c s IH]; intros t' Hin H.
  - rewrite re_sub_i_nil in H. apply starts_with_nil_r in H. subst t'.
    by apply tails_ne_not_nil in Hin.
  - destruct (imatch pat (c :: s)) eqn:Hm.
    + rewrite re_sub_i_hit, casefold_app in H by done.
      apply starts_with_app_compat in H.
      rewrite compat_sym, free_r in H by done. done.
    + rewrite re_sub_i_miss in H by done. split; [|done].
      change (casefold (c :: ?x)) with (fold_cp c :: casefold x) in *.
      destruct t' as [|d t']; [done|]. simpl in *.
      apply andb_true_iff in H as [Hd H]. rewrite Hd. simpl.
      destruct t' as [|d' t'']; [done|].
      apply (IH (d' :: t'')); [|done].
      by apply (tails_ne_tail d).
Qed.

(** The pass leaves no occurrence of [t] when [t] is the term replaced
    or did not occur before. *)
Lemma re_sub_i_clears (n : nat) (s : str) :
  length s <= n ->
  t <> [] ->
  casefold pat = t \/ contains t (casefold s) = false ->
  contains t (casefold (re_sub_i pat repl s)) = false.
Proof using pat_ne free.
  revert s. induction n as [|n IH]; intros s Hn Ht Hs.
  - destruct s; [|simpl in Hn; lia].
    rewrite re_sub_i_nil. destruct t; done.
  - destruct s as [|c s]; [rewrite re_sub_i_nil; destruct t; done|].
    simpl in Hn.
    destruct (imatch pat (c :: s)) eqn:Hm.
    + rewrite re_sub_i_hit, casefold_app by done.
      apply not_true_is_false. intros Hc.
      apply contains_app_inv in Hc as [(r' & Hin & Hr')|Hc].
      * apply starts_with_app_compat in Hr'. by rewrite free_l in Hr'.
      * revert Hc. apply not_true_iff_false. apply IH; [|done|].
        -- rewrite length_drop. simpl. destruct pat; [done | simpl; lia].
        -- destruct Hs as [?|Hs]; [by left | right].
           rewrite casefold_drop. by apply contains_false_drop.
    + rewrite re_sub_i_miss by done.
      change (casefold (c :: ?x)) with (fold_cp c :: casefold x).
      rewrite contains_cons. apply orb_false_iff. split.
      * apply not_true_is_false. intros Hc.
        assert (Hin : t ∈ tails_ne t) by (destruct t; [done | left]).
        destruct (tail_in_gap (c :: s) t Hin) as [Hst _].
        { by rewrite re_sub_i_miss. }
        destruct Hs as [<-|Hs].
        -- unfold imatch in Hm. congruence.
        -- apply contains_false_starts in Hs. congruence.
      * apply IH; [lia | done |].
        destruct Hs as [?|Hs]; [by left | right].
        change (casefold (c :: s)) with (fold_cp c :: casefold s) in Hs.
        rewrite contains_cons in Hs. by apply orb_false_iff in Hs as [_ ?].
Qed.

End SubFacts.

(** ** The substitution table as a whole *)

Section SanitizeFacts.

Lemma eqb_str_eq (a b : str) : eqb_str a b = true <-> a = b.
Proof.
  revert b. induction a as [|x a IH]; intros [|y b]; simpl; try done.
  rewrite andb_true_iff, N.eqb_eq, IH. split.
  - by intros [-> ->].
  - intros H. by inversion H.
Qed.

Lemma eqb_str_refl (a : str) : eqb_str a a = true.
Proof. by apply eqb_str_eq. Qed.

Lemma fold_step_clears (table : list (str * str)) :
  forall (seen : list str) (s : str),
    table_ok seen table = true ->
    (forall t, t ∈ seen -> t <> [] /\ contains t (casefold s) = false) ->
    forall t, t ∈ seen \/ (exists fr, fr ∈ table /\ t = casefold (fst fr)) ->
    contains t (casefold (fold_left step table s)) = false.
Proof.
  induction table as [|[p r] table IH]; intros seen s Hok Hseen t Ht; simpl.
  - destruct Ht as [Ht|(fr & Hfr & _)]; [by apply Hseen|].
    by apply elem_of_nil in Hfr.
  - cbn [table_ok] in Hok. apply andb_true_iff in Hok as [Hok Hrest].
    apply andb_true_iff in Hok as [Hlen Hfree].
    assert (Hp : p <> []) by (destruct p; [done | discriminate]).
    rewrite forallb_forall in Hfree.
    apply (IH (casefold p :: seen)); [done | |].
    + intros t' Ht'. unfold step. simpl.
      assert (Ht'ne : t' <> []).
      { apply elem_of_cons in Ht' as [->|Ht'].
        - destruct p; [done | discriminate].
        - by apply Hseen. }
      split; [done|].
      apply (re_sub_i_clears p r Hp t') with (n := length s); auto.
      * apply Hfree. by apply list_elem_of_In.
      * apply elem_of_cons in Ht' as [->|Ht']; [by left | right].
        by apply Hseen.
    + destruct Ht as [Ht|(fr & Hfr & ->)]; [left; by right|].
      apply elem_of_cons in Hfr as [->|Hfr]; [left; by left|].
      right. by exists fr.
Qed.

Lemma fold_step_id (table : list (str * str)) (s : str) :
  (forall fr, fr ∈ table -> contains (casefold (fst fr)) (casefold s) = false) ->
  fold_left step table s = s.
Proof.
  induction table as [|[p r] table IH]; intros H; simpl; [done|].
  unfold step at 2. simpl.
  rewrite re_sub_i_id.
  - apply IH. intros fr Hfr. apply H. by right.
  - apply (H (p, r)). by left.
Qed.

Lemma replacements_ok : table_ok [] replacements = true.
Proof. vm_compute. reflexivity. Qed.

(** The table and the word list name the same terms. *)
Lemma forbidden_in_table :
  forallb (fun w => existsb (fun fr => eqb_str (fst fr) w) replacements)
          FORBIDDEN_WORDS = true.
Proof. vm_compute. reflexivity. Qed.

Lemma table_in_forbidden :
  forallb (fun fr => existsb (eqb_str (fst fr)) FORBIDDEN_WORDS)
          replacements = true.
Proof. vm_compute. reflexivity. Qed.

Lemma forbidden_occurrences_zero (s : str) :
  forbidden_occurrences s = 0
  <-> forall w, w ∈ FORBIDDEN_WORDS -> contains (lower w) (lower s) = false.
Proof.
  unfold forbidden_occurrences.
  induction FORBIDDEN_WORDS as [|w ws IH]; simpl.
  - split; [|done]. intros _ w Hw. by apply elem_of_nil in Hw.
  - rewrite Nat.eq_add_0, occurrences_zero, IH. split.
    + intros [Hw Hws] w' Hw'.
      apply elem_of_cons in Hw' as [->|Hw']; [done | by apply Hws].
    + intros H. split; [apply H; by left|].
      intros w' Hw'. apply H. by right.
Qed.

Lemma check_forbidden_words_nil (s : str) :
  check_forbidden_words s = [] <-> forbidden_occurrences s = 0.
Proof.
  rewrite forbidden_occurrences_zero. unfold check_forbidden_words.
  induction FORBIDDEN_WORDS as [|w ws IH]; simpl.
  - split; [|done]. intros _ w Hw. by apply elem_of_nil in Hw.
  - destruct (contains (lower w) (lower s)) eqn:Hc.
    + split; [done|]. intros H. specialize (H w (list_elem_of_here _ _)). congruence.
    + rewrite IH. split.
      * intros H w' Hw'. apply elem_of_cons in Hw' as [->|Hw']; [done | by apply H].
      * intros H w' Hw'. apply H. by right.
Qed.

Lemma sanitize_content_fold (s : str) :
  sanitize_content s = fold_left step replacements s.
Proof. done. Qed.

Lemma pattern_matches_zero (s : str) :
  pattern_matches s = 0
  <-> forall fr, fr ∈ replacements ->
        contains (casefold (fst fr)) (casefold s) = false.
Proof.
  unfold pattern_matches.
  induction replacements as [|fr frs IH]; simpl.
  - split; [|done]. intros _ fr Hfr. by apply elem_of_nil in Hfr.
  - rewrite Nat.eq_add_0, occurrences_zero, IH. split.
    + intros [Hfr Hfrs] fr' Hfr'.
      apply elem_of_cons in Hfr' as [->|Hfr']; [done | by apply Hfrs].
    + intros H. split; [apply H; by left|].
      intros fr' Hfr'. apply H. by right.
Qed.

(** No pattern of the table matches anywhere in a sanitized text. *)
Lemma sanitize_content_no_match (s : str) (fr : str * str) :
  fr ∈ replacements ->
  contains (casefold (fst fr)) (casefold (sanitize_content s)) = false.
Proof.
  intros Hfr. rewrite sanitize_content_fold.
  apply (fold_step_clears replacements [] s replacements_ok).
  - intros t Ht. by apply elem_of_nil in Ht.
  - right. by exists fr.
Qed.

(** *** The two case mappings compared *)

Lemma lower_cp_cases (c : N) :
  lower_cp c = [fold_cp c]
  \/ c = 304%N /\ lower_cp c = [105; 775]%N
  \/ (c = 305%N \/ c = 383%N) /\ lower_cp c = [c].
Proof.
  unfold lower_cp, fold_cp.
  destruct ((65 <=? c) && (c <=? 90))%N; [by left|].
  destruct (N.eqb_spec c 304) as [->|H304]; [right; left; done|].
  cbn [orb].
  destruct (N.eqb_spec c 8490) as [->|H8490]; [by left|].
  destruct (N.eqb_spec c 305) as [->|H305]; [right; right; split; [by left | done]|].
  destruct (N.eqb_spec c 383) as [->|H383]; [right; right; split; [by right | done]|].
  by left.
Qed.

Lemma plain_cons (a : N) (t : str) :
  plain (a :: t) = true ->
  a <> 775%N /\ a <> 305%N /\ a <> 383%N /\ plain t = true.
Proof.
  unfold plain. cbn [forallb]. intros H.
  apply andb_true_iff in H as [Ha Ht]. apply negb_true_iff in Ha.
  apply orb_false_iff in Ha as [Ha H383]. apply orb_false_iff in Ha as [H775 H305].
  apply N.eqb_neq in H775, H305, H383. done.
Qed.

(** A word found in the lowered text at some place is matched by the
    pattern of that word at the same place. *)
Lemma starts_lower_fold (s t : str) :
  plain t = true ->
  starts_with t (lower s) = true -> starts_with t (casefold s) = true.
Proof.
  revert t. induction s as [|c s IH]; intros t Ht H.
  { apply starts_with_nil_r in H. by subst t. }
  destruct t as [|a t]; [done|].
  apply plain_cons in Ht as (H775 & H305 & H383 & Ht).
  rewrite lower_cons in H. change (casefold (c :: s)) with (fold_cp c :: casefold s).
  destruct (lower_cp_cases c) as [Hc|[(-> & Hc)|(Hcc & Hc)]]; rewrite Hc in H;
    cbn [app starts_with] in H |- *; apply andb_true_iff in H as [Ha H];
    apply N.eqb_eq in Ha.
  - subst a. rewrite N.eqb_refl. cbn [andb]. by apply IH.
  - subst a. change (fold_cp 304) with 105%N. cbn [N.eqb Pos.eqb andb].
    destruct t as [|b t]; [done|]. cbn [starts_with] in H.
    apply andb_true_iff in H as [Hb _]. apply N.eqb_eq in Hb. subst b.
    by apply plain_cons in Ht as (? & _).
  - subst a. by destruct Hcc.
Qed.

Lemma contains_lower_fold (s t : str) :
  plain t = true ->
  contains t (lower s) = true -> contains t (casefold s) = true.
Proof.
  intros Ht. induction s as [|c s IH]; intros H; [done|].
  change (casefold (c :: s)) with (fold_cp c :: casefold s).
  rewrite contains_cons. apply orb_true_iff.
  rewrite lower_cons in H.
  apply contains_app_inv in H as [(a' & Hin & Ha')|H]; [|right; by apply IH].
  left. change (fold_cp c :: casefold s) with (casefold (c :: s)).
  apply starts_lower_fold; [done|]. rewrite lower_cons.
  destruct (lower_cp_cases c) as [Hc|[(-> & Hc)|(_ & Hc)]]; rewrite Hc in Hin |- *;
    cbn [tails_ne] in Hin.
  - apply list_elem_of_singleton in Hin. by subst a'.
  - apply elem_of_cons in Hin as [->|Hin]; [done|].
    apply list_elem_of_singleton in Hin. subst a'.
    destruct t as [|a t]; [done|]. exfalso.
    cbn [app starts_with] in Ha'. apply andb_true_iff in Ha' as [Ha _].
    apply N.eqb_eq in Ha. subst a. by apply plain_cons in Ht as (? & _).
  - apply list_elem_of_singleton in Hin. by subst a'.
Qed.

(** Without the four letters the two mappings are the same. *)
Lemma lower_casefold (s : str) :
  no_fold_letters s = true -> lower s = casefold s.
Proof.
  induction s as [|c s IH]; [done|]. unfold no_fold_letters. cbn [forallb].
  intros H. apply andb_true_iff in H as [Hc Hs].
  rewrite lower_cons, IH by exact Hs.
  change (casefold (c :: s)) with (fold_cp c :: casefold s).
  apply negb_true_iff in Hc.
  apply orb_false_iff in Hc as [Hc H8490]. apply orb_false_iff in Hc as [Hc H383].
  apply orb_false_iff in Hc as [H304 H305].
  unfold lower_cp, fold_cp. rewrite H304, H305, H383, H8490. cbn [orb].
  by destruct ((65 <=? c) && (c <=? 90))%N.
Qed.

(** On the words of the list the two mappings agree, and no lowered
    word holds a character that only lowering produces. *)
Lemma words_fold :
  forallb (fun w => eqb_str (lower w) (casefold w) && plain (lower w))
          FORBIDDEN_WORDS = true.
Proof. vm_compute. reflexivity. Qed.

Lemma word_fold (w : str) :
  w ∈ FORBIDDEN_WORDS -> lower w = casefold w /\ plain (lower w) = true.
Proof.
  intros Hw. pose proof words_fold as H. rewrite forallb_forall in H.
  specialize (H w (proj1 (list_elem_of_In _ _) Hw)).
  apply andb_true_iff in H as [H1 H2]. by apply eqb_str_eq in H1.
Qed.

(** What the validator finds, a pattern matches. *)
Lemma forbidden_found_matches (w s : str) :
  w ∈ FORBIDDEN_WORDS ->
  contains (lower w) (lower s) = true ->
  contains (casefold w) (casefold s) = true.
Proof.
  intros Hw H. destruct (word_fold w Hw) as [Heq Hp].
  rewrite <- Heq. by apply contains_lower_fold.
Qed.

Lemma sanitize_content_no_word (s w : str) :
  w ∈ FORBIDDEN_WORDS ->
  contains (lower w) (lower (sanitize_content s)) = false.
Proof.
  intros Hw. apply not_true_is_false. intros Hc.
  apply (forbidden_found_matches w _ Hw) in Hc.
  pose proof forbidden_in_table as H. rewrite forallb_forall in H.
  specialize (H w (proj1 (list_elem_of_In _ _) Hw)).
  apply existsb_exists in H as (fr & Hfr & Heq). apply eqb_str_eq in Heq.
  apply list_elem_of_In in Hfr.
  pose proof (sanitize_content_no_match s fr Hfr) as Hn.
  rewrite Heq in Hn. congruence.
Qed.

End SanitizeFacts.

(** C6. Whatever the number of case-insensitive occurrences of
    forbidden terms in a body, [sanitize_content] returns a text with no
    such occurrence: [_check_forbidden_words] finds nothing in it, and
    no pattern of the table matches in it.  A body in which no pattern
    matches is returned unchanged; so is a body without forbidden terms
    that holds none of the letters [U+0130], [U+0131], [U+017F] and
    [U+212A], which the patterns match as [i], [s] and [k] and
    [str.lower] does not turn into them. *)
Theorem sanitize_content_clears_forbidden (body : str) :
  forbidden_occurrences (sanitize_content body) = 0
  /\ check_forbidden_words (sanitize_content body) = []
  /\ pattern_matches (sanitize_content body) = 0
  /\ (pattern_matches body = 0 -> sanitize_content body = body)
  /\ (forbidden_occurrences body = 0 -> no_fold_letters body = true ->
      sanitize_content body = body).
Proof.
  assert (H0 : forbidden_occurrences (sanitize_content body) = 0).
  { apply forbidden_occurrences_zero. intros w Hw.
    by apply sanitize_content_no_word. }
  assert (Hid : pattern_matches body = 0 -> sanitize_content body = body).
  { intros Hb. rewrite sanitize_content_fold. apply fold_step_id.
    by apply pattern_matches_zero. }
  split; [done|]. split; [by apply check_forbidden_words_nil|].
  split; [apply pattern_matches_zero; intros fr Hfr;
          by apply sanitize_content_no_match|].
  split; [done|].
  intros Hb Hplain. apply Hid, pattern_matches_zero. intros fr Hfr.
  pose proof table_in_forbidden as H. rewrite forallb_forall in H.
  specialize (H fr (proj1 (list_elem_of_In _ _) Hfr)).
  apply existsb_exists in H as (w & Hw & Heq). apply eqb_str_eq in Heq.
  apply list_elem_of_In in Hw.
  rewrite forbidden_occurrences_zero in Hb. specialize (Hb w Hw).
  destruct (word_fold w Hw) as [Hwf _].
  by rewrite Heq, <- Hwf, <- (lower_casefold body Hplain).
Qed.

Lemma sanitize_content_clears_forbidden_witness :
  forbidden_occurrences (u "The cards suggest a calm week.") = 0
  /\ no_fold_letters (u "The cards suggest a calm week.") = true
  /\ sanitize_content (u "The cards suggest a calm week.")
     = u "The cards suggest a calm week.".
Proof.
  split; [vm_compute; reflexivity|]. split; [vm_compute; reflexivity|].
  apply (proj2 (proj2 (proj2 (proj2 (sanitize_content_clears_forbidden _)))));
    vm_compute; reflexivity.
Defined.

(** The claim as worded fails: the body [certaın], written with the
    dotless [U+0131], holds no forbidden term for
    [_check_forbidden_words], and [sanitize_content] rewrites it. *)
Lemma sanitize_content_rewrites_clean_body :
  forbidden_occurrences dotless_certain = 0
  /\ check_forbidden_words dotless_certain = []
  /\ sanitize_content dotless_certain = u "probable"
  /\ sanitize_content dotless_certain <> dotless_certain.
Proof.
  split; [vm_compute; reflexivity|]. split; [vm_compute; reflexivity|].
  split; [vm_compute; reflexivity|]. vm_compute. discriminate.
Qed.

Example sanitize_content_fold_letters :
  sanitize_content [67; 69; 82; 84; 65; 304; 78]%N = u "probable"
  /\ check_forbidden_words [67; 69; 82; 84; 65; 304; 78]%N = []
  /\ sanitize_content (u "mu" ++ [383%N] ++ u "t happen") = u "may happen"
  /\ check_forbidden_words (u "mu" ++ [383%N] ++ u "t happen") = [].
Proof. repeat split; vm_compute; reflexivity. Qed.

Example sanitize_content_sample :
  sanitize_content (u "It will DEFINITELY be 100% Certain")
  = u "It will likely be highly probable".
Proof. vm_compute. reflexivity. Qed.

(** ** The validator *)

Section ValidateFacts.

Lemma holds_no_forbidden (title body : str) :
  holds title body NoForbidden
  = match check_forbidden_words (title ++ u " " ++ body) with
    | [] => true
    | _ :: _ => false
    end.
Proof.
  unfold holds, check_forbidden_words.
  induction FORBIDDEN_WORDS as [|w ws IH]; [done|].
  cbn [forallb List.filter].
  destruct (contains (lower w) (lower (title ++ u " " ++ body))); [done|].
  exact IH.
Qed.

Lemma validate_cases (title body : str) :
  validate title body
  = (forallb (holds title body) all_rules,
     (match check_forbidden_words (title ++ u " " ++ body) with
      | [] => []
      | found => [FoundForbidden found]
      end)
     ++ (if holds title body Disclaimer then [] else [MissingDisclaimer])
     ++ (if holds title body Headings then [] else [MissingHeadings])
     ++ (if holds title body MinLength then [] else [TooShort (length body)])).
Proof.
  unfold validate, all_rules. cbn [forallb]. rewrite holds_no_forbidden.
  unfold holds, check_disclaimer, check_seo_structure.
  rewrite (Nat.leb_antisym (length body) 1000).
  destruct (check_forbidden_words (title ++ u " " ++ body));
    destruct (contains required_disclaimer body);
    destruct (3 <=? h2_findall_count body);
    destruct (length body <? 1000); reflexivity.
Qed.

End ValidateFacts.

(** C5, as amended.  [validate title body] is [(true, [])] exactly when
    the four rules hold, the third one being that the multi-line pattern
    [^##\s+.+$] has at least three matches in the body; the first
    component is the conjunction of the rules, and the issues returned
    are one per violated rule, in the order of the rules. *)
Theorem validate_rules (title body : str) :
  fst (validate title body) = forallb (holds title body) all_rules
  /\ (validate title body = (true, [])
      <-> forallb (holds title body) all_rules = true)
  /\ rule_of <$> snd (validate title body)
     = List.filter (fun r => negb (holds title body r)) all_rules.
Proof.
  rewrite validate_cases. unfold all_rules. cbn [fst snd forallb List.filter].
  rewrite holds_no_forbidden.
  destruct (check_forbidden_words (title ++ u " " ++ body));
    destruct (holds title body Disclaimer);
    destruct (holds title body Headings);
    destruct (holds title body MinLength);
    cbn; (split; [reflexivity | split; [split; congruence | reflexivity]]).
Qed.

(** C5, as worded, fails: the body [bare_headings_body] satisfies the
    four rules as the claim words them (three of its lines begin with
    ["## "]), yet the pattern matches twice only and [validate] reports
    the heading structure as missing. *)
Lemma validate_rules_as_worded_fails :
  ~ (forall title body,
       validate title body = (true, [])
       <-> forallb (holds_as_worded title body) all_rules = true).
Proof.
  intros H. specialize (H [] bare_headings_body).
  assert (Hw : forallb (holds_as_worded [] bare_headings_body) all_rules = true)
    by (vm_compute; reflexivity).
  apply H in Hw.
  assert (Hv : validate [] bare_headings_body = (false, [MissingHeadings]))
    by (vm_compute; reflexivity).
  congruence.
Qed.

Example validate_bare_headings :
  heading_lines bare_headings_body = 3
  /\ h2_findall_count bare_headings_body = 2
  /\ validate [] bare_headings_body = (false, [MissingHeadings]).
Proof. vm_compute. repeat split; reflexivity. Qed.

Example validate_tab_headings :
  heading_lines tab_headings_body = 0
  /\ h2_findall_count tab_headings_body = 3
  /\ validate [] tab_headings_body = (true, []).
Proof. vm_compute. repeat split; reflexivity. Qed.

(** ** The allocator *)

Section AllocatorFacts.

Variable w : World.

Lemma is_topic_used_in_key (rows : list Row) (m s c : str) :
  is_topic_used_in rows m s c = true <-> (m, s, c) ∈ row_key <$> rows.
Proof.
  unfold is_topic_used_in. rewrite Nat.ltb_lt.
  induction rows as [|r rows IH]; simpl.
  - split; [lia|]. intros H. by apply elem_of_nil in H.
  - rewrite elem_of_cons, <- IH. unfold key_matches, row_key.
    destruct (eqb_str (mbti r) m) eqn:Em; destruct (eqb_str (love_situation r) s) eqn:Es;
      destruct (eqb_str (tarot_card r) c) eqn:Ec; simpl;
      try (apply eqb_str_eq in Em); try (apply eqb_str_eq in Es);
      try (apply eqb_str_eq in Ec); subst.
    1: { split; [by left | lia]. }
    all: split; [by right|]; intros [Heq|?]; [|done]; exfalso;
      inversion Heq; subst;
      rewrite ?eqb_str_refl in *; discriminate.
Qed.

Lemma is_topic_used_in_not_key (rows : list Row) (m s c : str) :
  is_topic_used_in rows m s c = false <-> (m, s, c) ∉ row_key <$> rows.
Proof.
  rewrite <- is_topic_used_in_key. by destruct (is_topic_used_in rows m s c).
Qed.

Lemma choice_ok (seq : list str) (e : Env) :
  seq <> [] -> exists x, x ∈ seq /\ choice w seq e = (Ok x, tick_rng e).
Proof.
  intros Hne. unfold choice.
  destruct (seq !! (draws w (rng_pos e) mod length seq)) as [x|] eqn:Hx.
  - exists x. split; [|done]. by eapply list_elem_of_lookup_2.
  - apply lookup_ge_None in Hx.
    assert (length seq <> 0) by (destruct seq; [done | simpl; lia]).
    pose proof (Nat.mod_upper_bound (draws w (rng_pos e)) (length seq)). lia.
Qed.

Lemma dict_covers_get (d : list (str * str)) (keys : list str) (k : str) :
  dict_covers d keys = true -> k ∈ keys -> exists v, dict_get d k = Ok v.
Proof.
  unfold dict_covers. rewrite forallb_forall. intros H Hk.
  specialize (H k (proj1 (list_elem_of_In _ _) Hk)).
  destruct (dict_get d k) as [v|]; [by exists v | done].
Qed.

Lemma tarot_covered : dict_covers TAROT_KOREAN TAROT_MAJOR_ARCANA = true.
Proof. vm_compute. reflexivity. Qed.
Lemma numerology_covered : dict_covers NUMEROLOGY_KOREAN NUMEROLOGY_NUMBERS = true.
Proof. vm_compute. reflexivity. Qed.
Lemma oracle_covered : dict_covers ORACLE_KOREAN ORACLE_CARDS = true.
Proof. vm_compute. reflexivity. Qed.

(** The four draws always yield a topic of the topic space and touch
    the random source only. *)
Lemma draw_topic_ok (e : Env) :
  exists t,
    draw_topic w e = (Ok t, tick_rng (tick_rng (tick_rng (tick_rng e))))
    /\ t_mbti t ∈ MBTI_TYPES
    /\ t_love_situation t ∈ LOVE_SITUATIONS
    /\ t_card_name t ∈ ALL_CARDS.
Proof.
  unfold draw_topic, bind.
  destruct (choice_ok MBTI_TYPES e) as (m & Hm & ->); [done|].
  destruct (choice_ok LOVE_SITUATIONS (tick_rng e)) as (s & Hs & ->); [done|].
  destruct (choice_ok CARD_TYPES (tick_rng (tick_rng e))) as (ty & Hty & ->); [done|].
  set (e3 := tick_rng (tick_rng (tick_rng e))).
  unfold ALL_CARDS.
  destruct (eqb_str ty (u "tarot")); [|destruct (eqb_str ty (u "numerology"))].
  - destruct (choice_ok TAROT_MAJOR_ARCANA e3) as (c & Hc & ->); [done|].
    destruct (dict_covers_get _ _ c tarot_covered Hc) as (k & Hk).
    unfold lift. rewrite Hk. eexists. split; [reflexivity|].
    repeat split; try done. apply elem_of_app. by left.
  - destruct (choice_ok NUMEROLOGY_NUMBERS e3) as (c & Hc & ->); [done|].
    destruct (dict_covers_get _ _ c numerology_covered Hc) as (k & Hk).
    unfold lift. rewrite Hk. eexists. split; [reflexivity|].
    repeat split; try done. apply elem_of_app. right. apply elem_of_app. by left.
  - destruct (choice_ok ORACLE_CARDS e3) as (c & Hc & ->); [done|].
    destruct (dict_covers_get _ _ c oracle_covered Hc) as (k & Hk).
    unfold lift. rewrite Hk. eexists. split; [reflexivity|].
    repeat split; try done. apply elem_of_app. right. apply elem_of_app. by right.
Qed.

Lemma all_used_spec (rows : list Row) (m s c : str) :
  all_used rows = true ->
  m ∈ MBTI_TYPES -> s ∈ LOVE_SITUATIONS -> c ∈ ALL_CARDS ->
  is_topic_used_in rows m s c = true.
Proof.
  unfold all_used. rewrite forallb_forall. intros H Hm Hs Hc.
  specialize (H m (proj1 (list_elem_of_In _ _) Hm)).
  rewrite forallb_forall in H.
  specialize (H s (proj1 (list_elem_of_In _ _) Hs)).
  rewrite forallb_forall in H.
  exact (H c (proj1 (list_elem_of_In _ _) Hc)).
Qed.

(** A topic returned by the loop was unused in the ledger, which the
    loop leaves as it is together with the rest of the state. *)
Lemma attempt_loop_ok (n : nat) (e e' : Env) (t : Topic) :
  attempt_loop w n e = (Ok t, e') ->
  is_topic_used_in (db e) (t_mbti t) (t_love_situation t) (t_card_name t) = false
  /\ db e' = db e /\ self e' = self e /\ llm_calls e' = llm_calls e
  /\ term_calls e' = term_calls e /\ wp_requests e' = wp_requests e.
Proof.
  revert e. induction n as [|n IH]; intros e H; [done|].
  simpl in H. unfold bind in H.
  destruct (draw_topic_ok e) as (t0 & Hd & _). rewrite Hd in H.
  unfold is_topic_used in H. cbn [db tick_rng tick_queries] in H.
  destruct (is_topic_used_in (db e) (t_mbti t0) (t_love_situation t0) (t_card_name t0)) eqn:Hu;
    cbn [negb] in H.
  - apply IH in H. exact H.
  - inversion H; subst. done.
Qed.

(** With the whole topic space used the loop makes all its probes and
    raises. *)
Lemma attempt_loop_exhausted (n : nat) (e : Env) :
  all_used (db e) = true ->
  exists e',
    attempt_loop w n e = (Raise (RuntimeError exhausted_msg), e')
    /\ queries e' = queries e + n /\ rng_pos e' = rng_pos e + 4 * n
    /\ db e' = db e /\ self e' = self e /\ llm_calls e' = llm_calls e
    /\ term_calls e' = term_calls e /\ wp_requests e' = wp_requests e.
Proof.
  revert e. induction n as [|n IH]; intros e Hall.
  - exists e. simpl. unfold raise. repeat split; lia.
  - simpl. unfold bind.
    destruct (draw_topic_ok e) as (t0 & Hd & Hm & Hs & Hc). rewrite Hd.
    unfold is_topic_used. cbn [db tick_rng tick_queries].
    rewrite (all_used_spec _ _ _ _ Hall Hm Hs Hc). cbn [negb].
    match goal with |- context [attempt_loop w n ?e1] =>
      destruct (IH e1 Hall) as (e' & -> & Hq & Hr & Hdb & Hrest) end.
    exists e'. split; [done|]. cbn in Hq, Hr, Hdb, Hrest.
    repeat split; try tauto; lia.
Qed.

End AllocatorFacts.

(** C4. When every combination of the topic space is recorded in the
    ledger, [generate_unique_topic] makes its 100 probes, every one a
    collision, and raises the exhaustion error; it returns no topic and
    leaves the ledger as it is. *)
Theorem generate_unique_topic_exhausted (w : World) (e : Env) :
  all_used (db e) = true ->
  exists e',
    generate_unique_topic w e = (Raise (RuntimeError exhausted_msg), e')
    /\ queries e' = queries e + 100
    /\ db e' = db e.
Proof.
  intros Hall. unfold generate_unique_topic, max_attempts.
  destruct (attempt_loop_exhausted w 100 e Hall) as (e' & H & Hq & _ & Hdb & _).
  exists e'. done.
Qed.

Lemma full_ledger_all_used : all_used full_ledger = true.
Proof.
  unfold all_used. rewrite forallb_forall. intros m Hm.
  rewrite forallb_forall. intros s Hs.
  rewrite forallb_forall. intros c Hc.
  apply list_elem_of_In in Hm, Hs, Hc.
  apply is_topic_used_in_key, list_elem_of_fmap.
  exists (mkRow m s c [] None None (u "draft") None). split; [done|].
  unfold full_ledger.
  apply list_elem_of_bind. exists m. split; [|done].
  apply list_elem_of_bind. exists s. split; [|done].
  apply list_elem_of_bind. exists c. split; [|done].
  by left.
Qed.

Lemma generate_unique_topic_exhausted_witness :
  all_used full_ledger = true
  /\ exists e',
       generate_unique_topic sample_world (initial_env default_publisher full_ledger)
       = (Raise (RuntimeError exhausted_msg), e')
       /\ queries e' = 100
       /\ db e' = full_ledger.
Proof.
  split; [exact full_ledger_all_used|].
  exact (generate_unique_topic_exhausted sample_world
           (initial_env default_publisher full_ledger) full_ledger_all_used).
Defined.

Section CycleFacts.

Variable w : World.

Lemma generate_unique_topic_fresh (e e' : Env) (t : Topic) :
  generate_unique_topic w e = (Ok t, e') ->
  (topic_key t ∉ (row_key <$> db e)) /\ db e' = db e.
Proof.
  intros H. apply attempt_loop_ok in H as (Hu & Hdb & _).
  split; [|done]. by apply is_topic_used_in_not_key.
Qed.

Lemma allocate_and_record_ok outcome (e e' : Env) (t : Topic) :
  allocate_and_record w outcome e = (Ok t, e') ->
  (topic_key t ∉ (row_key <$> db e))
  /\ exists r, db e' = db e ++ [r] /\ row_key r = topic_key t.
Proof.
  unfold allocate_and_record, bind.
  destruct (generate_unique_topic w e) as [[t0|x] e0] eqn:Hg; [|done].
  destruct (outcome t0) as [[[[ti pid] url] st] err].
  unfold save_published_topic, ret. intros H. inversion H; subst.
  apply generate_unique_topic_fresh in Hg as [Hfresh Hdb].
  split; [done|]. eexists. cbn. rewrite Hdb. split; reflexivity.
Qed.

Lemma cycles_ok (n : nat) :
  forall outcome (e e' : Env) (ts : list Topic),
    cycles w outcome n e = (Ok ts, e') ->
    length ts = n
    /\ (exists rows, db e' = db e ++ rows /\ row_key <$> rows = topic_key <$> ts)
    /\ NoDup (topic_key <$> ts)
    /\ (forall t, t ∈ ts -> topic_key t ∉ (row_key <$> db e)).
Proof.
  induction n as [|n IH]; intros outcome e e' ts H.
  - inversion H; subst. split; [done|]. split; [exists []; by rewrite app_nil_r|].
    split; [constructor|]. intros t Ht. by apply elem_of_nil in Ht.
  - simpl in H. unfold bind at 1 in H.
    destruct (allocate_and_record w (outcome 0) e) as [[t|x] e1] eqn:Ha; [|done].
    unfold bind in H.
    destruct (cycles w (fun i => outcome (S i)) n e1) as [[ts'|x] e2] eqn:Hc; [|done].
    inversion H; subst. clear H.
    apply allocate_and_record_ok in Ha as (Hfresh & r & Hdb & Hr).
    apply IH in Hc as (Hlen & (rows & Hdb' & Hrows) & Hnd & Hold).
    split; [simpl; by rewrite Hlen|].
    split.
    { exists (r :: rows). rewrite Hdb', Hdb, <- app_assoc. split; [done|].
      by rewrite !fmap_cons, Hr, Hrows. }
    assert (Hsplit : forall t', t' ∈ ts' ->
              topic_key t' <> topic_key t /\ topic_key t' ∉ (row_key <$> db e)).
    { intros t' Ht'. specialize (Hold t' Ht').
      rewrite Hdb, fmap_app, elem_of_app in Hold.
      change (row_key <$> [r]) with [row_key r] in Hold.
      rewrite Hr in Hold. split.
      - intros Heq. apply Hold. right. rewrite Heq. by left.
      - intros Hin. apply Hold. by left. }
    split.
    + rewrite fmap_cons. constructor; [|done].
      intros Hin. apply list_elem_of_fmap in Hin as (t' & Heq & Ht').
      by destruct (Hsplit t' Ht') as [Hne _].
    + intros t' Ht'. apply elem_of_cons in Ht' as [->|Ht']; [done|].
      by apply Hsplit.
Qed.

End CycleFacts.

(** C1. [generate_unique_topic] never returns a topic whose key
    [(mbti, love_situation, card_name)] is in the ledger, whatever its
    card type; and after [n] successful allocate-and-record cycles
    against one ledger the [n] keys recorded are pairwise distinct, and
    distinct from the keys the ledger held before. *)
Theorem allocation_unique (w : World) (e : Env) :
  (forall t e1,
     generate_unique_topic w e = (Ok t, e1) ->
     topic_key t ∉ (row_key <$> db e))
  /\ (forall outcome n ts e',
        cycles w outcome n e = (Ok ts, e') ->
        exists rows,
          db e' = db e ++ rows
          /\ length rows = n
          /\ row_key <$> rows = topic_key <$> ts
          /\ NoDup (row_key <$> rows)
          /\ (forall k, k ∈ row_key <$> rows -> k ∉ (row_key <$> db e))).
Proof.
  split.
  - intros t e1 H. by apply generate_unique_topic_fresh in H as [? _].
  - intros outcome n ts e' H.
    apply cycles_ok in H as (Hlen & (rows & Hdb & Hrows) & Hnd & Hold).
    exists rows. split; [done|].
    split; [by rewrite <- (length_fmap row_key), Hrows, length_fmap|].
    split; [done|]. rewrite Hrows. split; [done|].
    intros k Hk. apply list_elem_of_fmap in Hk as (t & -> & Ht). by apply Hold.
Qed.

Lemma allocation_unique_witness :
  exists ts e',
    cycles sample_world sample_outcome 3 (initial_env default_publisher [])
    = (Ok ts, e')
    /\ exists rows,
         db e' = rows /\ length rows = 3 /\ NoDup (row_key <$> rows).
Proof.
  eexists. eexists. split; [vm_compute; reflexivity|].
  destruct (proj2 (allocation_unique sample_world
                     (initial_env default_publisher []))
                  sample_outcome 3 _ _ ltac:(vm_compute; reflexivity))
    as (rows & Hdb & Hlen & _ & Hnd & _).
  exists rows. split; [exact Hdb|]. split; [exact Hlen | exact Hnd].
Defined.

(** ** Publishing with retries and fallback *)

Section PublishFacts.

Variable w : World.
Variables title content : str.
Variables categories tags : list Z.
Variable hours : option Z.

Lemma pd_status_post_data_of (st : str) :
  pd_status (post_data_of title content st categories tags hours) = st.
Proof. done. Qed.

Lemma frame_refl (e : Env) : frame e e.
Proof. done. Qed.

Lemma frame_trans (e1 e2 e3 : Env) : frame e1 e2 -> frame e2 e3 -> frame e1 e3.
Proof. unfold frame. intros (-> & -> & ->) (-> & -> & ->). done. Qed.

Lemma frame_sent (e1 e2 e3 : Env) (new : list PostData) :
  frame e1 e2 -> sent e2 e3 new -> sent e1 e3 new.
Proof. unfold frame, sent. intros (<- & <- & <-) (-> & -> & ->). done. Qed.

Lemma sent_frame (e1 e2 e3 : Env) (new : list PostData) :
  sent e1 e2 new -> frame e2 e3 -> sent e1 e3 new.
Proof. unfold frame, sent. intros (<- & <- & <-) (-> & -> & ->). done. Qed.

Lemma sent_app (e1 e2 e3 : Env) (new1 new2 : list PostData) :
  sent e1 e2 new1 -> sent e2 e3 new2 -> sent e1 e3 (new1 ++ new2).
Proof.
  unfold sent. intros (<- & <- & H1) (-> & -> & ->).
  rewrite H1, app_assoc. done.
Qed.

(** One call of [publish_post] at status [st]: between one and three
    requests, all the same; it returns what the CMS answered to the last
    of them and raises only after three refusals. *)
Lemma retry_loop_publish (st : str) (extra : nat) (e : Env) :
  let d := post_data_of title content st categories tags hours in
  exists k r e',
    retry_loop extra
      (publish_post_attempt w title content st categories tags hours) e = (r, e')
    /\ 1 <= k <= S extra
    /\ sent e e' (replicate k d)
    /\ match r with
       | Ok res =>
           exists p, wp_post w (length (wp_requests e) + k - 1) d = inl p
                     /\ res = Published (wp_id p) (wp_link p) (wp_status p)
                                        (wp_title_rendered p) false
       | Raise x =>
           k = S extra
           /\ exists msg, wp_post w (length (wp_requests e) + extra) d = inr msg
                          /\ x = RequestException msg
       end.
Proof.
  intros d. revert e. induction extra as [|extra IH]; intros e.
  - exists 1. cbn [retry_loop]. unfold publish_post_attempt. fold d.
    destruct (wp_post w (length (wp_requests e)) d) as [p|msg] eqn:Hp;
      eexists; eexists; (split; [reflexivity|]); (split; [lia|]);
      (split; [done|]).
    + exists p. rewrite Nat.add_sub. done.
    + split; [done|]. exists msg. by rewrite Nat.add_0_r.
  - cbn [retry_loop]. unfold catch. unfold publish_post_attempt at 1. fold d.
    destruct (wp_post w (length (wp_requests e)) d) as [p|msg] eqn:Hp.
    + exists 1. eexists; eexists; (split; [reflexivity|]); (split; [lia|]);
        (split; [done|]).
      exists p. rewrite Nat.add_sub. done.
    + destruct (IH (push_request d e)) as (k & r & e' & Hrun & Hk & Hs & Hr).
      exists (S k), r, e'. split; [exact Hrun|]. split; [lia|]. split.
      { destruct Hs as (Hself & Hdb & Hreq). unfold sent.
        cbn in Hself, Hdb, Hreq. rewrite Hreq, <- app_assoc. done. }
      cbn [wp_requests push_request] in Hr. rewrite length_app in Hr. cbn in Hr.
      destruct r as [res|x].
      * destruct Hr as (p & Hp' & ->). exists p. split; [|done].
        rewrite <- Hp'. f_equal. lia.
      * destruct Hr as (-> & msg' & Hm & ->). split; [done|].
        exists msg'. split; [|done]. rewrite <- Hm. f_equal. lia.
Qed.

Lemma publish_post_spec (st : str) (e : Env) :
  let d := post_data_of title content st categories tags hours in
  exists k r e',
    publish_post w title content st categories tags hours e = (r, e')
    /\ 1 <= k <= 3
    /\ sent e e' (replicate k d)
    /\ match r with
       | Ok res =>
           exists p, wp_post w (length (wp_requests e) + k - 1) d = inl p
                     /\ res = Published (wp_id p) (wp_link p) (wp_status p)
                                        (wp_title_rendered p) false
       | Raise x =>
           k = 3
           /\ exists msg, wp_post w (length (wp_requests e) + 2) d = inr msg
                          /\ x = RequestException msg
       end.
Proof. apply (retry_loop_publish st 2 e). Qed.

Lemma publish_with_fallback_unfold (preferred : str) (e : Env) :
  publish_with_fallback w title content preferred categories tags hours e
  = match publish_post w title content preferred categories tags hours e with
    | (Ok res, e1) => (Ok res, e1)
    | (Raise _, e1) =>
        let '(r, e2) :=
          publish_post w title content (u "draft") categories tags hours e1 in
        (Ok (fallback_result title r), e2)
    end.
Proof.
  unfold publish_with_fallback, catch, bind, ret.
  destruct (publish_post w title content preferred categories tags hours e)
    as [[res|x] e1]; [done|].
  destruct (publish_post w title content (u "draft") categories tags hours e1)
    as [[res|y] e2]; done.
Qed.

(** [publish_with_fallback] always returns a result; every request it
    sends carries the preferred status or [draft]; the result is what
    the CMS answered. *)
Lemma publish_with_fallback_spec (preferred : str) (e : Env) :
  exists res e' new,
    publish_with_fallback w title content preferred categories tags hours e
    = (Ok res, e')
    /\ sent e e' new
    /\ new <> []
    /\ Forall (fun d => pd_status d = preferred \/ pd_status d = u "draft") new
    /\ answers w new res.
Proof.
  rewrite publish_with_fallback_unfold.
  destruct (publish_post_spec preferred e) as (k & r & e1 & -> & Hk & Hs & Hr).
  set (d := post_data_of title content preferred categories tags hours) in *.
  assert (Hd : d ∈ replicate k d).
  { destruct k; [lia|]. by left. }
  assert (Hall : Forall (fun d0 => pd_status d0 = preferred \/ pd_status d0 = u "draft")
                        (replicate k d)).
  { apply Forall_replicate. by left. }
  destruct r as [res|x].
  - destruct Hr as (p & Hp & ->).
    exists (Published (wp_id p) (wp_link p) (wp_status p) (wp_title_rendered p) false),
           e1, (replicate k d).
    split; [done|]. split; [done|].
    split; [destruct k; [lia | done]|]. split; [done|].
    cbn. eauto 10.
  - destruct (publish_post_spec (u "draft") e1) as (k2 & r2 & e2 & -> & Hk2 & Hs2 & Hr2).
    set (d2 := post_data_of title content (u "draft") categories tags hours) in *.
    assert (Hd2 : d2 ∈ replicate k2 d2).
    { destruct k2; [lia|]. by left. }
    exists (fallback_result title r2), e2, (replicate k d ++ replicate k2 d2).
    split; [done|]. split; [by eapply sent_app|].
    split; [destruct k; [lia | done]|].
    split.
    { apply Forall_app. split; [done|]. apply Forall_replicate. by right. }
    destruct r2 as [res2|y]; cbn.
    + destruct Hr2 as (p & Hp & ->). cbn.
      exists (length (wp_requests e1) + k2 - 1), d2, p.
      split; [apply elem_of_app; by right | done].
    + destruct Hr2 as (_ & msg & Hm & ->). cbn.
      exists (length (wp_requests e1) + 2), d2, msg.
      split; [apply elem_of_app; by right | done].
Qed.

End PublishFacts.

(** C7. When the call of [publish_post] at the preferred status has
    failed (it raises only after its three attempts were refused),
    [publish_with_fallback] makes exactly one further call of
    [publish_post], at status [draft] (itself one to three requests).  If
    that call succeeds the result is the post created as draft, with
    [success] true and [fallback_used] set; if it fails too the result is
    the dictionary with [success] false and the text of the error.  In
    both cases a result is returned and nothing is raised. *)
Theorem publish_with_fallback_draft (w : World) (title content preferred : str)
    (categories tags : list Z) (hours : option Z) (e e1 : Env) (x : Exn) :
  publish_post w title content preferred categories tags hours e = (Raise x, e1) ->
  let d_pref := post_data_of title content preferred categories tags hours in
  let d_draft := post_data_of title content (u "draft") categories tags hours in
  exists k r e2,
    publish_post w title content (u "draft") categories tags hours e1 = (r, e2)
    /\ publish_with_fallback w title content preferred categories tags hours e
       = (Ok (fallback_result title r), e2)
    /\ 1 <= k <= 3
    /\ wp_requests e2
       = wp_requests e ++ replicate 3 d_pref ++ replicate k d_draft
    /\ db e2 = db e
    /\ match r with
       | Ok res =>
           success (fallback_result title r) = true
           /\ exists n p,
                wp_post w n d_draft = inl p
                /\ fallback_result title r
                   = Published (wp_id p) (wp_link p) (wp_status p)
                               (wp_title_rendered p) true
       | Raise y =>
           success (fallback_result title r) = false
           /\ fallback_result title r = NotPublished (exn_str y) title
       end.
Proof.
  intros Hfail d_pref d_draft.
  destruct (publish_post_spec w title content categories tags hours preferred e)
    as (k1 & r1 & e1' & Hrun1 & Hk1 & Hs1 & Hr1).
  rewrite Hfail in Hrun1. inversion Hrun1; subst r1 e1'. clear Hrun1.
  destruct Hr1 as (-> & _).
  destruct (publish_post_spec w title content categories tags hours (u "draft") e1)
    as (k & r & e2 & Hrun2 & Hk & Hs2 & Hr2).
  exists k, r, e2. split; [exact Hrun2|].
  split.
  { by rewrite publish_with_fallback_unfold, Hfail, Hrun2. }
  split; [exact Hk|].
  destruct Hs1 as (_ & Hdb1 & Hreq1). destruct Hs2 as (_ & Hdb2 & Hreq2).
  split; [by rewrite Hreq2, Hreq1, <- app_assoc|].
  split; [by rewrite Hdb2|].
  destruct r as [res|y].
  - destruct Hr2 as (p & Hp & ->). cbn. split; [done|]. eauto.
  - cbn. done.
Qed.

Lemma publish_with_fallback_draft_witness :
  exists e2,
    publish_with_fallback flaky_world (u "Title") (u "Body") (u "publish")
      [] [] None (initial_env default_publisher [])
    = (Ok (Published 3 (u "https://blog.example/p") (u "draft") (u "Title") true), e2)
    /\ pd_status <$> wp_requests e2
       = [u "publish"; u "publish"; u "publish"; u "draft"].
Proof.
  destruct (publish_with_fallback_draft flaky_world (u "Title") (u "Body")
              (u "publish") [] [] None (initial_env default_publisher []) _ _
              ltac:(vm_compute; reflexivity))
    as (k & r & e2 & Hrun & Hpub & _ & _ & _ & _).
  vm_compute in Hrun. inversion Hrun; subst r e2. clear Hrun.
  eexists. split; [exact Hpub|]. vm_compute. reflexivity.
Defined.

(** Read as one request, "exactly one fallback attempt" fails: when the
    CMS refuses the first five requests, the fallback call sends three
    requests at status [draft], the third of which is accepted. *)
Lemma publish_with_fallback_three_drafts :
  exists res e2,
    publish_with_fallback refusing_world (u "Title") (u "Body") (u "publish")
      [] [] None (initial_env default_publisher [])
    = (Ok res, e2)
    /\ success res = true
    /\ pd_status <$> wp_requests e2
       = [u "publish"; u "publish"; u "publish";
          u "draft"; u "draft"; u "draft"].
Proof.
  do 2 eexists. split; [vm_compute; reflexivity|].
  split; vm_compute; reflexivity.
Qed.

(** ** The stages of a run *)

Section RunFacts.

Variable w : World.

Lemma attempt_loop_frame (n : nat) (e e' : Env) (r : result Topic) :
  attempt_loop w n e = (r, e') -> frame e e'.
Proof.
  revert e. induction n as [|n IH]; intros e H.
  - inversion H. done.
  - simpl in H. unfold bind in H.
    destruct (draw_topic_ok w e) as (t0 & Hd & _). rewrite Hd in H.
    unfold is_topic_used in H.
    destruct (negb _) in H.
    + inversion H. done.
    + apply IH in H. exact H.
Qed.

Lemma get_stats_of_ok (rows : list Row) :
  exists st, get_stats_of rows = Ok st /\ total_published st = length rows.
Proof.
  unfold get_stats_of. destruct (0 <? length rows) eqn:Hlen.
  - unfold truediv. destruct (Z.eqb_spec (Z.of_nat (length rows)) 0) as [H0|_].
    + apply Nat.ltb_lt in Hlen. lia.
    + eexists. split; reflexivity.
  - eexists. split; reflexivity.
Qed.

Lemma calculate_remaining_combinations_ok (e : Env) :
  exists z, calculate_remaining_combinations e = (Ok z, e).
Proof.
  unfold calculate_remaining_combinations, bind, get_stats, lift.
  destruct (get_stats_of_ok (db e)) as (st & -> & _).
  unfold truediv.
  destruct (Z.eqb_spec
              (Z.of_nat (length MBTI_TYPES * length LOVE_SITUATIONS
                         * length TAROT_MAJOR_ARCANA)) 0) as [H0|_].
  - vm_compute in H0. discriminate.
  - eexists. reflexivity.
Qed.

Lemma generate_content_frame (topic : Topic) (e e' : Env) r :
  generate_content w topic e = (r, e') -> frame e e'.
Proof.
  unfold generate_content, retry_wrap, catch. cbn [Nat.sub retry_loop].
  unfold catch, generate_content_attempt, raise.
  repeat match goal with
         | |- context [llm w ?n topic] => destruct (llm w n topic)
         end;
    intros H; inversion H; done.
Qed.

Lemma get_or_create_term_run (name : str) (e : Env) :
  exists r, get_or_create_term w name e = (r, tick_term e).
Proof.
  unfold get_or_create_term. destruct (wp_term w (term_calls e) name); eauto.
Qed.

Lemma get_categories_ok (topic : Topic) (e : Env) :
  exists l e', get_categories w topic e = (Ok l, e') /\ frame e e'.
Proof.
  unfold get_categories, catch, bind, ret, get_or_create_category.
  repeat match goal with
         | |- context [get_or_create_term w ?n ?e0] =>
             destruct (get_or_create_term_run n e0) as ([?|?] & ->)
         end;
    (eexists; eexists; split; [reflexivity | repeat split]).
Qed.

Lemma get_tags_ok (topic : Topic) (e : Env) :
  exists l e', get_tags w topic e = (Ok l, e') /\ frame e e'.
Proof.
  unfold get_tags, catch, bind, ret, get_or_create_tag.
  repeat match goal with
         | |- context [get_or_create_term w ?n ?e0] =>
             destruct (get_or_create_term_run n e0) as ([?|?] & ->)
         end;
    (eexists; eexists; split; [reflexivity | repeat split]).
Qed.

(** Step 3 returns the content to publish and downgrades the status
    exactly when the content is still invalid. *)
Lemma validate_step_spec (title content : str) (e : Env) :
  exists c e',
    validate_step title content e = (Ok c, e')
    /\ db e' = db e /\ wp_requests e' = wp_requests e
    /\ auto_sanitize (self e') = auto_sanitize (self e)
    /\ schedule_hours (self e') = schedule_hours (self e)
    /\ publish_status (self e')
       = (if still_invalid (auto_sanitize (self e)) title content
          then u "draft" else publish_status (self e)).
Proof.
  unfold validate_step, still_invalid, bind, ret, get_self, set_publish_status.
  destruct (validate title content) as [v issues]. cbn [fst].
  destruct v; cbn [negb andb]; [eauto 10|].
  destruct (auto_sanitize (self e)) eqn:Hauto.
  - destruct (fst (validate title (sanitize_content content))); cbn [negb];
      eexists; eexists; (split; [reflexivity|]); cbn; rewrite ?Hauto; done.
  - cbn [negb]. eexists; eexists; (split; [reflexivity|]); cbn; rewrite ?Hauto; done.
Qed.

(** Steps 4 and 5 always produce a result; the requests sent carry the
    status of the publisher or [draft]. *)
Lemma publish_step_spec (topic : Topic) (title content : str) (e : Env) :
  exists res e' new,
    publish_step w topic title content e = (Ok res, e')
    /\ sent e e' new
    /\ new <> []
    /\ Forall (fun d => pd_status d = publish_status (self e)
                        \/ pd_status d = u "draft") new
    /\ answers w new res.
Proof.
  unfold publish_step, bind, get_self.
  destruct (get_categories_ok topic e) as (cats & e1 & -> & Hf1).
  destruct (get_tags_ok topic e1) as (tags & e2 & -> & Hf2).
  pose proof (frame_trans _ _ _ Hf1 Hf2) as Hf.
  match goal with
  | |- context [publish_with_fallback w title content ?st cats tags ?h e2] =>
      destruct (publish_with_fallback_spec w title content cats tags h st e2)
        as (res & e' & new & -> & Hs & Hne & Hall & Hans)
  end.
  exists res, e', new. split; [done|]. split; [by eapply frame_sent|].
  split; [done|]. split; [|done].
  destruct Hf as (<- & _). exact Hall.
Qed.

(** Step 6 appends exactly one row and returns the success flag. *)
Lemma record_step_spec (topic : Topic) (title : str) (res : PublishResult) (e : Env) :
  exists row,
    record_step topic title res e
    = (Ok (success res), set_db (fun rows => rows ++ [row]) e)
    /\ row_key row = topic_key topic
    /\ Sys.title row = title
    /\ match res with
       | Published i l s _ _ =>
           post_id row = Some i /\ post_url row = Some l /\ status row = s
           /\ error_message row = None
       | NotPublished err _ =>
           post_id row = None /\ post_url row = None
           /\ status row = u "failed" /\ error_message row = Some err
       end.
Proof.
  destruct res; eexists; (split; [reflexivity|]); done.
Qed.

(** A run, stage by stage. *)
Lemma run_unfold (e : Env) :
  run w e
  = match generate_unique_topic w e with
    | (Raise _, e1) => (Ok false, e1)
    | (Ok topic, e1) =>
        match generate_content w topic e1 with
        | (Raise _, e2) => (Ok false, e2)
        | (Ok (title, content), e2) =>
            match validate_step title content e2 with
            | (Raise _, e3) => (Ok false, e3)
            | (Ok c, e3) =>
                match publish_step w topic title c e3 with
                | (Raise _, e4) => (Ok false, e4)
                | (Ok res, e4) => record_step topic title res e4
                end
            end
        end
    end.
Proof.
  unfold run, catch, bind, ret.
  destruct (generate_unique_topic w e) as [[topic|x] e1]; [|done].
  destruct (calculate_remaining_combinations_ok e1) as (z & ->).
  destruct (generate_content w topic e1) as [[[title content]|x] e2]; [|done].
  cbn [fst snd].
  destruct (validate_step title content e2) as [[c|x] e3]; [|done].
  destruct (publish_step w topic title c e3) as [[res|x] e4]; [|done].
  destruct (record_step_spec topic title res e4) as (row & -> & _). done.
Qed.

End RunFacts.

Section RunSpec.

Variable w : World.

(** Everything a run does to the publisher object, the ledger and the
    CMS. *)
Lemma run_spec (e : Env) :
  exists b e' new,
    run w e = (Ok b, e')
    /\ wp_requests e' = wp_requests e ++ new
    /\ Forall (fun d => pd_status d = publish_status (self e')
                        \/ pd_status d = u "draft") new
    /\ match generate_unique_topic w e with
       | (Raise _, _) => b = false /\ db e' = db e /\ new = [] /\ self e' = self e
       | (Ok topic, e1) =>
           match generate_content w topic e1 with
           | (Raise _, _) =>
               b = false /\ db e' = db e /\ new = [] /\ self e' = self e
           | (Ok (title, content), _) =>
               publish_status (self e')
               = (if still_invalid (auto_sanitize (self e)) title content
                  then u "draft" else publish_status (self e))
               /\ new <> []
               /\ exists row res,
                    db e' = db e ++ [row]
                    /\ row_key row = topic_key topic
                    /\ Sys.title row = title
                    /\ b = success res
                    /\ answers w new res
                    /\ match res with
                       | Published i l s _ _ =>
                           post_id row = Some i /\ post_url row = Some l
                           /\ status row = s /\ error_message row = None
                       | NotPublished err _ =>
                           post_id row = None /\ post_url row = None
                           /\ status row = u "failed"
                           /\ error_message row = Some err
                       end
           end
       end.
Proof.
  rewrite run_unfold.
  destruct (generate_unique_topic w e) as [[topic|x] e1] eqn:Hg.
  2: { apply attempt_loop_frame in Hg as (Hself & Hdb & Hreq).
       exists false, e1, []. rewrite app_nil_r. done. }
  apply attempt_loop_frame in Hg as (Hself1 & Hdb1 & Hreq1).
  destruct (generate_content w topic e1) as [[[title content]|x] e2] eqn:Hc.
  2: { apply generate_content_frame in Hc as (Hself & Hdb & Hreq).
       exists false, e2, []. rewrite app_nil_r.
       rewrite Hself, Hdb, Hreq, Hself1, Hdb1, Hreq1. done. }
  apply generate_content_frame in Hc as (Hself2 & Hdb2 & Hreq2).
  destruct (validate_step_spec title content e2)
    as (c & e3 & -> & Hdb3 & Hreq3 & Hauto3 & Hhours3 & Hst3).
  destruct (publish_step_spec w topic title c e3)
    as (res & e4 & new & -> & (Hself4 & Hdb4 & Hreq4) & Hne & Hall & Hans).
  destruct (record_step_spec topic title res e4) as (row & -> & Hkey & Htitle & Hrow).
  exists (success res), (set_db (fun rows => rows ++ [row]) e4), new.
  split; [done|]. cbn [wp_requests set_db self db].
  split; [by rewrite Hreq4, Hreq3, Hreq2, Hreq1|].
  split; [by rewrite Hself4|].
  split; [by rewrite Hself4, Hst3, Hself2, Hself1|].
  split; [done|].
  exists row, res. rewrite Hdb4, Hdb3, Hdb2, Hdb1. done.
Qed.

(** Once the status is [draft] a run leaves it so and sends nothing but
    draft requests. *)
Lemma run_keeps_draft (e : Env) :
  publish_status (self e) = u "draft" ->
  publish_status (self (snd (run w e))) = u "draft"
  /\ exists new,
       wp_requests (snd (run w e)) = wp_requests e ++ new
       /\ Forall (fun d => pd_status d = u "draft") new.
Proof.
  intros Hd. destruct (run_spec e) as (b & e' & new & -> & Hreq & Hall & Hcase).
  cbn [snd].
  assert (Hst : publish_status (self e') = u "draft").
  { destruct (generate_unique_topic w e) as [[topic|x] e1].
    - destruct (generate_content w topic e1) as [[[title content]|y] e2].
      + destruct Hcase as (-> & _). by destruct (still_invalid _ _ _).
      + destruct Hcase as (_ & _ & _ & ->). done.
    - destruct Hcase as (_ & _ & _ & ->). done. }
  split; [done|]. exists new. split; [done|].
  eapply Forall_impl; [exact Hall|]. intros d [H|H]; congruence.
Qed.

Lemma runs_keep_draft (n : nat) (e : Env) :
  publish_status (self e) = u "draft" ->
  publish_status (self (runs w n e)) = u "draft"
  /\ exists new,
       wp_requests (runs w n e) = wp_requests e ++ new
       /\ Forall (fun d => pd_status d = u "draft") new.
Proof.
  revert e. induction n as [|n IH]; intros e Hd.
  - split; [done|]. exists []. by rewrite app_nil_r.
  - cbn [runs]. destruct (run_keeps_draft e Hd) as (Hd1 & new1 & Hreq1 & Hall1).
    destruct (IH _ Hd1) as (Hdn & new & Hreq & Hall).
    split; [done|]. exists (new1 ++ new).
    rewrite Hreq, Hreq1, <- app_assoc. split; [done|].
    by apply Forall_app.
Qed.

End RunSpec.

(** C3. A run whose content generation succeeds appends exactly one row
    to the ledger, for the allocated topic: with the post id, link and
    status the CMS answered when the publication succeeded, with status
    [failed] and the text of the error when it failed.  A run that stops
    at the allocation or at the generation leaves the ledger as it
    was. *)
Theorem run_records_once (w : World) (e : Env) :
  match generate_unique_topic w e with
  | (Raise _, _) => exists e', run w e = (Ok false, e') /\ db e' = db e
  | (Ok topic, e1) =>
      match generate_content w topic e1 with
      | (Raise _, _) => exists e', run w e = (Ok false, e') /\ db e' = db e
      | (Ok (title, content), _) =>
          exists b e' row,
            run w e = (Ok b, e')
            /\ db e' = db e ++ [row]
            /\ row_key row = topic_key topic
            /\ Sys.title row = title
            /\ if b
               then exists n d p,
                      wp_post w n d = inl p
                      /\ post_id row = Some (wp_id p)
                      /\ post_url row = Some (wp_link p)
                      /\ status row = wp_status p
                      /\ error_message row = None
               else exists n d msg,
                      wp_post w n d = inr msg
                      /\ post_id row = None
                      /\ status row = u "failed"
                      /\ error_message row = Some msg
      end
  end.
Proof.
  destruct (run_spec w e) as (b & e' & new & Hrun & _ & _ & Hcase).
  destruct (generate_unique_topic w e) as [[topic|x] e1].
  2: { destruct Hcase as (-> & Hdb & _). by exists e'. }
  destruct (generate_content w topic e1) as [[[title content]|x] e2].
  2: { destruct Hcase as (-> & Hdb & _). by exists e'. }
  destruct Hcase as (_ & _ & row & res & Hdb & Hkey & Htitle & -> & Hans & Hrow).
  exists (success res), e', row. repeat (split; [done|]).
  destruct res as [i l s t f|err t]; cbn [success answers] in *.
  - destruct Hans as (n & d & p & _ & Hp & -> & -> & ->). exists n, d, p. tauto.
  - destruct Hans as (n & d & msg & _ & Hp & ->). exists n, d, msg. tauto.
Qed.

(** A run whose content is still invalid: one row, draft requests only,
    status [draft] afterwards. *)
Lemma run_still_invalid (w : World) (e e1 e2 : Env)
    (topic : Topic) (title content : str) :
  generate_unique_topic w e = (Ok topic, e1) ->
  generate_content w topic e1 = (Ok (title, content), e2) ->
  still_invalid (auto_sanitize (self e)) title content = true ->
  exists b e' row new,
    run w e = (Ok b, e')
    /\ db e' = db e ++ [row]
    /\ row_key row = topic_key topic
    /\ wp_requests e' = wp_requests e ++ new
    /\ new <> []
    /\ Forall (fun d => pd_status d = u "draft") new
    /\ publish_status (self e') = u "draft"
    /\ (echoes_status w ->
        (status row = u "draft" \/ status row = u "failed")
        /\ status row <> u "publish")
    /\ (status row = u "failed"
        \/ exists n d p, d ∈ new /\ wp_post w n d = inl p
                         /\ status row = wp_status p).
Proof.
  intros Hg Hc Hinv.
  destruct (run_spec w e) as (b & e' & new & Hrun & Hreq & Hall & Hcase).
  rewrite Hg, Hc, Hinv in Hcase.
  destruct Hcase as (Hst & Hne & row & res & Hdb & Hkey & _ & _ & Hans & Hrow).
  assert (Hdraft : Forall (fun d => pd_status d = u "draft") new).
  { eapply Forall_impl; [exact Hall|]. intros d [H|H]; congruence. }
  assert (Hgen : status row = u "failed"
                 \/ exists n d p, d ∈ new /\ wp_post w n d = inl p
                                  /\ status row = wp_status p).
  { destruct res as [i l s t f|err t]; cbn [answers] in Hans.
    - destruct Hans as (n & d & p & Hd & Hp & _ & _ & ->).
      destruct Hrow as (_ & _ & -> & _). right. by exists n, d, p.
    - left. tauto. }
  exists b, e', row, new. repeat (split; [done|]).
  split; [|exact Hgen]. intros Hecho.
  assert (Hcases : status row = u "draft" \/ status row = u "failed").
  { destruct Hgen as [->|(n & d & p & Hd & Hp & ->)]; [by right | left].
    rewrite (Hecho _ _ _ Hp).
    rewrite Forall_forall in Hdraft. by apply Hdraft. }
  split; [done|]. destruct Hcases as [-> | ->]; discriminate.
Qed.

(** C2. When the content is still invalid after the single
    sanitize-and-revalidate pass, the run goes on to the publication and
    to the ledger entry; every request it sends to the CMS has status
    [draft], so nothing is sent at the status first asked for, and the
    publisher's status is [draft] afterwards.  The row recorded has the
    status the CMS reports for the accepted draft request, or [failed]:
    with a CMS that answers with the status it was asked for, it is
    [draft] or [failed], never [publish]. *)
Theorem invalid_content_goes_out_as_draft (w : World) (e e1 e2 : Env)
    (topic : Topic) (title content : str) :
  generate_unique_topic w e = (Ok topic, e1) ->
  generate_content w topic e1 = (Ok (title, content), e2) ->
  still_invalid (auto_sanitize (self e)) title content = true ->
  exists b e' row new,
    run w e = (Ok b, e')
    /\ db e' = db e ++ [row]
    /\ row_key row = topic_key topic
    /\ wp_requests e' = wp_requests e ++ new
    /\ new <> []
    /\ Forall (fun d => pd_status d = u "draft") new
    /\ publish_status (self e') = u "draft"
    /\ (echoes_status w ->
        (status row = u "draft" \/ status row = u "failed")
        /\ status row <> u "publish")
    /\ (status row = u "failed"
        \/ exists n d p, d ∈ new /\ wp_post w n d = inl p
                         /\ status row = wp_status p).
Proof. apply run_still_invalid. Qed.

Lemma invalid_content_goes_out_as_draft_witness :
  echoes_status sample_world
  /\ exists b e' row new,
       run sample_world
           (initial_env (mkContentPublisher (u "publish") true None) [])
       = (Ok b, e')
       /\ db e' = [] ++ [row]
       /\ wp_requests e' = [] ++ new
       /\ Forall (fun d => pd_status d = u "draft") new
       /\ publish_status (self e') = u "draft"
       /\ status row <> u "publish".
Proof.
  assert (Hecho : echoes_status sample_world).
  { intros n d p H. inversion H. done. }
  split; [exact Hecho|].
  destruct (invalid_content_goes_out_as_draft sample_world
              (initial_env (mkContentPublisher (u "publish") true None) [])
              _ _ _ _ _
              ltac:(vm_compute; reflexivity)
              ltac:(vm_compute; reflexivity)
              ltac:(vm_compute; reflexivity))
    as (b & e' & row & new & Hrun & Hdb & _ & Hreq & _ & Hall & Hst & Hrec & _).
  exists b, e', row, new.
  split; [exact Hrun|]. split; [exact Hdb|]. split; [exact Hreq|].
  split; [exact Hall|]. split; [exact Hst|]. exact (proj2 (Hrec Hecho)).
Defined.

(** "The recorded status is never [publish]" fails as worded: the row
    carries the status the CMS reports, and a CMS that reports the draft
    it was asked for as [publish] gets that status recorded. *)
Lemma invalid_content_recorded_as_publish :
  exists topic title content e1 e2 row,
    generate_unique_topic relabelling_world
      (initial_env (mkContentPublisher (u "publish") true None) [])
    = (Ok topic, e1)
    /\ generate_content relabelling_world topic e1 = (Ok (title, content), e2)
    /\ still_invalid true title content = true
    /\ db (snd (run relabelling_world
                  (initial_env (mkContentPublisher (u "publish") true None) [])))
       = [row]
    /\ pd_status <$> wp_requests
         (snd (run relabelling_world
                 (initial_env (mkContentPublisher (u "publish") true None) [])))
       = [u "draft"]
    /\ status row = u "publish".
Proof.
  do 6 eexists. split; [vm_compute; reflexivity|].
  split; [vm_compute; reflexivity|]. split; [vm_compute; reflexivity|].
  split; [vm_compute; reflexivity|]. split; vm_compute; reflexivity.
Qed.

(** C9. The downgrade is kept by the object: after a run whose content
    is still invalid after sanitization the field [publish_status] is
    [draft], and however many runs follow on the same object, whatever
    their content, the field stays [draft] and every request they send
    to the CMS has status [draft]. *)
Theorem downgrade_persists (w : World) (e e1 e2 : Env)
    (topic : Topic) (title content : str) :
  generate_unique_topic w e = (Ok topic, e1) ->
  generate_content w topic e1 = (Ok (title, content), e2) ->
  still_invalid (auto_sanitize (self e)) title content = true ->
  publish_status (self (snd (run w e))) = u "draft"
  /\ forall n,
       publish_status (self (runs w n (snd (run w e)))) = u "draft"
       /\ exists new,
            wp_requests (runs w n (snd (run w e)))
            = wp_requests (snd (run w e)) ++ new
            /\ Forall (fun d => pd_status d = u "draft") new.
Proof.
  intros Hg Hc Hinv.
  destruct (run_still_invalid w e e1 e2 topic title content Hg Hc Hinv)
    as (b & e' & row & new & Hrun & _ & _ & _ & _ & _ & Hst & _).
  rewrite Hrun. cbn [snd]. split; [done|].
  intros n. by apply runs_keep_draft.
Qed.

Lemma downgrade_persists_witness :
  fst (validate (u "Reading") valid_body) = true
  /\ publish_status
       (self (snd (run improving_world
                     (initial_env (mkContentPublisher (u "publish") true None) []))))
     = u "draft"
  /\ pd_status <$>
       wp_requests
         (runs improving_world 1
            (snd (run improving_world
                    (initial_env (mkContentPublisher (u "publish") true None) []))))
     = [u "draft"; u "draft"].
Proof.
  split; [vm_compute; reflexivity|].
  destruct (downgrade_persists improving_world
              (initial_env (mkContentPublisher (u "publish") true None) [])
              _ _ _ _ _
              ltac:(vm_compute; reflexivity)
              ltac:(vm_compute; reflexivity)
              ltac:(vm_compute; reflexivity)) as [Hst _].
  split; [exact Hst|]. vm_compute. reflexivity.
Defined.

(** The sanitize pass decides the downgrade by the text it really
    produces: a body of 999 characters with ["certaın"] becomes valid and
    keeps its status, a body of 1000 characters with ["100% definıtely"]
    becomes too short and is downgraded. *)
Example still_invalid_dotless :
  length short_dotless_body = 999
  /\ fst (validate (u "Reading") short_dotless_body) = false
  /\ length (sanitize_content short_dotless_body) = 1000
  /\ still_invalid true (u "Reading") short_dotless_body = false
  /\ length long_dotless_body = 1000
  /\ length (sanitize_content long_dotless_body) = 998
  /\ still_invalid true (u "Reading") long_dotless_body = true.
Proof. repeat split; vm_compute; reflexivity. Qed.

(** ** The ledger statistics *)

Section StatsFacts.

Lemma by_status_count (rows : list Row) (st : str) :
  dict_get0 (by_status_of rows) st = count_status st rows.
Proof.
  unfold dict_get0, count_status.
  induction rows as [|r rows IH].
  - cbn [by_status_of foldr count_where]. by rewrite lookup_empty.
  - cbn [by_status_of foldr count_where]. fold (by_status_of rows).
    destruct (eqb_str (status r) st) eqn:Heq.
    + apply eqb_str_eq in Heq. rewrite Heq.
      rewrite lookup_insert_eq. cbn [default]. by rewrite <- IH.
    + rewrite lookup_insert_ne; [exact IH|].
      intros Hst. rewrite Hst, eqb_str_refl in Heq. discriminate.
Qed.

Lemma count_status_four (rows : list Row) :
  count_status (u "publish") rows + count_status (u "draft") rows
  + count_status (u "failed") rows + count_status (u "future") rows
  <= length rows.
Proof.
  unfold count_status. induction rows as [|r rows IH]; [cbn; lia|].
  cbn [count_where length].
  destruct (eqb_str (status r) (u "publish")) eqn:E1;
    destruct (eqb_str (status r) (u "draft")) eqn:E2;
    destruct (eqb_str (status r) (u "failed")) eqn:E3;
    destruct (eqb_str (status r) (u "future")) eqn:E4;
    try lia; exfalso;
    repeat match goal with
           | H : eqb_str _ _ = true |- _ => apply eqb_str_eq in H
           end;
    match goal with
    | H1 : status r = _, H2 : status r = _ |- _ =>
        rewrite H1 in H2; vm_compute in H2; discriminate
    end.
Qed.

End StatsFacts.

(** C10. [get_stats] returns for every ledger, and no division by zero
    is met: the rate is the integer 0 for the empty ledger and otherwise
    [round((publish + draft) / total * 100, 2)], computed on binary64
    numbers, where [publish] and [draft] count the rows of these two
    statuses; rows with status [failed] or [future] are counted apart
    from them. *)
Theorem get_stats_well_defined (e : Env) :
  exists st,
    Float64.get_stats e = (Ok st, e)
    /\ Float64.total_published st = length (db e)
    /\ Float64.success_rate st
       = match db e with
         | [] => Float64.PyInt 0
         | _ :: _ =>
             Float64.PyFloat
               (Float64.round2
                  (Float64.mul_int
                     (SFdiv 53 1024
                        (Float64.exact_int
                           (Z.of_nat (count_status (u "publish") (db e)
                                      + count_status (u "draft") (db e))))
                        (Float64.exact_int (Z.of_nat (length (db e)))))
                     100))
         end
    /\ count_status (u "publish") (db e) + count_status (u "draft") (db e)
       + count_status (u "failed") (db e) + count_status (u "future") (db e)
       <= length (db e).
Proof.
  unfold Float64.get_stats, Float64.get_stats_of. rewrite !by_status_count.
  destruct (db e) as [|r rows] eqn:Hdb.
  - eexists. split; [reflexivity|]. split; [reflexivity|].
    split; [reflexivity|]. apply (count_status_four []).
  - rewrite <- Hdb.
    assert (Hlen : 0 < length (db e)) by (rewrite Hdb; simpl; lia).
    apply Nat.ltb_lt in Hlen as Hlt. rewrite Hlt.
    unfold Float64.truediv.
    destruct (Z.eqb_spec (Z.of_nat (length (db e))) 0) as [H0|_]; [lia|].
    eexists. split; [reflexivity|]. split; [reflexivity|].
    split; [reflexivity|]. apply count_status_four.
Qed.

(** 23 successes among 160 rows: the quotient times 100 is the binary64
    number just below 14.375, and the rate is 14.37, the binary64 number
    [8089590830664253 * 2^-49]; on exact rationals the same steps give
    14.38.  One row of each status gives 50.0. *)
Example get_stats_23_of_160 :
  Float64.success_rate <$> (match Float64.get_stats_of (ledger_of 23 137) with
                            | Ok st => Some st
                            | Raise _ => None
                            end)
  = Some (Float64.PyFloat (S754_finite false 8089590830664253 (-49)))
  /\ Float64.mul_int (SFdiv 53 1024 (Float64.exact_int 23) (Float64.exact_int 160)) 100
     = S754_finite false 8092405580431359 (-49)
  /\ round2 (Qmake 23 160 * 100) = Qmake 1438 100.
Proof. repeat split; vm_compute; reflexivity. Qed.

Example get_stats_one_of_each :
  Float64.success_rate <$> (match Float64.get_stats_of one_of_each with
                            | Ok st => Some st
                            | Raise _ => None
                            end)
  = Some (Float64.PyFloat (S754_finite false 7036874417766400 (-47)))
  /\ Float64.get_stats_of [] = Ok (Float64.mkStats 0 ∅ (Float64.PyInt 0)).
Proof. split; vm_compute; reflexivity. Qed.

(** ** The scheduling policy *)

Section ScheduleFacts.



Lemma dt_ltb_next_day (now : DateTime) (h m : nat) :
  dt_ltb now (replace_time (add_days now 1) h m) = true.
Proof.
  unfold dt_ltb, replace_time, add_days. cbn [date].
  assert (H : (date now <? date now + 1)%Z = true) by (apply Z.ltb_lt; lia).
  by rewrite H.
Qed.


End ScheduleFacts.



Example schedule_rolls_over :
  get_next_publish_time (mkDateTime 20000 21 5 0 0) 7
  = mkDateTime 20001 10 7 0 0.
Proof. reflexivity. Qed.

Example schedule_inside_window :
  should_schedule (mkDateTime 20000 10 30 0 0) = false.
Proof. reflexivity. Qed.

(** * Further properties of the code *)

(** ** The ledger *)

Section LedgerMore.

Lemma count_where_app (f : Row -> bool) (l k : list Row) :
  count_where f (l ++ k) = count_where f l + count_where f k.
Proof. induction l as [|r l IH]; simpl; [done|]. rewrite IH. lia. Qed.

Lemma by_status_lookup (rows : list Row) (st : str) :
  by_status_of rows !! st
  = (if count_status st rows =? 0 then None else Some (count_status st rows)).
Proof.
  unfold count_status. induction rows as [|r rows IH].
  - cbn [by_status_of foldr count_where]. by rewrite lookup_empty.
  - cbn [by_status_of foldr count_where]. fold (by_status_of rows).
    destruct (eqb_str (status r) st) eqn:Heq.
    + apply eqb_str_eq in Heq. rewrite Heq, lookup_insert_eq.
      rewrite IH. cbn [Nat.add Nat.eqb].
      by destruct (count_where _ rows =? 0) eqn:H0; [apply Nat.eqb_eq in H0 as ->|].
    + rewrite lookup_insert_ne; [exact IH|].
      intros Hst. rewrite Hst, eqb_str_refl in Heq. discriminate.
Qed.

Lemma eqb_str_sym (a b : str) : eqb_str a b = eqb_str b a.
Proof.
  apply eq_true_iff_eq. rewrite !eqb_str_eq. split; congruence.
Qed.

End LedgerMore.

(** X1. After [save_published_topic] the saved key is reported as used,
    whatever the status saved with it, and every other key is reported
    as before: [is_topic_used] after the insertion is [is_topic_used]
    before it, or the key being the one inserted. *)
Theorem save_published_topic_then_used (m s c t : str) (pid : option Z)
    (url : option str) (st : str) (err : option str) (e : Env) (m' s' c' : str) :
  is_topic_used_in (db (snd (save_published_topic m s c t pid url st err e))) m' s' c'
  = is_topic_used_in (db e) m' s' c' || same_key m s c m' s' c'.
Proof.
  unfold save_published_topic, is_topic_used_in. cbn [snd db set_db].
  rewrite count_where_app. cbn [count_where].
  replace (key_matches m' s' c' (mkRow m s c t pid url st err))
    with (same_key m s c m' s' c').
  2: { unfold key_matches, same_key. cbn [mbti love_situation tarot_card].
       by rewrite (eqb_str_sym m), (eqb_str_sym s), (eqb_str_sym c). }
  destruct (same_key m s c m' s' c').
  - rewrite orb_true_r. apply Nat.ltb_lt. lia.
  - rewrite orb_false_r. f_equal. lia.
Qed.

(** X2. [get_stats] never raises and reads the ledger only; its
    [by_status] dictionary has an entry exactly for the statuses that
    occur, with the number of rows of that status; saving one more topic
    raises the total by one and the count of the saved status by one,
    and leaves the other counts as they were. *)
Theorem get_stats_after_save (m s c t : str) (pid : option Z)
    (url : option str) (st : str) (err : option str) (e : Env) :
  let e1 := snd (save_published_topic m s c t pid url st err e) in
  exists st0 st1,
    get_stats e = (Ok st0, e)
    /\ get_stats e1 = (Ok st1, e1)
    /\ total_published st1 = S (total_published st0)
    /\ (forall x, by_status st0 !! x
                  = if count_status x (db e) =? 0 then None
                    else Some (count_status x (db e)))
    /\ (forall x, dict_get0 (by_status st1) x
                  = dict_get0 (by_status st0) x + (if eqb_str st x then 1 else 0)).
Proof.
  intros e1. unfold get_stats.
  assert (Hby : forall rows, exists st', get_stats_of rows = Ok st'
                 /\ total_published st' = length rows
                 /\ by_status st' = by_status_of rows).
  { intros rows. unfold get_stats_of. destruct (0 <? length rows) eqn:Hlen.
    - unfold truediv. destruct (Z.eqb_spec (Z.of_nat (length rows)) 0) as [H0|_].
      + apply Nat.ltb_lt in Hlen. lia.
      + eexists. repeat split.
    - eexists. repeat split. }
  destruct (Hby (db e)) as (st0 & -> & Ht0 & Hb0).
  destruct (Hby (db e1)) as (st1 & -> & Ht1 & Hb1).
  exists st0, st1. split; [done|]. split; [done|].
  split.
  { rewrite Ht1, Ht0. subst e1. unfold save_published_topic. cbn [snd db set_db].
    rewrite length_app. simpl. lia. }
  split.
  { intros x. rewrite Hb0. apply by_status_lookup. }
  intros x. rewrite Hb1, Hb0, !by_status_count. subst e1.
  unfold save_published_topic, count_status. cbn [snd db set_db].
  rewrite count_where_app. cbn [count_where status]. lia.
Qed.

Section RateBounds.


End RateBounds.


(** ** The allocator and the size of the topic space *)

Section TopicSpace.

Lemma nodupb_NoDup (l : list str) : nodupb l = true -> NoDup l.
Proof.
  induction l as [|x l IH]; simpl; intros H; [constructor|].
  apply andb_true_iff in H as [Hx Hl]. constructor; [|by apply IH].
  intros Hin. apply negb_true_iff in Hx.
  assert (Hex : existsb (eqb_str x) l = true).
  { apply existsb_exists. exists x. split; [by apply list_elem_of_In|].
    apply eqb_str_refl. }
  congruence.
Qed.

Lemma topic_space_NoDup : NoDup topic_space.
Proof.
  unfold topic_space.
  apply NoDup_bind; [| |apply nodupb_NoDup; vm_compute; reflexivity].
  - intros m1 m2 k _ _ H1 H2.
    apply list_elem_of_bind in H1 as (s1 & H1 & _).
    apply list_elem_of_bind in H1 as (c1 & H1 & _).
    apply list_elem_of_bind in H2 as (s2 & H2 & _).
    apply list_elem_of_bind in H2 as (c2 & H2 & _).
    apply list_elem_of_singleton in H1, H2. congruence.
  - intros m _.
    apply NoDup_bind; [| |apply nodupb_NoDup; vm_compute; reflexivity].
    + intros s1 s2 k _ _ H1 H2.
      apply list_elem_of_bind in H1 as (c1 & H1 & _).
      apply list_elem_of_bind in H2 as (c2 & H2 & _).
      apply list_elem_of_singleton in H1, H2. congruence.
    + intros s _.
      apply NoDup_bind; [| |apply nodupb_NoDup; vm_compute; reflexivity].
      * intros c1 c2 k _ _ H1 H2.
        apply list_elem_of_singleton in H1, H2. congruence.
      * intros c _. apply NoDup_singleton.
Qed.

Lemma topic_space_length : Z.of_nat (length topic_space) = 17280%Z.
Proof. vm_compute. reflexivity. Qed.

Lemma all_used_covers (rows : list Row) :
  all_used rows = true ->
  forall k, k ∈ topic_space -> k ∈ row_key <$> rows.
Proof.
  intros Hall k Hk. unfold topic_space in Hk.
  apply list_elem_of_bind in Hk as (m & Hk & Hm).
  apply list_elem_of_bind in Hk as (s & Hk & Hs).
  apply list_elem_of_bind in Hk as (c & Hk & Hc).
  apply list_elem_of_singleton in Hk. subst k.
  apply is_topic_used_in_key. by apply all_used_spec.
Qed.

Lemma all_used_length (rows : list Row) :
  all_used rows = true -> (17280 <= Z.of_nat (length rows))%Z.
Proof.
  intros Hall. rewrite <- topic_space_length, <- (length_fmap row_key rows).
  apply Nat2Z.inj_le.
  apply submseteq_length, NoDup_submseteq; [apply topic_space_NoDup|].
  by apply all_used_covers.
Qed.

Lemma calculate_remaining_combinations_value (e : Env) :
  calculate_remaining_combinations e
  = (Ok (7040 - Z.of_nat (length (db e)))%Z, e).
Proof.
  unfold calculate_remaining_combinations, bind, get_stats, lift.
  destruct (get_stats_of_ok (db e)) as (st & -> & Hst).
  unfold truediv.
  destruct (Z.eqb_spec
              (Z.of_nat (length MBTI_TYPES * length LOVE_SITUATIONS
                         * length TAROT_MAJOR_ARCANA)) 0) as [H0|_].
  - vm_compute in H0. discriminate.
  - unfold ret. rewrite Hst. reflexivity.
Qed.

End TopicSpace.

(** X4. [calculate_remaining_combinations] never raises and changes
    nothing; it returns 7040 (16 x 20 x 22, the tarot cards only) minus
    the number of rows of the ledger.  The allocator draws from all
    three card vocabularies, so once every combination is used the
    number returned is negative: at most -10240. *)
Theorem remaining_combinations_when_exhausted (e : Env) :
  all_used (db e) = true ->
  exists z,
    calculate_remaining_combinations e = (Ok z, e)
    /\ z = (7040 - Z.of_nat (length (db e)))%Z
    /\ (z <= -10240)%Z.
Proof.
  intros Hall. apply all_used_length in Hall.
  eexists. split; [apply calculate_remaining_combinations_value|].
  split; [done | lia].
Qed.

Lemma remaining_combinations_when_exhausted_witness :
  exists z,
    calculate_remaining_combinations (initial_env default_publisher full_ledger)
    = (Ok z, initial_env default_publisher full_ledger)
    /\ (z <= -10240)%Z.
Proof.
  destruct (remaining_combinations_when_exhausted
              (initial_env default_publisher full_ledger) full_ledger_all_used)
    as (z & Hrun & _ & Hz).
  exists z. split; [exact Hrun | exact Hz].
Defined.

Section AllocatorMore.

Variable w : World.

Lemma draw_topic_wf (e : Env) :
  exists t,
    draw_topic w e = (Ok t, tick_rng (tick_rng (tick_rng (tick_rng e))))
    /\ well_formed_topic t.
Proof.
  unfold draw_topic, bind, well_formed_topic, card_of_kind.
  destruct (choice_ok w MBTI_TYPES e) as (m & Hm & ->); [done|].
  destruct (choice_ok w LOVE_SITUATIONS (tick_rng e)) as (s & Hs & ->); [done|].
  destruct (choice_ok w CARD_TYPES (tick_rng (tick_rng e))) as (ty & Hty & ->); [done|].
  set (e3 := tick_rng (tick_rng (tick_rng e))).
  destruct (eqb_str ty (u "tarot")) eqn:Et;
    [|destruct (eqb_str ty (u "numerology")) eqn:En].
  - apply eqb_str_eq in Et.
    destruct (choice_ok w TAROT_MAJOR_ARCANA e3) as (c & Hc & ->); [done|].
    destruct (dict_covers_get _ _ c tarot_covered Hc) as (k & Hk).
    unfold lift. rewrite Hk. eexists. split; [reflexivity|].
    cbn. split; [done|]. split; [done|]. left. done.
  - apply eqb_str_eq in En.
    destruct (choice_ok w NUMEROLOGY_NUMBERS e3) as (c & Hc & ->); [done|].
    destruct (dict_covers_get _ _ c numerology_covered Hc) as (k & Hk).
    unfold lift. rewrite Hk. eexists. split; [reflexivity|].
    cbn. split; [done|]. split; [done|]. right. left. done.
  - assert (Ho : ty = u "oracle").
    { unfold CARD_TYPES in Hty.
      apply elem_of_cons in Hty as [->|Hty]; [by rewrite eqb_str_refl in Et|].
      apply elem_of_cons in Hty as [->|Hty]; [by rewrite eqb_str_refl in En|].
      by apply list_elem_of_singleton in Hty. }
    destruct (choice_ok w ORACLE_CARDS e3) as (c & Hc & ->); [done|].
    destruct (dict_covers_get _ _ c oracle_covered Hc) as (k & Hk).
    unfold lift. rewrite Hk. eexists. split; [reflexivity|].
    cbn. split; [done|]. split; [done|]. right. right. done.
Qed.

(** The loop with [n] turns left: the number [k] of probes made, the
    draws consumed, and what comes out. *)
Lemma attempt_loop_probes (n : nat) (e : Env) :
  exists r e' k,
    attempt_loop w (S n) e = (r, e')
    /\ 1 <= k <= S n
    /\ queries e' = queries e + k
    /\ rng_pos e' = rng_pos e + 4 * k
    /\ match r with
       | Ok t =>
           well_formed_topic t
           /\ is_topic_used_in (db e) (t_mbti t) (t_love_situation t)
                               (t_card_name t) = false
       | Raise x => x = RuntimeError exhausted_msg /\ k = S n
       end
    /\ match db e with
       | [] => k = 1 /\ exists t, r = Ok t
       | _ :: _ => True
       end.
Proof.
  revert e. induction n as [|n IH]; intros e.
  - cbn [attempt_loop]. unfold bind.
    destruct (draw_topic_wf e) as (t & -> & Hwf).
    unfold is_topic_used. cbn [db tick_rng tick_queries].
    destruct (is_topic_used_in (db e) (t_mbti t) (t_love_situation t) (t_card_name t))
      eqn:Hu; cbn [negb].
    + eexists; eexists; exists 1. split; [reflexivity|]. cbn.
      split; [lia|]. split; [lia|]. split; [lia|]. split; [done|].
      destruct (db e); [discriminate | done].
    + eexists; eexists; exists 1. split; [reflexivity|]. cbn.
      split; [lia|]. split; [lia|]. split; [lia|]. split; [done|].
      destruct (db e); [eauto | done].
  - remember (S n) as n1. cbn [attempt_loop]. unfold bind.
    destruct (draw_topic_wf e) as (t & -> & Hwf).
    unfold is_topic_used. cbn [db tick_rng tick_queries].
    destruct (is_topic_used_in (db e) (t_mbti t) (t_love_situation t) (t_card_name t))
      eqn:Hu; cbn [negb].
    + subst n1.
      match goal with |- context [attempt_loop w (S n) ?e1] =>
        destruct (IH e1) as (r & e' & k & -> & Hk & Hq & Hr & Hres & _) end.
      cbn in Hq, Hr, Hres.
      exists r, e', (S k). split; [done|]. split; [lia|]. split; [lia|].
      split; [lia|]. split.
      * destruct r as [t'|x]; [done|]. destruct Hres as [-> ->]. done.
      * destruct (db e); [discriminate | done].
    + eexists; eexists; exists 1. split; [reflexivity|]. cbn.
      split; [lia|]. split; [lia|]. split; [lia|]. split; [done|].
      destruct (db e); [eauto | done].
Qed.

End AllocatorMore.

(** X5. A topic returned by [generate_unique_topic] is well formed: its
    MBTI type and love situation come from their lists, its card from
    the vocabulary of its card type (tarot, numerology or oracle), and
    [card_korean] is the entry of that card in the dictionary of the
    same kind. *)
Theorem generate_unique_topic_well_formed (w : World) (e e' : Env) (t : Topic) :
  generate_unique_topic w e = (Ok t, e') -> well_formed_topic t.
Proof.
  unfold generate_unique_topic, max_attempts. intros H.
  destruct (attempt_loop_probes w 99 e) as (r & e1 & k & Hrun & _ & _ & _ & Hres & _).
  rewrite H in Hrun. inversion Hrun; subst r e1. tauto.
Qed.

Lemma generate_unique_topic_well_formed_witness :
  exists t e',
    generate_unique_topic sample_world (initial_env default_publisher [])
    = (Ok t, e')
    /\ well_formed_topic t.
Proof.
  eexists. eexists. split; [vm_compute; reflexivity|].
  eapply (generate_unique_topic_well_formed sample_world
            (initial_env default_publisher [])).
  vm_compute. reflexivity.
Defined.


(** A ledger of one row and a random source that keeps drawing its key:
    the allocator gives up although 17279 combinations are free. *)
Example generate_unique_topic_false_exhaustion :
  fst (generate_unique_topic
         (mkWorld (fun _ => 0) (llm sample_world) (wp_term sample_world)
                  (wp_post sample_world))
         (initial_env default_publisher
            [mkRow (u "INTJ") [50672; 50528; 32; 48520; 50504; 32; 40; 114; 101;
                     108; 97; 116; 105; 111; 110; 115; 104; 105; 112; 32; 97; 110;
                     120; 105; 101; 116; 121; 41]%N
                   (u "The Fool") [] None None (u "draft") None]))
  = Raise (RuntimeError exhausted_msg).
Proof. vm_compute. reflexivity. Qed.

(** ** The validator and the substitution passes *)

Section TextMore.

Lemma starts_with_app_l (t a b : str) :
  starts_with t a = true -> starts_with t (a ++ b) = true.
Proof.
  revert a. induction t as [|c t IH]; intros [|d a] H; simpl in *; try done.
  apply andb_true_iff in H as [-> H]. simpl. by apply IH.
Qed.

Lemma contains_app_l (t a b : str) :
  contains t a = true -> contains t (a ++ b) = true.
Proof.
  induction a as [|c a IH]; intros H.
  - simpl in H. rewrite orb_false_r in H. apply starts_with_nil_r in H. subst.
    apply contains_nil_l.
  - rewrite <- app_comm_cons, contains_cons. rewrite contains_cons in H.
    apply orb_true_iff in H as [H|H]; apply orb_true_iff.
    + left. exact (starts_with_app_l t (c :: a) b H).
    + right. by apply IH.
Qed.

Lemma contains_app_r (t a b : str) :
  contains t b = true -> contains t (a ++ b) = true.
Proof.
  intros H. induction a as [|c a IH]; [done|].
  rewrite <- app_comm_cons, contains_cons, IH. apply orb_true_r.
Qed.

Lemma contains_of_starts (t s : str) :
  starts_with t s = true -> contains t s = true.
Proof. intros H. destruct s; simpl in *; by rewrite H. Qed.

Lemma starts_with_split (p x : str) :
  starts_with p x = true -> x = p ++ drop (length p) x.
Proof.
  revert x. induction p as [|c p IH]; intros [|d x] H; simpl in *; try done.
  apply andb_true_iff in H as [Hc H]. apply N.eqb_eq in Hc. subst d.
  f_equal. by apply IH.
Qed.

(** Two prefixes of one string agree as far as both go. *)
Lemma starts_with_both_compat (a b x : str) :
  starts_with a x = true -> starts_with b x = true -> compat a b = true.
Proof.
  intros Ha Hb. apply starts_with_split in Ha. rewrite Ha in Hb.
  by eapply starts_with_app_compat.
Qed.

Lemma drop_in_tails_ne (l : str) (i : nat) :
  i < length l -> drop i l ∈ tails_ne l.
Proof.
  revert i. induction l as [|c l IH]; intros i Hi; simpl in Hi; [lia|].
  destruct i as [|i]; [left|]. right. apply IH. lia.
Qed.

(** An occurrence starts among the first [n] positions or lies beyond
    them. *)
Lemma contains_drop_inv (t x : str) (n : nat) :
  contains t x = true ->
  (exists i, i < n /\ i < length x /\ starts_with t (drop i x) = true)
  \/ contains t (drop n x) = true.
Proof.
  revert x. induction n as [|n IH]; intros x H; [by right|].
  destruct x as [|c x].
  - right. by destruct t.
  - rewrite contains_cons in H. apply orb_true_iff in H as [H|H].
    + left. exists 0. simpl. split; [lia|]. split; [lia | done].
    + destruct (IH x H) as [(i & Hi & Hlen & Hs)|Hc]; [left | by right].
      exists (S i). simpl. split; [lia|]. split; [lia | done].
Qed.

Lemma fold_cp_cases (d : N) :
  fold_cp d = d \/ (97 <= fold_cp d <= 122)%N.
Proof.
  unfold fold_cp.
  destruct ((65 <=? d) && (d <=? 90))%N eqn:Hd.
  { apply andb_true_iff in Hd as [H1 H2]. apply N.leb_le in H1, H2. right. lia. }
  destruct ((d =? 304) || (d =? 305))%N; [right; lia|].
  destruct (d =? 383)%N; [right; lia|].
  destruct (d =? 8490)%N; [right; lia|]. by left.
Qed.

Lemma uncased_starts_with (t s : str) :
  uncased t = true -> starts_with t (casefold s) = starts_with t s.
Proof.
  revert s. induction t as [|c t IH]; intros [|d s] H; try done.
  cbn [uncased forallb] in H. apply andb_true_iff in H as [Hc Ht].
  apply andb_true_iff in Hc as [Hc Hfix]. apply N.eqb_eq in Hfix.
  change (casefold (d :: s)) with (fold_cp d :: casefold s).
  cbn [starts_with]. rewrite (IH s Ht). f_equal.
  apply negb_true_iff in Hc. apply orb_false_iff in Hc as [_ Hl].
  destruct (fold_cp_cases d) as [->|Hd]; [done|].
  transitivity false; [|symmetry]; apply N.eqb_neq; intros Heq.
  - subst c. assert (H1 : (97 <=? fold_cp d)%N = true) by (apply N.leb_le; lia).
    assert (H2 : (fold_cp d <=? 122)%N = true) by (apply N.leb_le; lia).
    by rewrite H1, H2 in Hl.
  - subst d. rewrite Hfix in Hd.
    assert (H1 : (97 <=? c)%N = true) by (apply N.leb_le; lia).
    assert (H2 : (c <=? 122)%N = true) by (apply N.leb_le; lia).
    by rewrite H1, H2 in Hl.
Qed.

Lemma uncased_contains (t s : str) :
  uncased t = true -> contains t (casefold s) = contains t s.
Proof.
  intros Ht. induction s as [|d s IH].
  - by destruct t.
  - change (casefold (d :: s)) with (fold_cp d :: casefold s).
    rewrite !contains_cons, IH. f_equal.
    apply (uncased_starts_with t (d :: s) Ht).
Qed.

End TextMore.

Section SubKeeps.

Variables pat repl t : str.
Hypothesis pat_ne : pat <> [].
Hypothesis t_ne : t <> [].
Hypothesis apart : overlap_free (casefold pat) t = true.

Lemma apart_l (p' : str) : p' ∈ tails_ne (casefold pat) -> compat p' t = false.
Proof using apart. apply (free_l pat t apart). Qed.

Lemma apart_r (t' : str) : t' ∈ tails_ne t -> compat t' (casefold pat) = false.
Proof using apart. apply (free_r pat t apart). Qed.

(** A tail of [t] at the head of the text is still there after the
    pass: no match can begin where it lies. *)
Lemma prefix_kept (s t' : str) :
  t' = [] \/ t' ∈ tails_ne t ->
  starts_with t' (casefold s) = true ->
  starts_with t' (casefold (re_sub_i pat repl s)) = true.
Proof using pat_ne apart.
  revert t'. induction s as [|c s IH]; intros t' Ht' H.
  - apply starts_with_nil_r in H. by subst.
  - destruct Ht' as [->|Ht']; [done|].
    destruct t' as [|d t'']; [done|].
    destruct (imatch pat (c :: s)) eqn:Hm.
    + unfold imatch in Hm.
      pose proof (starts_with_both_compat _ _ _ H Hm) as Hc.
      by rewrite apart_r in Hc.
    + rewrite re_sub_i_miss by done.
      change (casefold (c :: ?x)) with (fold_cp c :: casefold x) in *.
      cbn [starts_with] in *. apply andb_true_iff in H as [-> H]. simpl.
      apply IH; [|done].
      destruct t'' as [|d' t3]; [by left | right].
      by apply (tails_ne_tail d).
Qed.

(** An occurrence of [t] survives the pass. *)
Lemma re_sub_i_keeps (n : nat) (s : str) :
  length s <= n ->
  contains t (casefold s) = true ->
  contains t (casefold (re_sub_i pat repl s)) = true.
Proof using pat_ne t_ne apart.
  revert s. induction n as [|n IH]; intros s Hn H.
  - destruct s; [|simpl in Hn; lia]. destruct t; done.
  - destruct s as [|c s]; [destruct t; done|]. simpl in Hn.
    destruct (starts_with t (casefold (c :: s))) eqn:Hst.
    { apply contains_of_starts, prefix_kept; [right|done].
      destruct t; [done | left]. }
    destruct (imatch pat (c :: s)) eqn:Hm.
    + rewrite re_sub_i_hit, casefold_app by done. apply contains_app_r.
      apply IH.
      { rewrite length_drop. simpl. destruct pat; [done | simpl; lia]. }
      rewrite casefold_drop.
      destruct (contains_drop_inv t (casefold (c :: s)) (length pat) H)
        as [(i & Hi & _ & Hs)|Hc]; [exfalso | done].
      unfold imatch in Hm. apply starts_with_split in Hm.
      rewrite Hm, drop_app_le in Hs by (rewrite casefold_length; lia).
      apply starts_with_app_compat in Hs.
      rewrite apart_l in Hs; [done|].
      apply drop_in_tails_ne. rewrite casefold_length. lia.
    + rewrite re_sub_i_miss by done.
      change (casefold (c :: ?x)) with (fold_cp c :: casefold x) in *.
      rewrite contains_cons in *. rewrite Hst in H. simpl in H.
      rewrite IH by (done || lia). apply orb_true_r.
Qed.

End SubKeeps.

Section SanitizeMore.

(** A string apart from the whole table occurs after the passes exactly
    when it occurred before. *)
Lemma fold_step_apart (t : str) (table : list (str * str)) (s : str) :
  t <> [] ->
  table_apart t table = true ->
  contains t (casefold (fold_left step table s)) = contains t (casefold s).
Proof.
  intros Ht. revert s. induction table as [|[p r] table IH]; intros s Hok; [done|].
  cbn [table_apart forallb] in Hok. fold (table_apart t table) in Hok.
  apply andb_true_iff in Hok as [Hpr Hrest].
  apply andb_true_iff in Hpr as [Hp Hr]. apply andb_true_iff in Hp as [Hlen Hp].
  cbn [fst snd] in *.
  assert (Hpne : p <> []) by (destruct p; [done | discriminate]).
  cbn [fold_left]. rewrite IH by done. unfold step. cbn [fst snd].
  destruct (contains t (casefold s)) eqn:Hc.
  - by apply (re_sub_i_keeps p r t Hpne Ht Hp (length s)).
  - apply (re_sub_i_clears p r Hpne t Hr (length s)); auto.
Qed.

Lemma sanitize_content_no_term (s : str) (fr : str * str) :
  fr ∈ replacements ->
  contains (casefold (fst fr)) (casefold (sanitize_content s)) = false.
Proof.
  intros Hfr. rewrite sanitize_content_fold.
  apply (fold_step_clears replacements [] s replacements_ok).
  - intros t Ht. by apply elem_of_nil in Ht.
  - right. by exists fr.
Qed.

Lemma forbidden_is_term (w : str) :
  w ∈ FORBIDDEN_WORDS -> exists fr, fr ∈ replacements /\ fst fr = w.
Proof.
  intros Hw. pose proof forbidden_in_table as H. rewrite forallb_forall in H.
  specialize (H w (proj1 (list_elem_of_In _ _) Hw)).
  apply existsb_exists in H as (fr & Hfr & Heq). apply eqb_str_eq in Heq.
  exists fr. split; [by apply list_elem_of_In | done].
Qed.

Lemma term_is_forbidden (fr : str * str) :
  fr ∈ replacements -> fst fr ∈ FORBIDDEN_WORDS.
Proof.
  intros Hfr. pose proof table_in_forbidden as H. rewrite forallb_forall in H.
  specialize (H fr (proj1 (list_elem_of_In _ _) Hfr)).
  apply existsb_exists in H as (w & Hw & Heq). apply eqb_str_eq in Heq.
  rewrite Heq. by apply list_elem_of_In.
Qed.

Lemma holds_no_forbidden_spec (title body : str) :
  holds title body NoForbidden = true
  <-> forall w, w ∈ FORBIDDEN_WORDS ->
        contains (lower w) (lower (title ++ u " " ++ body)) = false.
Proof.
  unfold holds. rewrite forallb_forall. split.
  - intros H w Hw. apply negb_true_iff, H. by apply list_elem_of_In.
  - intros H w Hw. apply negb_true_iff, H. by apply list_elem_of_In.
Qed.

Lemma validate_fst (title body : str) :
  fst (validate title body) = forallb (holds title body) all_rules.
Proof. by rewrite validate_cases. Qed.

End SanitizeMore.

(** X7. [sanitize_content] is idempotent: a second pass over its own
    output changes nothing. *)
Theorem sanitize_content_idempotent (s : str) :
  sanitize_content (sanitize_content s) = sanitize_content s.
Proof.
  rewrite (sanitize_content_fold (sanitize_content s)).
  apply fold_step_id. intros fr Hfr. by apply sanitize_content_no_term.
Qed.

(** X8. Content that passes [validate] and holds none of the letters
    [U+0130], [U+0131], [U+017F] and [U+212A] is left as it is by
    [sanitize_content], so validating it again after a sanitize pass
    gives the same verdict.  (With one of these letters a valid body can
    be rewritten: the patterns match more than [str.lower] finds.) *)
Theorem valid_content_not_rewritten (title body : str) :
  validate title body = (true, []) ->
  no_fold_letters body = true ->
  sanitize_content body = body
  /\ validate title (sanitize_content body) = (true, []).
Proof.
  intros Hv Hplain.
  assert (Hid : sanitize_content body = body).
  { rewrite sanitize_content_fold. apply fold_step_id. intros fr Hfr.
    pose proof (validate_fst title body) as Hf. rewrite Hv in Hf. cbn [fst] in Hf.
    symmetry in Hf. unfold all_rules in Hf. cbn [forallb] in Hf.
    apply andb_true_iff in Hf as [Hf _].
    rewrite holds_no_forbidden_spec in Hf.
    pose proof (term_is_forbidden fr Hfr) as Hw.
    specialize (Hf _ Hw).
    rewrite !lower_app in Hf.
    destruct (word_fold _ Hw) as [Hwf _].
    rewrite <- Hwf, <- (lower_casefold body Hplain).
    destruct (contains (lower (fst fr)) (lower body)) eqn:Hc; [|done].
    rewrite app_assoc, contains_app_r in Hf by done. done. }
  by rewrite Hid.
Qed.

Lemma valid_content_not_rewritten_witness :
  validate (u "Reading") valid_body = (true, [])
  /\ no_fold_letters valid_body = true
  /\ sanitize_content valid_body = valid_body.
Proof.
  assert (H : validate (u "Reading") valid_body = (true, []))
    by (vm_compute; reflexivity).
  assert (Hp : no_fold_letters valid_body = true) by (vm_compute; reflexivity).
  split; [exact H|]. split; [exact Hp|].
  exact (proj1 (valid_content_not_rewritten (u "Reading") valid_body H Hp)).
Defined.

Example valid_content_rewritten :
  validate (u "Reading") (valid_body ++ dotless_certain) = (true, [])
  /\ sanitize_content (valid_body ++ dotless_certain)
     = valid_body ++ u "probable".
Proof. split; vm_compute; reflexivity. Qed.

(** X9. A forbidden word in the title cannot be remedied:
    [sanitize_content] is given the body only, while [validate] reads
    title and body, so the content is invalid before the sanitize pass
    and after it, whatever the body, and [run] downgrades the
    publication to draft. *)
Theorem forbidden_title_stays_invalid (w title : str) :
  w ∈ FORBIDDEN_WORDS ->
  contains (lower w) (lower title) = true ->
  forall (auto : bool) (body : str),
    fst (validate title body) = false
    /\ fst (validate title (sanitize_content body)) = false
    /\ still_invalid auto title body = true.
Proof.
  intros Hw Hc.
  assert (Hinv : forall x, fst (validate title x) = false).
  { intros x. rewrite validate_fst. unfold all_rules. cbn [forallb].
    destruct (holds title x NoForbidden) eqn:Hh; [|done].
    rewrite holds_no_forbidden_spec in Hh. specialize (Hh w Hw).
    rewrite lower_app, contains_app_l in Hh by done. done. }
  intros auto body. split; [apply Hinv|]. split; [apply Hinv|].
  unfold still_invalid. rewrite !Hinv. by destruct auto.
Qed.

Lemma forbidden_title_stays_invalid_witness :
  still_invalid true (u "A guaranteed match") valid_body = true.
Proof.
  assert (Hw : u "guaranteed" ∈ FORBIDDEN_WORDS) by (right; left).
  assert (Hc : contains (lower (u "guaranteed")) (lower (u "A guaranteed match")) = true)
    by (vm_compute; reflexivity).
  exact (proj2 (proj2 (forbidden_title_stays_invalid _ _ Hw Hc true valid_body))).
Defined.

(** X10. [sanitize_content] neither adds nor removes the required
    disclaimer: [_check_disclaimer] gives the same answer before and
    after, so a missing disclaimer is never repaired by the sanitize
    pass. *)
Theorem sanitize_content_keeps_disclaimer (body : str) :
  check_disclaimer (sanitize_content body) = check_disclaimer body.
Proof.
  unfold check_disclaimer.
  assert (Hu : uncased required_disclaimer = true) by (vm_compute; reflexivity).
  rewrite <- (uncased_contains _ (sanitize_content body) Hu).
  rewrite <- (uncased_contains _ body Hu).
  rewrite sanitize_content_fold. apply fold_step_apart; [done|].
  vm_compute. reflexivity.
Qed.

(** ** Retries, fallback and the requests of a run *)

Section RetryMore.

Variable w : World.

(** The retried call in full: the attempts before the last one were
    refused. *)
Lemma retry_loop_publish_full (title content st : str) (categories tags : list Z)
    (hours : option Z) (extra : nat) (e : Env) :
  let d := post_data_of title content st categories tags hours in
  exists k r e',
    retry_loop extra
      (publish_post_attempt w title content st categories tags hours) e = (r, e')
    /\ 1 <= k <= S extra
    /\ sent e e' (replicate k d)
    /\ (forall i, S i < k ->
        exists msg, wp_post w (length (wp_requests e) + i) d = inr msg)
    /\ match r with
       | Ok res =>
           exists p, wp_post w (length (wp_requests e) + (k - 1)) d = inl p
                     /\ res = Published (wp_id p) (wp_link p) (wp_status p)
                                        (wp_title_rendered p) false
       | Raise x =>
           k = S extra
           /\ exists msg, wp_post w (length (wp_requests e) + extra) d = inr msg
                          /\ x = RequestException msg
       end.
Proof.
  intros d. revert e. induction extra as [|extra IH]; intros e.
  - exists 1. cbn [retry_loop]. unfold publish_post_attempt. fold d.
    destruct (wp_post w (length (wp_requests e)) d) as [p|msg] eqn:Hp;
      eexists; eexists; (split; [reflexivity|]); (split; [lia|]);
      (split; [done|]); (split; [intros i Hi; lia|]).
    + exists p. by rewrite Nat.add_0_r.
    + split; [done|]. exists msg. by rewrite Nat.add_0_r.
  - cbn [retry_loop]. unfold catch. unfold publish_post_attempt at 1. fold d.
    destruct (wp_post w (length (wp_requests e)) d) as [p|msg] eqn:Hp.
    + exists 1. eexists; eexists; (split; [reflexivity|]); (split; [lia|]);
        (split; [done|]); (split; [intros i Hi; lia|]).
      exists p. by rewrite Nat.add_0_r.
    + destruct (IH (push_request d e)) as (k & r & e' & Hrun & Hk & Hs & Hbefore & Hr).
      exists (S k), r, e'. split; [exact Hrun|]. split; [lia|]. split.
      { destruct Hs as (Hself & Hdb & Hreq). unfold sent.
        cbn in Hself, Hdb, Hreq. rewrite Hreq, <- app_assoc. done. }
      cbn [wp_requests push_request] in Hr, Hbefore.
      rewrite length_app in Hr, Hbefore. cbn [length] in Hr, Hbefore.
      split.
      { intros [|i] Hi.
        - exists msg. by rewrite Nat.add_0_r.
        - destruct (Hbefore i ltac:(lia)) as (m' & Hm'). exists m'.
          rewrite <- Hm'. f_equal. lia. }
      destruct r as [res|x].
      * destruct Hr as (p & Hp' & ->). exists p. split; [|done].
        rewrite <- Hp'. f_equal. lia.
      * destruct Hr as (-> & msg' & Hm & ->). split; [done|].
        exists msg'. split; [|done]. rewrite <- Hm. f_equal. lia.
Qed.

(** The requests of [publish_with_fallback]: [k1] at the preferred
    status, then [k2] at [draft]. *)
Lemma publish_with_fallback_shape (title content preferred : str)
    (categories tags : list Z) (hours : option Z) (e : Env) :
  let d_pref := post_data_of title content preferred categories tags hours in
  let d_draft := post_data_of title content (u "draft") categories tags hours in
  exists k1 k2 res e',
    publish_with_fallback w title content preferred categories tags hours e
    = (Ok res, e')
    /\ sent e e' (replicate k1 d_pref ++ replicate k2 d_draft)
    /\ 1 <= k1 <= 3 /\ k2 <= 3 /\ (k2 = 0 \/ k1 = 3)
    /\ match res with
       | Published _ _ _ _ fallback => fallback = (0 <? k2)
       | NotPublished _ _ => k1 = 3 /\ k2 = 3
       end.
Proof.
  intros d_pref d_draft. rewrite publish_with_fallback_unfold.
  destruct (publish_post_spec w title content categories tags hours preferred e)
    as (k1 & r & e1 & -> & Hk1 & Hs1 & Hr1).
  destruct r as [res|x].
  - destruct Hr1 as (p & _ & ->).
    exists k1, 0. eexists; eexists. split; [reflexivity|].
    cbn [replicate]. rewrite app_nil_r. split; [done|].
    split; [done|]. split; [lia|]. split; [by left | done].
  - destruct Hr1 as (-> & _).
    destruct (publish_post_spec w title content categories tags hours (u "draft") e1)
      as (k2 & r2 & e2 & -> & Hk2 & Hs2 & Hr2).
    exists 3, k2. eexists; eexists. split; [reflexivity|].
    split; [by eapply sent_app|]. split; [lia|]. split; [lia|].
    split; [by right|].
    destruct r2 as [res2|y]; cbn.
    + destruct Hr2 as (p & _ & ->). cbn. destruct k2; [lia | done].
    + destruct Hr2 as (-> & _). done.
Qed.

End RetryMore.

(** X11. One call of [publish_post] sends the same request one to three
    times and stops at the first that the CMS accepts, returning that
    post; the attempts before the last were all refused; it raises only
    after three refusals, and then the error of the third. *)
Theorem publish_post_retry_policy (w : World) (title content st : str)
    (categories tags : list Z) (hours : option Z) (e : Env) :
  let d := post_data_of title content st categories tags hours in
  exists k r e',
    publish_post w title content st categories tags hours e = (r, e')
    /\ 1 <= k <= 3
    /\ wp_requests e' = wp_requests e ++ replicate k d
    /\ db e' = db e
    /\ (forall i, S i < k ->
        exists msg, wp_post w (length (wp_requests e) + i) d = inr msg)
    /\ match r with
       | Ok res =>
           exists p, wp_post w (length (wp_requests e) + (k - 1)) d = inl p
                     /\ res = Published (wp_id p) (wp_link p) (wp_status p)
                                        (wp_title_rendered p) false
       | Raise x =>
           k = 3
           /\ exists msg, wp_post w (length (wp_requests e) + 2) d = inr msg
                          /\ x = RequestException msg
       end.
Proof.
  intros d.
  destruct (retry_loop_publish_full w title content st categories tags hours 2 e)
    as (k & r & e' & Hrun & Hk & (_ & Hdb & Hreq) & Hbefore & Hr).
  exists k, r, e'. split; [exact Hrun|]. split; [lia|]. split; [done|].
  split; [done|]. split; [done|]. exact Hr.
Qed.

(** X12. [publish_with_fallback] never raises.  It sends one to three
    requests at the preferred status and, only when all three were
    refused, one to three more at [draft]: six requests at most, also
    when the preferred status is [draft] already.  The result is a
    failure only after six refusals, and [fallback_used] is set exactly
    when draft requests were sent. *)
Theorem publish_with_fallback_requests (w : World) (title content preferred : str)
    (categories tags : list Z) (hours : option Z) (e : Env) :
  exists k1 k2 res e',
    publish_with_fallback w title content preferred categories tags hours e
    = (Ok res, e')
    /\ wp_requests e'
       = wp_requests e
         ++ replicate k1 (post_data_of title content preferred categories tags hours)
         ++ replicate k2 (post_data_of title content (u "draft") categories tags hours)
    /\ db e' = db e
    /\ 1 <= k1 <= 3 /\ k2 <= 3 /\ (k2 = 0 \/ k1 = 3)
    /\ match res with
       | Published _ _ _ _ fallback => fallback = (0 <? k2)
       | NotPublished _ _ => k1 = 3 /\ k2 = 3
       end.
Proof.
  destruct (publish_with_fallback_shape w title content preferred categories tags hours e)
    as (k1 & k2 & res & e' & Hrun & (_ & Hdb & Hreq) & Hk1 & Hk2 & Hor & Hres).
  exists k1, k2, res, e'. done.
Qed.

(** X13. [generate_content] calls the content oracle one to three
    times and returns its first answer; when all three calls fail it
    raises [RetryError], not the error of the oracle.  It touches
    neither the ledger nor the CMS. *)
Theorem generate_content_retry_policy (w : World) (topic : Topic) (e : Env) :
  exists k r e',
    generate_content w topic e = (r, e')
    /\ 1 <= k <= 3
    /\ llm_calls e' = llm_calls e + k
    /\ db e' = db e /\ wp_requests e' = wp_requests e
    /\ (forall i, S i < k -> llm w (llm_calls e + i) topic = None)
    /\ match r with
       | Ok tc => llm w (llm_calls e + (k - 1)) topic = Some tc
       | Raise x => x = RetryError /\ k = 3
                    /\ llm w (llm_calls e + 2) topic = None
       end.
Proof.
  unfold generate_content, retry_wrap, catch. cbn [Nat.sub retry_loop].
  unfold catch, generate_content_attempt, raise. cbn [llm_calls tick_llm].
  destruct (llm w (llm_calls e) topic) as [tc|] eqn:H0;
    cbn [llm_calls tick_llm].
  { exists 1. eexists; eexists. split; [reflexivity|]. cbn.
    split; [lia|]. split; [lia|]. split; [done|]. split; [done|].
    split; [intros i Hi; lia|]. by rewrite Nat.add_0_r. }
  destruct (llm w (S (llm_calls e)) topic) as [tc|] eqn:H1;
    cbn [llm_calls tick_llm].
  { exists 2. eexists; eexists. split; [reflexivity|]. cbn.
    split; [lia|]. split; [lia|]. split; [done|]. split; [done|].
    split.
    - intros i Hi. assert (i = 0) as -> by lia. by rewrite Nat.add_0_r.
    - by rewrite Nat.add_1_r. }
  destruct (llm w (S (S (llm_calls e))) topic) as [tc|] eqn:H2.
  { exists 3. eexists; eexists. split; [reflexivity|]. cbn.
    split; [lia|]. split; [lia|]. split; [done|]. split; [done|].
    split.
    - intros i Hi. assert (i = 0 \/ i = 1) as [-> | ->] by lia.
      + by rewrite Nat.add_0_r.
      + by rewrite Nat.add_1_r.
    - replace (llm_calls e + 2) with (S (S (llm_calls e))) by lia. done. }
  exists 3. eexists; eexists. split; [reflexivity|]. cbn.
  split; [lia|]. split; [lia|]. split; [done|]. split; [done|].
  split.
  - intros i Hi. assert (i = 0 \/ i = 1) as [-> | ->] by lia.
    + by rewrite Nat.add_0_r.
    + by rewrite Nat.add_1_r.
  - split; [done|]. split; [done|].
    replace (llm_calls e + 2) with (S (S (llm_calls e))) by lia. done.
Qed.

Section RunMore.

Variable w : World.

Lemma get_or_create_term_cases (name : str) (e : Env) :
  (exists id, wp_term w (term_calls e) name = Some id
              /\ get_or_create_term w name e = (Ok id, tick_term e))
  \/ (wp_term w (term_calls e) name = None
      /\ exists x, get_or_create_term w name e = (Raise x, tick_term e)).
Proof.
  unfold get_or_create_term.
  destruct (wp_term w (term_calls e) name); [left | right]; eauto.
Qed.

(** All the terms or none: one failing request discards the term ids
    obtained before it. *)
Lemma get_categories_all_or_nothing (topic : Topic) (e : Env) :
  exists l e',
    get_categories w topic e = (Ok l, e')
    /\ frame e e'
    /\ ((l = [] /\ exists i name, i < 3 /\ term_calls e' = term_calls e + S i
                                  /\ wp_term w (term_calls e + i) name = None)
        \/ (length l = 3 /\ term_calls e' = term_calls e + 3)).
Proof.
  unfold get_categories, catch, bind, ret, get_or_create_category.
  repeat match goal with
         | |- context [get_or_create_term w ?n ?e0] =>
             destruct (get_or_create_term_cases n e0)
               as [(? & ? & ->)|(? & ? & ->)]
         end;
    (eexists; eexists; split; [reflexivity|]; split; [repeat split|]);
    cbn [term_calls tick_term] in *.
  - right. split; [done | lia].
  - left. split; [done|]. eexists 2, _. split; [lia|]. split; [lia|].
    replace (term_calls e + 2) with (S (S (term_calls e))) by lia. eassumption.
  - left. split; [done|]. eexists 1, _. split; [lia|]. split; [lia|].
    replace (term_calls e + 1) with (S (term_calls e)) by lia. eassumption.
  - left. split; [done|]. eexists 0, _. split; [lia|]. split; [lia|].
    rewrite Nat.add_0_r. eassumption.
Qed.

Lemma get_tags_all_or_nothing (topic : Topic) (e : Env) :
  exists l e',
    get_tags w topic e = (Ok l, e')
    /\ frame e e'
    /\ ((l = [] /\ exists i name, i < 4 /\ term_calls e' = term_calls e + S i
                                  /\ wp_term w (term_calls e + i) name = None)
        \/ (length l = 4 /\ term_calls e' = term_calls e + 4)).
Proof.
  unfold get_tags, catch, bind, ret, get_or_create_tag.
  repeat match goal with
         | |- context [get_or_create_term w ?n ?e0] =>
             destruct (get_or_create_term_cases n e0)
               as [(? & ? & ->)|(? & ? & ->)]
         end;
    (eexists; eexists; split; [reflexivity|]; split; [repeat split|]);
    cbn [term_calls tick_term] in *.
  - right. split; [done | lia].
  - left. split; [done|]. eexists 3, _. split; [lia|]. split; [lia|].
    replace (term_calls e + 3) with (S (S (S (term_calls e)))) by lia. eassumption.
  - left. split; [done|]. eexists 2, _. split; [lia|]. split; [lia|].
    replace (term_calls e + 2) with (S (S (term_calls e))) by lia. eassumption.
  - left. split; [done|]. eexists 1, _. split; [lia|]. split; [lia|].
    replace (term_calls e + 1) with (S (term_calls e)) by lia. eassumption.
  - left. split; [done|]. eexists 0, _. split; [lia|]. split; [lia|].
    rewrite Nat.add_0_r. eassumption.
Qed.

Lemma validate_step_content (title content : str) (e : Env) :
  exists e',
    validate_step title content e
    = (Ok (content_after (auto_sanitize (self e)) title content), e').
Proof.
  unfold validate_step, content_after, bind, ret, get_self, set_publish_status.
  destruct (validate title content) as [v issues]. cbn [fst].
  destruct v; cbn [negb]; [eauto|].
  destruct (auto_sanitize (self e)).
  - destruct (fst (validate title (sanitize_content content))); cbn [negb]; eauto.
  - cbn [negb]. eauto.
Qed.

(** Steps 4 and 5 in full: the requests sent. *)
Lemma publish_step_shape (topic : Topic) (title content : str) (e : Env) :
  exists cats tags k1 k2 res e',
    publish_step w topic title content e = (Ok res, e')
    /\ sent e e'
         (replicate k1 (post_data_of title content (publish_status (self e))
                                     cats tags (hours_passed (self e)))
          ++ replicate k2 (post_data_of title content (u "draft")
                                        cats tags (hours_passed (self e))))
    /\ 1 <= k1 <= 3 /\ k2 <= 3 /\ (k2 = 0 \/ k1 = 3)
    /\ (cats = [] \/ length cats = 3) /\ (tags = [] \/ length tags = 4).
Proof.
  unfold publish_step, bind, get_self.
  destruct (get_categories_all_or_nothing topic e) as (cats & e1 & -> & Hf1 & Hc).
  destruct (get_tags_all_or_nothing topic e1) as (tags & e2 & -> & Hf2 & Ht).
  pose proof (frame_trans _ _ _ Hf1 Hf2) as Hf.
  assert (Hself : self e2 = self e) by apply Hf.
  rewrite Hself. fold (hours_passed (self e)).
  destruct (publish_with_fallback_shape w title content (publish_status (self e))
              cats tags (hours_passed (self e)) e2)
    as (k1 & k2 & res & e' & -> & Hs & Hk1 & Hk2 & Hor & _).
  exists cats, tags, k1, k2, res, e'. split; [done|].
  split; [by eapply frame_sent|]. repeat (split; [done|]).
  split; [destruct Hc as [[? _]|[? _]]; auto | destruct Ht as [[? _]|[? _]]; auto].
Qed.

(** The requests a run sends. *)
Lemma run_requests (e : Env) :
  exists b e' new,
    run w e = (Ok b, e')
    /\ wp_requests e' = wp_requests e ++ new
    /\ match generate_unique_topic w e with
       | (Raise _, _) => new = [] /\ b = false /\ self e' = self e
       | (Ok topic, e1) =>
           match generate_content w topic e1 with
           | (Raise _, _) => new = [] /\ b = false /\ self e' = self e
           | (Ok (title, content), _) =>
               exists cats tags k1 k2,
                 let c := content_after (auto_sanitize (self e)) title content in
                 new = replicate k1 (post_data_of title c (publish_status (self e'))
                                                  cats tags (hours_passed (self e')))
                       ++ replicate k2 (post_data_of title c (u "draft")
                                                     cats tags (hours_passed (self e')))
                 /\ 1 <= k1 <= 3 /\ k2 <= 3 /\ (k2 = 0 \/ k1 = 3)
                 /\ (cats = [] \/ length cats = 3)
                 /\ (tags = [] \/ length tags = 4)
           end
       end.
Proof.
  rewrite run_unfold.
  destruct (generate_unique_topic w e) as [[topic|x] e1] eqn:Hg.
  2: { apply attempt_loop_frame in Hg as (Hself & Hdb & Hreq).
       exists false, e1, []. rewrite app_nil_r. done. }
  apply attempt_loop_frame in Hg as (Hself1 & Hdb1 & Hreq1).
  destruct (generate_content w topic e1) as [[[title content]|x] e2] eqn:Hc.
  2: { apply generate_content_frame in Hc as (Hself & Hdb & Hreq).
       exists false, e2, []. rewrite app_nil_r.
       rewrite Hself, Hreq, Hself1, Hreq1. done. }
  apply generate_content_frame in Hc as (Hself2 & Hdb2 & Hreq2).
  destruct (validate_step_content title content e2) as (e3 & Hv).
  destruct (validate_step_spec title content e2)
    as (c & e3' & Hv' & Hdb3 & Hreq3 & Hauto3 & Hhours3 & Hst3).
  rewrite Hv in Hv'. inversion Hv'; subst c e3'. clear Hv'. rewrite Hv.
  rewrite Hself2, Hself1.
  set (c := content_after (auto_sanitize (self e)) title content) in *.
  destruct (publish_step_shape topic title c e3)
    as (cats & tags & k1 & k2 & res & e4 & -> & (Hself4 & Hdb4 & Hreq4)
        & Hk1 & Hk2 & Hor & Hcats & Htags).
  destruct (record_step_spec topic title res e4) as (row & -> & _).
  eexists; eexists; eexists. split; [reflexivity|].
  cbn [wp_requests set_db self].
  split; [by rewrite Hreq4, Hreq3, Hreq2, Hreq1|].
  exists cats, tags, k1, k2. rewrite Hself4. done.
Qed.

Lemma run_keeps_fields (e : Env) :
  auto_sanitize (self (snd (run w e))) = auto_sanitize (self e)
  /\ schedule_hours (self (snd (run w e))) = schedule_hours (self e).
Proof.
  rewrite run_unfold.
  destruct (generate_unique_topic w e) as [[topic|x] e1] eqn:Hg;
    apply attempt_loop_frame in Hg as (Hself1 & _);
    [|cbn [snd]; by rewrite Hself1].
  destruct (generate_content w topic e1) as [[[title content]|x] e2] eqn:Hc;
    apply generate_content_frame in Hc as (Hself2 & _);
    [|cbn [snd]; by rewrite Hself2, Hself1].
  destruct (validate_step_spec title content e2)
    as (c & e3 & -> & _ & _ & Hauto3 & Hhours3 & _).
  destruct (publish_step_spec w topic title c e3)
    as (res & e4 & new & -> & (Hself4 & _) & _).
  destruct (record_step_spec topic title res e4) as (row & -> & _).
  cbn [snd self set_db].
  by rewrite Hself4, Hauto3, Hhours3, Hself2, Hself1.
Qed.



(** One run: the rows it adds are none or one, with a key that was not
    in the ledger. *)
Lemma run_ledger_step (e : Env) :
  db (snd (run w e)) = db e
  \/ exists row, db (snd (run w e)) = db e ++ [row]
                 /\ row_key row ∉ (row_key <$> db e).
Proof.
  destruct (run_spec w e) as (b & e' & new & -> & _ & _ & Hcase). cbn [snd].
  destruct (generate_unique_topic w e) as [[topic|x] e1] eqn:Hg.
  2: { left. tauto. }
  destruct (generate_content w topic e1) as [[[title content]|x] e2].
  2: { left. tauto. }
  destruct Hcase as (_ & _ & row & res & Hdb & Hkey & _).
  right. exists row. split; [done|]. rewrite Hkey.
  by apply generate_unique_topic_fresh in Hg as [? _].
Qed.

Lemma runs_ledger (n : nat) (e : Env) :
  exists rows,
    db (runs w n e) = db e ++ rows
    /\ length rows <= n
    /\ NoDup (row_key <$> rows)
    /\ (forall k, k ∈ row_key <$> rows -> k ∉ (row_key <$> db e)).
Proof.
  revert e. induction n as [|n IH]; intros e.
  - exists []. cbn [runs]. rewrite app_nil_r. split; [done|]. split; [done|].
    split; [constructor|]. intros k Hk. by apply elem_of_nil in Hk.
  - cbn [runs]. destruct (IH (snd (run w e))) as (rows & Hdb & Hlen & Hnd & Hold).
    destruct (run_ledger_step e) as [Hsame|(row & Hrow & Hfresh)].
    + exists rows. rewrite Hdb, Hsame. split; [done|]. split; [lia|].
      split; [done|]. intros k Hk. rewrite <- Hsame. by apply Hold.
    + exists (row :: rows). rewrite Hdb, Hrow, <- app_assoc.
      split; [done|]. split; [simpl; lia|].
      assert (Hsplit : forall k, k ∈ row_key <$> rows ->
                k <> row_key row /\ k ∉ (row_key <$> db e)).
      { intros k Hk. specialize (Hold k Hk).
        rewrite Hrow, fmap_app, elem_of_app in Hold.
        change (row_key <$> [row]) with [row_key row] in Hold. split.
        - intros ->. apply Hold. right. by left.
        - intros Hin. apply Hold. by left. }
      rewrite fmap_cons. split.
      * constructor; [|done]. intros Hin. by destruct (Hsplit _ Hin).
      * intros k Hk. apply elem_of_cons in Hk as [->|Hk]; [done|].
        by apply Hsplit.
Qed.

End RunMore.

(** X14. [_get_categories] and [_get_tags] never raise and give all the
    terms or none: three category ids, or four tag ids, when every
    taxonomy request succeeded, the empty list as soon as one fails, the
    ids obtained before the failure being dropped. *)
Theorem taxonomy_all_or_nothing (w : World) (topic : Topic) (e : Env) :
  (exists l e',
     get_categories w topic e = (Ok l, e')
     /\ db e' = db e /\ wp_requests e' = wp_requests e
     /\ ((l = [] /\ exists i name, i < 3 /\ term_calls e' = term_calls e + S i
                                   /\ wp_term w (term_calls e + i) name = None)
         \/ (length l = 3 /\ term_calls e' = term_calls e + 3)))
  /\ (exists l e',
        get_tags w topic e = (Ok l, e')
        /\ db e' = db e /\ wp_requests e' = wp_requests e
        /\ ((l = [] /\ exists i name, i < 4 /\ term_calls e' = term_calls e + S i
                                      /\ wp_term w (term_calls e + i) name = None)
            \/ (length l = 4 /\ term_calls e' = term_calls e + 4))).
Proof.
  split.
  - destruct (get_categories_all_or_nothing w topic e)
      as (l & e' & Hrun & (_ & Hdb & Hreq) & Hl).
    exists l, e'. done.
  - destruct (get_tags_all_or_nothing w topic e)
      as (l & e' & Hrun & (_ & Hdb & Hreq) & Hl).
    exists l, e'. done.
Qed.

(** X15. Whatever happens in them, [n] runs one after the other only
    append to the ledger: at most [n] rows, whose keys are pairwise
    distinct and were not in the ledger before.  No row is changed or
    removed and no topic is recorded twice. *)
Theorem runs_append_unique_keys (w : World) (n : nat) (e : Env) :
  exists rows,
    db (runs w n e) = db e ++ rows
    /\ length rows <= n
    /\ NoDup (row_key <$> rows)
    /\ (forall k, k ∈ row_key <$> rows -> k ∉ (row_key <$> db e)).
Proof. apply runs_ledger. Qed.

(** X16. A run always returns.  It contacts the CMS exactly when the
    content was generated: no request when the allocation or the
    generation failed (the run returns False and leaves the publisher's
    fields alone), between one and six post requests otherwise. *)
Theorem run_contacts_cms_after_generation (w : World) (e : Env) :
  exists b e' new,
    run w e = (Ok b, e')
    /\ wp_requests e' = wp_requests e ++ new
    /\ match generate_unique_topic w e with
       | (Raise _, _) => new = [] /\ b = false /\ self e' = self e
       | (Ok topic, e1) =>
           match generate_content w topic e1 with
           | (Raise _, _) => new = [] /\ b = false /\ self e' = self e
           | (Ok _, _) => 1 <= length new <= 6
           end
       end.
Proof.
  destruct (run_requests w e) as (b & e' & new & Hrun & Hreq & Hcase).
  exists b, e', new. split; [done|]. split; [done|].
  destruct (generate_unique_topic w e) as [[topic|x] e1]; [|done].
  destruct (generate_content w topic e1) as [[[title content]|x] e2]; [|done].
  destruct Hcase as (cats & tags & k1 & k2 & -> & Hk1 & Hk2 & _).
  rewrite length_app, !length_replicate. lia.
Qed.



(** X18. When the content is valid, at once or after the sanitize pass,
    the run leaves [publish_status] as configured and its first request
    to the CMS asks for that status, with the generated title; the
    request carries a date only for status [future] with a non-zero
    [schedule_hours]. *)
Theorem valid_content_keeps_status (w : World) (e e1 e2 : Env)
    (topic : Topic) (title content : str) :
  generate_unique_topic w e = (Ok topic, e1) ->
  generate_content w topic e1 = (Ok (title, content), e2) ->
  still_invalid (auto_sanitize (self e)) title content = false ->
  exists b e' d rest,
    run w e = (Ok b, e')
    /\ publish_status (self e') = publish_status (self e)
    /\ wp_requests e' = wp_requests e ++ d :: rest
    /\ pd_status d = publish_status (self e)
    /\ pd_title d = title
    /\ pd_content d = content_after (auto_sanitize (self e)) title content
    /\ pd_date d
       = (if eqb_str (publish_status (self e)) (u "future")
             && truthy (schedule_hours (self e))
          then schedule_hours (self e) else None).
Proof.
  intros Hg Hc Hinv.
  destruct (run_requests w e) as (b & e' & new & Hrun & Hreq & Hcase).
  destruct (run_spec w e) as (b' & e'' & new' & Hrun' & _ & _ & Hcase').
  rewrite Hrun in Hrun'. inversion Hrun'; subst b' e''. clear Hrun'.
  rewrite Hg, Hc in Hcase, Hcase'. rewrite Hinv in Hcase'.
  destruct Hcase' as (Hst & _).
  destruct Hcase as (cats & tags & k1 & k2 & Hnew & Hk1 & _).
  destruct k1 as [|k1]; [lia|]. cbn [replicate] in Hnew.
  rewrite <- app_comm_cons in Hnew.
  eexists b, e', _, _. split; [done|]. split; [done|].
  split; [by rewrite Hreq, Hnew|].
  cbn [pd_status pd_title pd_content pd_date post_data_of].
  split; [done|]. split; [done|]. split; [done|].
  unfold hours_passed.
  assert (Hfields : schedule_hours (self e') = schedule_hours (self e)).
  { destruct (run_keeps_fields w e) as (Ha & Hh). by rewrite Hrun in Hh. }
  rewrite Hst, Hfields.
  destruct (eqb_str (publish_status (self e)) (u "future")) eqn:Hf;
    destruct (truthy (schedule_hours (self e))) eqn:Ht;
    cbn [andb]; rewrite ?Ht; done.
Qed.

Lemma valid_content_keeps_status_witness :
  exists b e' d rest,
    run valid_world
        (initial_env (mkContentPublisher (u "publish") true None) [])
    = (Ok b, e')
    /\ publish_status (self e') = u "publish"
    /\ wp_requests e' = [] ++ d :: rest.
Proof.
  destruct (valid_content_keeps_status valid_world
              (initial_env (mkContentPublisher (u "publish") true None) [])
              _ _ _ _ _
              ltac:(vm_compute; reflexivity)
              ltac:(vm_compute; reflexivity)
              ltac:(vm_compute; reflexivity))
    as (b & e' & d & rest & Hrun & Hst & Hreq & _).
  exists b, e', d, rest. split; [exact Hrun|]. split; [exact Hst | exact Hreq].
Defined.

(** X19. Whatever the current time, also inside a publish window,
    [get_next_publish_time] returns a time strictly later than [now]:
    today or tomorrow, at hour 10, 14 or 18, on the minute drawn and
    second 0; a time of tomorrow is always at hour 10. *)
Theorem next_publish_time_is_later (now : DateTime) (raw : nat) :
  let t := get_next_publish_time now raw in
  dt_ltb now t = true
  /\ (hour t = 10 \/ hour t = 14 \/ hour t = 18)
  /\ minute t = raw mod 60
  /\ second t = 0 /\ microsecond t = 0
  /\ (date t = date now \/ (date t = (date now + 1)%Z /\ hour t = 10)).
Proof.
  unfold get_next_publish_time, target_times. cbn [first_target].
  destruct (dt_ltb now (replace_time now 10 (raw mod 60))) eqn:H10.
  { cbn zeta. split; [exact H10|]. unfold replace_time. cbn [hour minute second microsecond date]. tauto. }
  destruct (dt_ltb now (replace_time now 14 (raw mod 60))) eqn:H14.
  { cbn zeta. split; [exact H14|]. unfold replace_time. cbn [hour minute second microsecond date]. tauto. }
  destruct (dt_ltb now (replace_time now 18 (raw mod 60))) eqn:H18.
  { cbn zeta. split; [exact H18|]. unfold replace_time. cbn [hour minute second microsecond date]. tauto. }
  cbn zeta. split; [apply dt_ltb_next_day|].
  unfold replace_time, add_days. cbn [hour minute second microsecond date]. tauto.
Qed.

(** ** The HTML formatter *)

Section HtmlFacts.

Lemma is_nl_true (c : N) : is_nl c = true <-> c = NL.
Proof. unfold is_nl. apply N.eqb_eq. Qed.

Lemma is_nl_false (c : N) : is_nl c = false <-> c <> NL.
Proof. unfold is_nl. apply N.eqb_neq. Qed.

Lemma lines_aux_one_line (cur a : str) :
  one_line a -> lines_aux cur a = [rev cur ++ a].
Proof.
  revert cur. induction a as [|c a IH]; intros cur Ha; simpl.
  - by rewrite app_nil_r.
  - inversion Ha as [|? ? Hc Ha']; subst.
    apply is_nl_false in Hc. rewrite Hc, IH by done.
    simpl. by rewrite <- app_assoc.
Qed.

Lemma lines_aux_nl (cur a b : str) :
  one_line a ->
  lines_aux cur (a ++ NL :: b) = (rev cur ++ a) :: lines_aux [] b.
Proof.
  revert cur. induction a as [|c a IH]; intros cur Ha; simpl.
  - by rewrite app_nil_r.
  - inversion Ha as [|? ? Hc Ha']; subst.
    apply is_nl_false in Hc. rewrite Hc, IH by done.
    simpl. by rewrite <- app_assoc.
Qed.

Lemma lines_aux_ne (cur s : str) : lines_aux cur s <> [].
Proof.
  revert cur. induction s as [|c s IH]; intros cur; simpl; [done|].
  destruct (is_nl c); [done | apply IH].
Qed.

Lemma lines_aux_all_one_line (cur s : str) :
  one_line cur -> Forall one_line (lines_aux cur s).
Proof.
  revert cur. induction s as [|c s IH]; intros cur Hcur; simpl.
  - constructor; [|constructor]. unfold one_line. by apply Forall_rev.
  - destruct (is_nl c) eqn:Hc.
    + constructor; [unfold one_line; by apply Forall_rev|].
      apply IH. constructor.
    + apply IH. constructor; [by apply is_nl_false | done].
Qed.

Lemma lines_all_one_line (s : str) : Forall one_line (lines s).
Proof. apply lines_aux_all_one_line. constructor. Qed.

(** Splitting what was joined gives the parts back. *)
Lemma lines_join (parts : list str) :
  parts <> [] -> Forall one_line parts -> lines (join [NL] parts) = parts.
Proof.
  unfold lines. induction parts as [|x parts IH]; intros Hne Hall; [done|].
  inversion Hall as [|? ? Hx Hrest]; subst.
  destruct parts as [|y parts].
  - cbn [join]. by rewrite lines_aux_one_line.
  - change (join [NL] (x :: y :: parts)) with (x ++ NL :: join [NL] (y :: parts)).
    rewrite lines_aux_nl by done. simpl. f_equal. by apply IH.
Qed.

Lemma lstrip_Forall (P : N -> Prop) (s : str) : Forall P s -> Forall P (lstrip s).
Proof.
  induction 1 as [|c s Hc Hs IH]; simpl; [constructor|].
  destruct (is_space c); [done | by constructor].
Qed.

Lemma strip_Forall (P : N -> Prop) (s : str) : Forall P s -> Forall P (strip s).
Proof.
  intros H. unfold strip, rstrip.
  by apply Forall_rev, lstrip_Forall, Forall_rev, lstrip_Forall.
Qed.

Lemma replace_scan_Forall (P : N -> Prop) (old : str) (k : nat) (s : str) :
  Forall P s -> Forall P (replace_scan old [] k s).
Proof.
  intros H. revert k. induction H as [|c s Hc Hs IH]; intros k; simpl; [constructor|].
  destruct k; [|apply IH].
  destruct (starts_with old (c :: s)); [apply IH | constructor; [done | apply IH]].
Qed.

Lemma format_line_one_line (line : str) : one_line line -> one_line (format_line line).
Proof.
  intros H. unfold format_line, one_line.
  assert (Htag : forall tag : string, Forall (fun c => c <> NL) (u tag) ->
                 forall x, Forall (fun c => c <> NL) x ->
                 Forall (fun c => c <> NL) (u tag ++ x)).
  { intros tag Ht x Hx. by apply Forall_app. }
  assert (H2 : forall a b x, Forall (fun c => c <> NL) a ->
                 Forall (fun c => c <> NL) b -> Forall (fun c => c <> NL) x ->
                 Forall (fun c => c <> NL) (a ++ x ++ b)).
  { intros a b x Ha Hb Hx. repeat (apply Forall_app; split); done. }
  destruct (starts_with (u "## ") line).
  { apply H2; [repeat constructor; discriminate..|].
    by apply strip_Forall, replace_scan_Forall. }
  destruct (starts_with (u "### ") line).
  { apply H2; [repeat constructor; discriminate..|].
    by apply strip_Forall, replace_scan_Forall. }
  destruct (strip line); [constructor|].
  apply H2; [repeat constructor; discriminate..|done].
Qed.

Lemma lstrip_nil (s : str) : lstrip s = [] -> forallb is_space s = true.
Proof.
  induction s as [|c s IH]; simpl; [done|].
  destruct (is_space c); [exact IH | discriminate].
Qed.

Lemma lstrip_spaces (s : str) : forallb is_space s = true -> lstrip s = [].
Proof.
  induction s as [|c s IH]; simpl; [done|].
  destruct (is_space c); [exact IH | discriminate].
Qed.

Lemma forallb_rev (f : N -> bool) (s : str) : forallb f (rev s) = forallb f s.
Proof.
  induction s as [|c s IH]; [done|].
  simpl. rewrite forallb_app, IH. simpl. rewrite andb_true_r. apply andb_comm.
Qed.

Lemma lstrip_all_space (s : str) :
  forallb is_space (lstrip s) = true -> forallb is_space s = true.
Proof.
  induction s as [|c s IH]; simpl; [done|].
  destruct (is_space c) eqn:Hc; [exact IH|].
  simpl. by rewrite Hc.
Qed.

(** Only a line of whitespace strips to nothing. *)
Lemma strip_nil (s : str) : strip s = [] <-> forallb is_space s = true.
Proof.
  unfold strip, rstrip. split.
  - intros H. apply (f_equal (@rev N)) in H. rewrite rev_involutive in H.
    cbn [rev] in H. apply lstrip_nil in H. rewrite forallb_rev in H.
    by apply lstrip_all_space.
  - intros H. rewrite (lstrip_spaces s H). done.
Qed.

Lemma heading_not_blank (marker line : str) :
  starts_with (35%N :: marker) line = true -> strip line <> [].
Proof.
  intros Hs Hnil. apply strip_nil in Hnil.
  destruct line as [|c line]; [done|]. cbn [starts_with forallb] in Hs, Hnil.
  apply andb_true_iff in Hs as [Hc _]. apply N.eqb_eq in Hc. subst c.
  apply andb_true_iff in Hnil as [Hsp _]. vm_compute in Hsp. discriminate.
Qed.

Lemma format_line_empty (line : str) :
  format_line line = [] <-> blank line = true.
Proof.
  unfold format_line, blank.
  destruct (starts_with (u "## ") line) eqn:H2.
  { pose proof (heading_not_blank _ _ H2). split; [done|].
    destruct (strip line); done. }
  destruct (starts_with (u "### ") line) eqn:H3.
  { pose proof (heading_not_blank _ _ H3). split; [done|].
    destruct (strip line); done. }
  destruct (strip line); done.
Qed.

Lemma format_line_h2 (line : str) :
  starts_with (u "<h2>") (format_line line) = starts_with (u "## ") line.
Proof.
  unfold format_line.
  destruct (starts_with (u "## ") line); [apply starts_with_app|].
  destruct (starts_with (u "### ") line); [done|].
  destruct (strip line); done.
Qed.

Lemma filter_fmap_length (f : str -> bool) (g : str -> str) (h : str -> bool)
    (l : list str) :
  (forall x, f (g x) = h x) ->
  length (List.filter f (g <$> l)) = length (List.filter h l).
Proof.
  intros Hfg. induction l as [|x l IH]; [done|].
  rewrite fmap_cons. cbn [List.filter]. rewrite Hfg.
  destruct (h x); simpl; by rewrite IH.
Qed.

Lemma format_content_html_lines_eq (content : str) :
  lines (format_content_html content) = format_line <$> lines content.
Proof.
  unfold format_content_html. apply lines_join.
  - pose proof (lines_aux_ne [] content) as Hne. unfold lines.
    destruct (lines_aux [] content); done.
  - apply Forall_fmap. eapply Forall_impl; [apply lines_all_one_line|].
    intros line Hl. by apply format_line_one_line.
Qed.

End HtmlFacts.

(** X20. [format_content_html] works line by line and keeps the line
    structure: splitting its result at line feeds gives the formatted
    lines of the content, one for one, so the number of lines is
    unchanged; a line comes out empty exactly when it was blank. *)
Theorem format_content_html_lines (content : str) :
  lines (format_content_html content) = format_line <$> lines content
  /\ length (lines (format_content_html content)) = length (lines content)
  /\ Forall (fun line => format_line line = [] <-> blank line = true)
            (lines content).
Proof.
  pose proof (format_content_html_lines_eq content) as H.
  split; [done|]. split; [by rewrite H, length_fmap|].
  apply Forall_forall. intros line _. apply format_line_empty.
Qed.

(** X21. The [<h2>] lines of the HTML are the lines of the content that
    begin with ["## "]: the formatter produces as many [<h2>] headings
    as there are such lines (a test by prefix, not the pattern of the
    validators). *)
Theorem format_content_html_h2_count (content : str) :
  length (List.filter (starts_with (u "<h2>")) (lines (format_content_html content)))
  = heading_lines content.
Proof.
  rewrite format_content_html_lines_eq.
  unfold heading_lines. apply filter_fmap_length. apply format_line_h2.
Qed.

Example format_content_html_sample :
  format_content_html (u "## One" ++ [NL] ++ u "text" ++ [NL] ++ u "  " ++ [NL]
                       ++ u "### Two" ++ [NL] ++ u "##" ++ [9%N] ++ u "Three")
  = u "<h2>One</h2>" ++ [NL] ++ u "<p>text</p>" ++ [NL] ++ [NL]
    ++ u "<h3>Two</h3>" ++ [NL] ++ u "<p>##" ++ [9%N] ++ u "Three</p>".
Proof. vm_compute. reflexivity. Qed.

(** ** The stricter validator *)

Section SeoFacts.

Lemma seo_validate_cases (title content : str) :
  seo_validate title content
  = (holds title content NoForbidden && seo_check_disclaimer content
     && holds title content Headings && holds title content MinLength,
     (match check_forbidden_words (title ++ u " " ++ content) with
      | [] => []
      | found => [SeoForbidden (take 3 found)]
      end)
     ++ (if seo_check_disclaimer content then [] else [SeoMissingDisclaimer])
     ++ (if holds title content Headings then [] else [SeoMissingHeadings])
     ++ (if holds title content MinLength then []
         else [SeoTooShort (length content)])).
Proof.
  unfold seo_validate. rewrite holds_no_forbidden.
  unfold holds, seo_check_headings.
  rewrite (Nat.leb_antisym (length content) 1000).
  destruct (check_forbidden_words (title ++ u " " ++ content));
    destruct (seo_check_disclaimer content);
    destruct (3 <=? h2_findall_count content);
    destruct (length content <? 1000); reflexivity.
Qed.

End SeoFacts.

(** X22. [SEOValidator.validate] checks the same four rules as
    [ContentValidator.validate] except for the disclaimer, where it asks
    for all three keyword fragments instead of the one phrase: the two
    report the same violations of the other rules, in the same order;
    the SEO verdict is the conjunction of its four rules, and its
    forbidden-word message names the first three words found only. *)
Theorem validators_differ_on_disclaimer_only (title content : str) :
  List.filter not_disclaimer (seo_rule_of <$> snd (seo_validate title content))
  = List.filter not_disclaimer (rule_of <$> snd (validate title content))
  /\ fst (seo_validate title content)
     = holds title content NoForbidden && seo_check_disclaimer content
       && holds title content Headings && holds title content MinLength
  /\ Forall (fun i => match i with
                      | SeoForbidden ws =>
                          ws = take 3 (check_forbidden_words (title ++ u " " ++ content))
                          /\ 1 <= length ws <= 3
                      | _ => True
                      end)
            (snd (seo_validate title content)).
Proof.
  rewrite seo_validate_cases, validate_cases. cbn [fst snd].
  split; [|split; [done|]].
  - unfold holds at 3. fold (check_disclaimer content).
    destruct (check_forbidden_words (title ++ u " " ++ content));
      destruct (seo_check_disclaimer content);
      destruct (check_disclaimer content);
      destruct (holds title content Headings);
      destruct (holds title content MinLength); reflexivity.
  - repeat (apply Forall_app; split).
    + destruct (check_forbidden_words (title ++ u " " ++ content)) as [|a l];
        [constructor|]. constructor; [|constructor]. split; [done|].
      rewrite length_take. cbn [length]. lia.
    + destruct (seo_check_disclaimer content); repeat constructor.
    + destruct (holds title content Headings); repeat constructor.
    + destruct (holds title content MinLength); repeat constructor.
Qed.

(** ** The weekly cycle *)

Section WeeklyFacts.

Lemma count_weekly_app (f : WeeklyRow -> bool) (l k : list WeeklyRow) :
  count_weekly f (l ++ k) = count_weekly f l + count_weekly f k.
Proof. induction l as [|r l IH]; simpl; [done|]. rewrite IH. lia. Qed.

Lemma is_weekly_published_key (rows : list WeeklyRow) (m ws : str) :
  is_weekly_fortune_published_in rows m ws = true
  <-> (m, ws) ∈ weekly_key <$> rows.
Proof.
  unfold is_weekly_fortune_published_in. rewrite Nat.ltb_lt.
  induction rows as [|r rows IH].
  - simpl. split; [lia|]. intros H. by apply elem_of_nil in H.
  - rewrite fmap_cons, elem_of_cons, <- IH. cbn [count_weekly].
    unfold weekly_matches, weekly_key.
    destruct (eqb_str (wk_mbti r) m) eqn:Em;
      destruct (eqb_str (wk_week_start r) ws) eqn:Es; cbn [andb].
    1: { apply eqb_str_eq in Em, Es. subst. split; [by left | lia]. }
    all: split; [intros H; right; lia|];
      intros [Heq|H]; [|lia]; exfalso; inversion Heq; subst;
      rewrite ?eqb_str_refl in *; discriminate.
Qed.

Lemma is_weekly_published_app (rows new : list WeeklyRow) (m ws : str) :
  is_weekly_fortune_published_in rows m ws = true ->
  is_weekly_fortune_published_in (rows ++ new) m ws = true.
Proof.
  rewrite !is_weekly_published_key, fmap_app, elem_of_app. by left.
Qed.

End WeeklyFacts.

(** X23. After [save_weekly_fortune] the pair (MBTI type, week start)
    is reported as published, whatever the week end, title and status
    saved, and every other pair is reported as before. *)
Theorem save_weekly_fortune_then_published (rows : list WeeklyRow)
    (m ws we t : str) (pid : option Z) (url : option str) (st : str)
    (err : option str) (m' ws' : str) :
  is_weekly_fortune_published_in
    (save_weekly_fortune_in rows m ws we t pid url st err) m' ws'
  = is_weekly_fortune_published_in rows m' ws'
    || (eqb_str m' m && eqb_str ws' ws).
Proof.
  unfold save_weekly_fortune_in, is_weekly_fortune_published_in.
  rewrite count_weekly_app. cbn [count_weekly].
  unfold weekly_matches at 2. cbn [wk_mbti wk_week_start].
  rewrite (eqb_str_sym m m'), (eqb_str_sym ws ws').
  destruct (eqb_str m' m && eqb_str ws' ws).
  - rewrite orb_true_r. apply Nat.ltb_lt. lia.
  - rewrite orb_false_r. f_equal. lia.
Qed.

(** X24. [get_week_dates] returns the Monday on or before today and the
    Sunday six days after it, and every day of that week gives the same
    pair: the week start used as the ledger key is the same all week. *)
Theorem get_week_dates_week (today : Z) :
  let '(monday, sunday) := get_week_dates today in
  weekday monday = 0%Z
  /\ (monday <= today <= sunday)%Z
  /\ sunday = (monday + 6)%Z
  /\ forall day, (monday <= day <= sunday)%Z ->
                 get_week_dates day = (monday, sunday).
Proof.
  unfold get_week_dates, weekday.
  pose proof (Z.mod_pos_bound (today + 6) 7 ltac:(lia)) as Hb.
  pose proof (Z.div_mod (today + 6) 7 ltac:(lia)) as Hdm.
  set (r := ((today + 6) mod 7)%Z) in *.
  set (q := ((today + 6) / 7)%Z) in *.
  assert (Hmon : (today - r + 6 = 7 * q)%Z) by lia.
  split.
  { rewrite Hmon, Z.mul_comm. apply Z.mod_mul. lia. }
  split; [lia|]. split; [done|].
  intros day Hday.
  assert (Hk : ((day + 6) mod 7 = day - (today - r))%Z).
  { replace (day + 6)%Z with ((day - (today - r)) + q * 7)%Z by lia.
    rewrite Z.mod_add by lia. apply Z.mod_small. lia. }
  rewrite Hk. f_equal; lia.
Qed.

Section WeeklyRun.

Variable w : WWorld.

Lemma wretry3_unfold {A} (m : MW A) (e : WEnv) :
  wretry 3 m e
  = match m e with
    | (Ok a, e1) => (Ok a, e1)
    | (Raise _, e1) =>
        match m e1 with
        | (Ok a, e2) => (Ok a, e2)
        | (Raise _, e2) =>
            match m e2 with
            | (Ok a, e3) => (Ok a, e3)
            | (Raise _, e3) => (Raise RetryError, e3)
            end
        end
    end.
Proof.
  unfold wretry, wraise. cbn [Nat.sub wretry_loop]. unfold wcatch.
  destruct (m e) as [[a|x] e1]; [done|].
  destruct (m e1) as [[a|y] e2]; [done|].
  by destruct (m e2) as [[a|z] e3].
Qed.

(** A relation that every attempt respects is respected by the three. *)
Lemma wretry3_pres {A} (m : MW A) (R : WEnv -> WEnv -> Prop) :
  (forall a b c, R a b -> R b c -> R a c) ->
  (forall e r e', m e = (r, e') -> R e e') ->
  forall e r e', wretry 3 m e = (r, e') -> R e e'.
Proof.
  intros Htrans Hm e r e'. rewrite wretry3_unfold.
  destruct (m e) as [[a|x] e1] eqn:H1; apply Hm in H1.
  { intros [= <- <-]. done. }
  destruct (m e1) as [[a|y] e2] eqn:H2; apply Hm in H2.
  { intros [= <- <-]. eauto. }
  destruct (m e2) as [[a|z] e3] eqn:H3; apply Hm in H3;
    intros [= <- <-]; eauto.
Qed.

Lemma generate_weekly_fortune_frame (m : str) (e : WEnv) r e' :
  generate_weekly_fortune w m e = (r, e') -> weekly e' = weekly e.
Proof.
  apply (wretry3_pres _ (fun a b => weekly b = weekly a)).
  - intros a b c Hab Hbc. congruence.
  - clear. intros e r e'. unfold generate_weekly_fortune_attempt.
    destruct (ww_llm w (ww_llm_calls e) m); by intros [= <- <-].
Qed.

(** What one attempt of [publish_post] sends. *)
Lemma w_publish_post_attempt_sends (title content st : str)
    (categories tags : list Z) (e : WEnv) r e' :
  w_publish_post_attempt w title content st categories tags e = (r, e') ->
  let d := mkPostData title content st (nonempty categories)
                      (nonempty tags) None in
  let dd := mkPostData title content (u "draft") (nonempty categories)
                       (nonempty tags) None in
  weekly e' = weekly e
  /\ match r with
     | Ok p =>
         ww_requests e' = ww_requests e ++ [d]
         \/ (eqb_str st (u "draft") = false
             /\ ww_requests e' = ww_requests e ++ [d; dd]
             /\ posted_status p = u "draft")
     | Raise x =>
         x <> RetryError
         /\ ww_requests e' = ww_requests e
                             ++ (if eqb_str st (u "draft") then [d] else [d; dd])
     end.
Proof.
  unfold w_publish_post_attempt, wcatch, wbind, w_post, wret, wraise.
  cbn [ww_requests weekly].
  destruct (ww_post w (length (ww_requests e)) _) as [p|msg].
  { intros [= <- <-]. cbn. split; [done | by left]. }
  destruct (eqb_str st (u "draft")) eqn:Hst; cbn [negb].
  { intros [= <- <-]. cbn. done. }
  cbn [ww_requests weekly ww_llm_calls ww_term_calls].
  match goal with
  | |- context [ww_post w (length (ww_requests e ++ ?l)) ?d] =>
      destruct (ww_post w (length (ww_requests e ++ l)) d) as [p|msg']
  end;
    intros [= <- <-]; cbn [weekly ww_requests]; rewrite <- app_assoc;
    (split; [done|]); [right; done | done].
Qed.

Lemma w_publish_post_frame (title content st : str)
    (categories tags : list Z) (e : WEnv) r e' :
  w_publish_post w title content st categories tags e = (r, e') ->
  weekly e' = weekly e.
Proof.
  apply (wretry3_pres _ (fun a b => weekly b = weekly a)).
  - intros a b c Hab Hbc. congruence.
  - intros e0 r0 e0' H. by apply w_publish_post_attempt_sends in H as [? _].
Qed.

Lemma weekly_one_spec (st ws we m : str) (e : WEnv) r e' :
  weekly_one w st ws we m e = (r, e') ->
  (is_weekly_fortune_published_in (weekly e) m ws = true
   /\ r = Ok false /\ e' = e)
  \/ (is_weekly_fortune_published_in (weekly e) m ws = false
      /\ ((exists x, r = Raise x) /\ weekly e' = weekly e
          \/ r = Ok true
             /\ exists row, weekly e' = weekly e ++ [row]
                            /\ wk_mbti row = m /\ wk_week_start row = ws
                            /\ wk_week_end row = we)).
Proof.
  unfold weekly_one.
  destruct (is_weekly_fortune_published_in (weekly e) m ws) eqn:Hp.
  { intros [= <- <-]. by left. }
  right. split; [done|]. revert H. unfold wbind at 1.
  destruct (generate_weekly_fortune w m e) as [[tc|x] e1] eqn:Hg;
    apply generate_weekly_fortune_frame in Hg.
  2: { intros [= <- <-]. left. eauto. }
  unfold wbind, w_get_or_create_term. cbn [ww_term_calls].
  match goal with
  | |- context [w_publish_post w ?t ?c ?s ?cs ?ts ?env] =>
      destruct (w_publish_post w t c s cs ts env) as [[p|x] e2] eqn:Hpub
  end; apply w_publish_post_frame in Hpub; cbn [weekly] in Hpub.
  2: { intros [= <- <-]. left. split; [eauto | congruence]. }
  intros [= <- <-]. right. split; [done|]. cbn [weekly].
  unfold save_weekly_fortune_in. eexists. split; [by rewrite Hpub, Hg|]. done.
Qed.

Lemma weekly_loop_grows (st ws we : str) (types : list str) :
  forall (p s : nat) (e : WEnv) r e',
  weekly_loop w st ws we types p s e = (r, e') ->
  exists new,
    weekly e' = weekly e ++ new
    /\ length new <= length types
    /\ Forall (fun row => wk_week_start row = ws /\ wk_week_end row = we
                          /\ wk_mbti row ∈ types) new
    /\ (NoDup (weekly_key <$> weekly e) -> NoDup (weekly_key <$> weekly e')).
Proof.
  induction types as [|m types IH]; intros p s e r e'.
  { intros [= <- <-]. exists []. rewrite app_nil_r. repeat split; [simpl; lia | constructor | done]. }
  cbn [weekly_loop]. unfold wbind at 1.
  destruct (weekly_one w st ws we m e) as [[b|x] e1] eqn:H1;
    apply weekly_one_spec in H1
      as [(Hp & Hr & ->)|(Hp & [([x' Hr] & Hw)|(Hr & row & Hw & Hm & Hs & He)])];
    try discriminate.
  - injection Hr as ->. intros H. apply IH in H as (new & Hn & Hl & Hf & Hd).
    exists new. repeat split; [done | simpl; lia | | done].
    eapply Forall_impl; [exact Hf|]. intros row (? & ? & ?).
    repeat split; [done..|]. by right.
  - injection Hr as ->. intros H. apply IH in H as (new & Hn & Hl & Hf & Hd).
    exists (row :: new). rewrite Hn, Hw, <- app_assoc. split; [done|].
    split; [simpl; lia|]. split.
    + constructor; [repeat split; [done..| rewrite Hm; by left]|].
      eapply Forall_impl; [exact Hf|]. intros r' (? & ? & ?).
      repeat split; [done..|]. by right.
    + intros Hnd. rewrite app_assoc, <- Hw, <- Hn. apply Hd.
      rewrite Hw, fmap_app. apply NoDup_app. split; [done|]. split.
      * intros k Hk Hk'. apply list_elem_of_singleton in Hk'. subst k.
        unfold weekly_key in Hk. rewrite Hm, Hs in Hk.
        apply is_weekly_published_key in Hk. congruence.
      * apply NoDup_singleton.
  - intros [= <- <-]. exists []. rewrite app_nil_r, Hw.
    repeat split; [simpl; lia | constructor | done].
Qed.

Lemma weekly_loop_complete (st ws we : str) (types : list str) :
  forall (p s : nat) (e : WEnv) c e',
  weekly_loop w st ws we types p s e = (Ok c, e') ->
  forall m, m ∈ types ->
            is_weekly_fortune_published_in (weekly e') m ws = true.
Proof.
  induction types as [|m0 types IH]; intros p s e c e' H m Hin.
  { by apply elem_of_nil in Hin. }
  revert H. cbn [weekly_loop]. unfold wbind at 1.
  destruct (weekly_one w st ws we m0 e) as [[b|x] e1] eqn:H1; [|discriminate].
  intros H.
  assert (Hloop : exists p' s',
             weekly_loop w st ws we types p' s' e1 = (Ok c, e')).
  { destruct b; eauto. }
  clear H. destruct Hloop as (p' & s' & Hloop).
  apply elem_of_cons in Hin as [->|Hin]; [|by eapply IH].
  apply weekly_loop_grows in Hloop as (new & -> & _).
  apply is_weekly_published_app.
  apply weekly_one_spec in H1
    as [(Hp & _ & ->)|(_ & [([x' Hr] & _)|(_ & row & -> & Hm & Hs & _)])];
    [done | discriminate |].
  apply is_weekly_published_key. rewrite fmap_app, elem_of_app. right.
  unfold weekly_key. cbn. rewrite Hm, Hs. by left.
Qed.

Lemma weekly_loop_raise (st ws we : str) (types : list str) :
  forall (p s : nat) (e : WEnv) x e',
  weekly_loop w st ws we types p s e = (Raise x, e') ->
  exists m, m ∈ types
            /\ is_weekly_fortune_published_in (weekly e') m ws = false.
Proof.
  induction types as [|m0 types IH]; intros p s e x e'; [discriminate|].
  cbn [weekly_loop]. unfold wbind at 1.
  destruct (weekly_one w st ws we m0 e) as [[b|y] e1] eqn:H1.
  - intros H.
    assert (Hloop : exists p' s',
               weekly_loop w st ws we types p' s' e1 = (Raise x, e')).
    { destruct b; eauto. }
    destruct Hloop as (p' & s' & Hloop).
    apply IH in Hloop as (m & Hin & Hm). exists m. split; [by right | done].
  - intros [= <- <-]. exists m0. split; [by left|].
    apply weekly_one_spec in H1
      as [(_ & Hr & _)|(Hp & [(_ & Hw)|(Hr & _)])]; try discriminate.
    by rewrite Hw.
Qed.

Lemma weekly_loop_idle (st ws we : str) (types : list str) :
  forall (p s : nat) (e : WEnv),
  (forall m, m ∈ types ->
             is_weekly_fortune_published_in (weekly e) m ws = true) ->
  weekly_loop w st ws we types p s e = (Ok (p, s + length types), e).
Proof.
  induction types as [|m0 types IH]; intros p s e H.
  { cbn. unfold wret. by rewrite Nat.add_0_r. }
  cbn [weekly_loop]. unfold wbind, weekly_one.
  rewrite (H m0) by by left. rewrite IH by (intros; apply H; by right).
  cbn [length]. do 3 f_equal. lia.
Qed.

Lemma week_complete_spec (rows : list WeeklyRow) (ws : str) :
  week_complete rows ws = true
  <-> forall m, m ∈ MBTI_TYPES ->
                is_weekly_fortune_published_in rows m ws = true.
Proof.
  unfold week_complete. rewrite forallb_forall.
  split; intros H m Hm; apply H; by apply list_elem_of_In.
Qed.

Lemma get_week_dates_monday (today : Z) :
  weekday today = 0%Z -> get_week_dates today = (today, (today + 6)%Z).
Proof. unfold get_week_dates. intros ->. by rewrite Z.sub_0_r. Qed.

End WeeklyRun.

(** X25. Whatever the services answer, a run of the weekly script only
    appends to the weekly ledger: at most sixteen rows, none unless the
    environment is set and today is a Monday, each for an MBTI type and
    for the week that starts today; and it never creates a second row
    for a pair (type, week start) when the ledger had none.  (Today's
    date is read once; the ledger writes are taken to succeed.) *)
Theorem weekly_main_appends (w : WWorld) (env : Environ) (st : str)
    (today : Z) (e : WEnv) :
  exists new,
    weekly (snd (weekly_main w env st today e)) = weekly e ++ new
    /\ length new <= 16
    /\ (new <> [] ->
        missing env = [] /\ publisher_init env = Ok tt /\ weekday today = 0%Z)
    /\ Forall (fun row => wk_week_start row = ww_iso w today
                          /\ wk_week_end row = ww_iso w (today + 6)%Z
                          /\ wk_mbti row ∈ MBTI_TYPES) new
    /\ (NoDup (weekly_key <$> weekly e) ->
        NoDup (weekly_key <$> weekly (snd (weekly_main w env st today e)))).
Proof.
  assert (Hidle : forall code : Z,
    exists new, weekly (snd (code, e)) = weekly e ++ new
      /\ length new <= 16
      /\ (new <> [] ->
          missing env = [] /\ publisher_init env = Ok tt /\ weekday today = 0%Z)
      /\ Forall (fun row => wk_week_start row = ww_iso w today
                            /\ wk_week_end row = ww_iso w (today + 6)%Z
                            /\ wk_mbti row ∈ MBTI_TYPES) new
      /\ (NoDup (weekly_key <$> weekly e) ->
          NoDup (weekly_key <$> weekly (snd (code, e))))).
  { intros code. exists []. rewrite app_nil_r. cbn [snd].
    split; [done|]. split; [simpl; lia|]. split; [done|].
    split; [constructor | done]. }
  unfold weekly_main.
  destruct (missing env) as [|v vs] eqn:Hmiss; [|apply Hidle].
  destruct (weekday today =? 0)%Z eqn:Hd; cbn [negb]; [|apply Hidle].
  apply Z.eqb_eq in Hd. rewrite (get_week_dates_monday _ Hd).
  unfold wbind, wlift.
  destruct (generator_init env) as [[]|x]; [|apply Hidle].
  destruct (publisher_init env) as [[]|x] eqn:Hinit; [|apply Hidle].
  destruct (weekly_loop w st (ww_iso w today) (ww_iso w (today + 6))
              MBTI_TYPES 0 0 e) as [r e'] eqn:Hl.
  apply weekly_loop_grows in Hl as (new & Hn & Hlen & Hf & Hnd).
  exists new.
  destruct r; cbn [snd]; (split; [done|]); (split; [done|]);
    (split; [done|]); (split; [done|]); done.
Qed.

Section WeeklyMain.

Lemma missing_nil (env : Environ) :
  missing env = [] ->
  generator_init env = Ok tt
  /\ getenv_set (WORDPRESS_USERNAME env) = true
  /\ getenv_set (WORDPRESS_APP_PASSWORD env) = true.
Proof.
  unfold missing, generator_init. cbn [List.filter snd].
  destruct (getenv_set (ANTHROPIC_API_KEY env)); cbn [negb]; [|done].
  destruct (getenv_set (WORDPRESS_URL env)); cbn [negb]; [|done].
  destruct (getenv_set (WORDPRESS_USERNAME env)); cbn [negb]; [|done].
  destruct (getenv_set (WORDPRESS_APP_PASSWORD env)); cbn [negb]; done.
Qed.

(** With the variables set, the constructor of the publisher fails
    exactly when nothing but slashes is left of the site URL. *)
Lemma publisher_init_cases (env : Environ) :
  missing env = [] ->
  match publisher_url env with
  | [] => exists x, publisher_init env = Raise x
  | _ :: _ => publisher_init env = Ok tt
  end.
Proof.
  intros Hm. destruct (missing_nil env Hm) as (_ & Hu & Hp).
  unfold publisher_init. rewrite Hu, Hp.
  destruct (publisher_url env); cbn [andb]; eauto.
Qed.

(** The script on a Monday with the variables set. *)
Lemma weekly_main_monday (w : WWorld) (env : Environ) (st : str)
    (today : Z) (e : WEnv) :
  weekday today = 0%Z ->
  missing env = [] ->
  weekly_main w env st today e
  = match publisher_url env with
    | [] => (1%Z, e)
    | _ :: _ =>
        match weekly_loop w st (ww_iso w today) (ww_iso w (today + 6))
                          MBTI_TYPES 0 0 e with
        | (Ok _, e') => (0%Z, e')
        | (Raise _, e') => (1%Z, e')
        end
    end.
Proof.
  intros Hd Hm. unfold weekly_main. rewrite Hm, Hd. cbn [Z.eqb negb].
  rewrite (get_week_dates_monday _ Hd). unfold wbind, wlift.
  destruct (missing_nil env Hm) as (-> & _ & _).
  pose proof (publisher_init_cases env Hm) as Hi.
  destruct (publisher_url env); [by destruct Hi as (x & ->) | by rewrite Hi].
Qed.

End WeeklyMain.

(** X26. On a Monday, with the four environment variables set, the
    weekly script exits with code 0 exactly when the publisher could be
    built (the site URL is more than slashes) and, at the end, the
    ledger holds a fortune of this week for each of the sixteen MBTI
    types: a failure for one type leaves that type without a row. *)
Theorem weekly_main_exit_code (w : WWorld) (env : Environ) (st : str)
    (today : Z) (e : WEnv) :
  weekday today = 0%Z ->
  missing env = [] ->
  (fst (weekly_main w env st today e) = 0%Z
   <-> publisher_url env <> []
       /\ week_complete (weekly (snd (weekly_main w env st today e)))
                        (ww_iso w today) = true).
Proof.
  intros Hd Hm. rewrite (weekly_main_monday w env st today e Hd Hm).
  destruct (publisher_url env) as [|c url]; cbn [fst snd].
  { split; [done | by intros [? _]]. }
  destruct (weekly_loop w st (ww_iso w today) (ww_iso w (today + 6))
              MBTI_TYPES 0 0 e) as [[c0|x] e'] eqn:Hl; cbn [fst snd].
  - split; [intros _ | done]. split; [done|]. apply week_complete_spec.
    by eapply weekly_loop_complete.
  - split; [done|]. intros [_ Hc]. exfalso.
    apply weekly_loop_raise in Hl as (m & Hin & Hmm).
    rewrite week_complete_spec in Hc. rewrite (Hc m Hin) in Hmm. discriminate.
Qed.

Lemma weekly_main_exit_code_witness :
  weekday 1 = 0%Z
  /\ missing sample_environ = []
  /\ (fst (weekly_main sample_wworld sample_environ (u "publish") 1 empty_wenv)
      = 0%Z
      <-> publisher_url sample_environ <> []
          /\ week_complete
               (weekly (snd (weekly_main sample_wworld sample_environ
                               (u "publish") 1 empty_wenv)))
               (ww_iso sample_wworld 1) = true).
Proof.
  split; [reflexivity|]. split; [reflexivity|].
  apply (weekly_main_exit_code sample_wworld sample_environ (u "publish") 1
           empty_wenv); reflexivity.
Defined.

(** X27. Once the week is complete, running the weekly script again on
    that Monday changes nothing: no text is generated, no request is
    sent and no row is written.  The exit code is 0, or 1 when the
    publisher cannot be built because the site URL is nothing but
    slashes. *)
Theorem weekly_main_rerun (w : WWorld) (env : Environ) (st : str)
    (today : Z) (e : WEnv) :
  weekday today = 0%Z ->
  missing env = [] ->
  week_complete (weekly e) (ww_iso w today) = true ->
  weekly_main w env st today e
  = (match publisher_url env with [] => 1%Z | _ :: _ => 0%Z end, e).
Proof.
  intros Hd Hm Hc. rewrite (weekly_main_monday w env st today e Hd Hm).
  destruct (publisher_url env); [done|].
  rewrite weekly_loop_idle; [done|]. by apply week_complete_spec.
Qed.

Lemma weekly_main_rerun_witness :
  weekly_main sample_wworld sample_environ (u "publish") 1
    (snd (weekly_main sample_wworld sample_environ (u "publish") 1 empty_wenv))
  = (0%Z, snd (weekly_main sample_wworld sample_environ (u "publish") 1
                 empty_wenv)).
Proof.
  apply (weekly_main_rerun sample_wworld sample_environ (u "publish") 1);
    vm_compute; reflexivity.
Defined.

Example weekly_main_slash_url :
  missing slash_environ = []
  /\ weekly_main sample_wworld slash_environ (u "publish") 1 empty_wenv
     = (1%Z, empty_wenv).
Proof. split; vm_compute; reflexivity. Qed.

(** X28. [publish_post] of [publishers/wordpress.py] makes at most three
    attempts.  An attempt sends the post at the status asked for and,
    when that is refused and the status is not [draft], once more as a
    draft.  So the requests sent are: the requests of up to two failed
    attempts, then either the accepted request, or the refused one and
    its accepted draft copy, whose result always says [draft]; when all
    three attempts fail, all their requests (three, or six with the
    draft copies) have been sent and the error is a [RetryError].
    (Requests that create the post; the updates of the SEO fields after
    an accepted request cannot fail the call and are not counted.) *)
Theorem w_publish_post_requests (w : WWorld) (title content st : str)
    (categories tags : list Z) (e : WEnv) :
  let d := mkPostData title content st (nonempty categories)
                      (nonempty tags) None in
  let dd := mkPostData title content (u "draft") (nonempty categories)
                       (nonempty tags) None in
  let refused := if eqb_str st (u "draft") then [d] else [d; dd] in
  let out := w_publish_post w title content st categories tags e in
  weekly (snd out) = weekly e
  /\ match fst out with
     | Ok p =>
         exists k, k < 3
           /\ (ww_requests (snd out)
               = ww_requests e ++ mjoin (replicate k refused) ++ [d]
               \/ eqb_str st (u "draft") = false
                  /\ ww_requests (snd out)
                     = ww_requests e ++ mjoin (replicate k refused) ++ [d; dd]
                  /\ posted_status p = u "draft")
     | Raise x =>
         x = RetryError
         /\ ww_requests (snd out)
            = ww_requests e ++ mjoin (replicate 3 refused)
     end.
Proof.
  intros d dd refused out. subst out.
  unfold w_publish_post. rewrite wretry3_unfold.
  set (m := w_publish_post_attempt w title content st categories tags).
  destruct (m e) as [[p|x] e1] eqn:H1;
    apply w_publish_post_attempt_sends in H1 as [Hw1 H1]; cbn [fst snd].
  { split; [done|]. exists 0. split; [lia|]. cbn [replicate mjoin app].
    destruct H1 as [->|(Hst & -> & Hp)]; [by left | by right]. }
  destruct H1 as [_ H1]. fold d dd refused in H1.
  destruct (m e1) as [[p|y] e2] eqn:H2;
    apply w_publish_post_attempt_sends in H2 as [Hw2 H2]; cbn [fst snd].
  { split; [congruence|]. exists 1. split; [lia|].
    cbn [replicate mjoin list_join]. rewrite app_nil_r.
    destruct H2 as [->|(Hst & -> & Hp)]; rewrite H1, <- !app_assoc;
      [by left | by right]. }
  destruct H2 as [_ H2]. fold d dd refused in H2.
  destruct (m e2) as [[p|z] e3] eqn:H3;
    apply w_publish_post_attempt_sends in H3 as [Hw3 H3]; cbn [fst snd].
  { split; [congruence|]. exists 2. split; [lia|].
    cbn [replicate mjoin list_join]. rewrite app_nil_r.
    destruct H3 as [->|(Hst & -> & Hp)]; rewrite H2, H1, <- !app_assoc;
      [by left | by right]. }
  destruct H3 as [_ H3]. fold d dd refused in H3.
  split; [congruence|]. split; [done|].
  cbn [replicate mjoin list_join]. rewrite app_nil_r.
  by rewrite H3, H2, H1, <- !app_assoc.
Qed.

(** ** Parsing the generated text *)

Section ParseFacts.

Lemma lstrip_idem (s : str) : lstrip (lstrip s) = lstrip s.
Proof.
  induction s as [|c s IH]; [done|]. cbn [lstrip].
  destruct (is_space c) eqn:Hc; [exact IH|]. cbn [lstrip]. by rewrite Hc.
Qed.

Lemma lstrip_length (s : str) : length (lstrip s) <= length s.
Proof.
  induction s as [|c s IH]; [done|]. cbn [lstrip].
  destruct (is_space c); cbn [length]; lia.
Qed.

Lemma lstrip_fixed_cons (c : N) (s : str) :
  lstrip (c :: s) = c :: s <-> is_space c = false.
Proof.
  cbn [lstrip]. destruct (is_space c); split; try done.
  intros H. pose proof (lstrip_length s) as Hl. rewrite H in Hl.
  cbn [length] in Hl. lia.
Qed.

Lemma lstrip_decomp (s : str) :
  exists sp, s = sp ++ lstrip s /\ forallb is_space sp = true.
Proof.
  induction s as [|c s (sp & Hs & Hsp)]; [by exists []|]. cbn [lstrip].
  destruct (is_space c) eqn:Hc; [|by exists []].
  exists (c :: sp). cbn [forallb app]. rewrite Hc, Hsp. split; [by f_equal | done].
Qed.

(** Stripping the right end keeps a left end that needs no stripping. *)
Lemma rstrip_keeps_left (s : str) : lstrip s = s -> lstrip (rstrip s) = rstrip s.
Proof.
  intros Hs. unfold rstrip.
  destruct (lstrip_decomp (rev s)) as (sp & Hrev & _).
  destruct (rev (lstrip (rev s))) as [|c r] eqn:Ht; [done|].
  apply lstrip_fixed_cons.
  apply (f_equal (@rev N)) in Hrev.
  rewrite rev_involutive, rev_app_distr, Ht in Hrev. subst s.
  cbn [app] in Hs. by apply lstrip_fixed_cons in Hs.
Qed.

Lemma strip_left (s : str) : lstrip (strip s) = strip s.
Proof. unfold strip. apply rstrip_keeps_left, lstrip_idem. Qed.

Lemma strip_idem (s : str) : strip (strip s) = strip s.
Proof.
  unfold strip at 1. rewrite strip_left. unfold strip, rstrip.
  by rewrite rev_involutive, lstrip_idem.
Qed.

Lemma lstrip_hash_Forall (P : N -> Prop) (s : str) :
  Forall P s -> Forall P (lstrip_hash s).
Proof.
  induction 1 as [|c s Hc Hs IH]; cbn [lstrip_hash]; [constructor|].
  destruct (c =? 35)%N; [done | by constructor].
Qed.

Lemma scan_title_title (ls : list str) :
  Forall one_line ls ->
  forall (title : str) (found : bool) (cl : list str),
  one_line title /\ strip title = title ->
  one_line (scan_title ls title found cl).1
  /\ strip (scan_title ls title found cl).1 = (scan_title ls title found cl).1.
Proof.
  induction 1 as [|line ls Hline Hls IH]; intros title found cl Ht; [done|].
  cbn [scan_title].
  destruct (negb found && starts_with (u "#") (strip line)).
  - apply IH. split; [|apply strip_idem].
    by apply strip_Forall, lstrip_hash_Forall, strip_Forall.
  - destruct found; by apply IH.
Qed.

Lemma first_nonblank_title (ls : list str) (title : str) :
  Forall one_line ls ->
  one_line title /\ strip title = title ->
  one_line (first_nonblank ls title)
  /\ strip (first_nonblank ls title) = first_nonblank ls title.
Proof.
  induction 1 as [|line ls Hline Hls IH]; intros Ht; [done|].
  cbn [first_nonblank].
  destruct (strip line) as [|c r] eqn:Hs; [by apply IH|].
  rewrite <- Hs. split; [by apply strip_Forall | apply strip_idem].
Qed.

Lemma lines_aux_head (cur s : str) :
  exists x rest, lines_aux cur s = (rev cur ++ x) :: rest.
Proof.
  revert cur. induction s as [|c s IH]; intros cur; cbn [lines_aux].
  - exists [], []. by rewrite app_nil_r.
  - destruct (is_nl c).
    + exists [], (lines_aux [] s). by rewrite app_nil_r.
    + destruct (IH (c :: cur)) as (x & rest & ->).
      exists (c :: x), rest. cbn [rev]. by rewrite <- app_assoc.
Qed.

Lemma is_nl_space (c : N) : is_nl c = true -> is_space c = true.
Proof. unfold is_nl. intros H. apply N.eqb_eq in H. by subst c. Qed.

(** A text without leading whitespace has a first line that is not
    blank. *)
Lemma lines_first_not_blank (c : N) (r : str) :
  is_space c = false ->
  exists x rest, lines (c :: r) = (c :: x) :: rest /\ strip (c :: x) <> [].
Proof.
  intros Hc. unfold lines. cbn [lines_aux].
  destruct (is_nl c) eqn:Hn; [apply is_nl_space in Hn; congruence|].
  destruct (lines_aux_head [c] r) as (x & rest & ->).
  exists x, rest. split; [done|]. intros H. apply strip_nil in H.
  cbn [forallb] in H. by rewrite Hc in H.
Qed.

Variable sep : str.
Hypothesis sep_ne : sep <> [].

Lemma split_scan_skip (k : nat) (cur s : str) :
  split_scan sep k cur s = split_scan sep 0 cur (drop k s).
Proof.
  revert k. induction s as [|c s IH]; intros [|k]; cbn [split_scan drop];
    first [done | apply IH].
Qed.

Lemma split_scan_ne (k : nat) (cur s : str) : split_scan sep k cur s <> [].
Proof.
  revert k cur. induction s as [|c s IH]; intros k cur; cbn [split_scan]; [done|].
  destruct k; [|apply IH]. destruct (starts_with sep (c :: s)); [done | apply IH].
Qed.

Lemma join_cons (x : str) (rest : list str) :
  rest <> [] -> join sep (x :: rest) = x ++ sep ++ join sep rest.
Proof. by destruct rest. Qed.

Lemma drop_sep_tail (c : N) (s : str) :
  drop (length sep - 1) s = drop (length sep) (c :: s).
Proof using sep_ne.
  destruct sep as [|d t]; [done|]. cbn [length].
  replace (S (length t) - 1) with (length t) by lia. done.
Qed.

(** Joining what was split gives the text back. *)
Lemma join_split_scan (n : nat) :
  forall (cur s : str), length s <= n ->
  join sep (split_scan sep 0 cur s) = rev cur ++ s.
Proof using sep_ne.
  induction n as [|n IH]; intros cur s Hn.
  { destruct s; [|cbn in Hn; lia]. cbn. by rewrite app_nil_r. }
  destruct s as [|c s]; [cbn; by rewrite app_nil_r|].
  cbn [split_scan]. cbn [length] in Hn.
  destruct (starts_with sep (c :: s)) eqn:Hs.
  - rewrite split_scan_skip, join_cons by apply split_scan_ne.
    rewrite IH by (rewrite length_drop; lia). cbn [rev app].
    rewrite (drop_sep_tail c). by rewrite <- (starts_with_split _ _ Hs).
  - rewrite IH by lia. cbn [rev]. by rewrite <- app_assoc.
Qed.

Lemma split_scan_no_sep (cur s : str) :
  contains sep s = false -> split_scan sep 0 cur s = [rev cur ++ s].
Proof.
  revert cur. induction s as [|c s IH]; intros cur H.
  { cbn. by rewrite app_nil_r. }
  rewrite contains_cons in H. apply orb_false_iff in H as [Hs Hc].
  cbn [split_scan]. rewrite Hs, IH by done. cbn [rev]. by rewrite <- app_assoc.
Qed.

Lemma starts_with_take (t s : str) :
  starts_with t s = starts_with t (take (length t) s).
Proof.
  revert s. induction t as [|c t IH]; intros [|d s]; cbn; try done.
  by rewrite IH.
Qed.

(** An occurrence that starts inside [x] ends before the last character
    of a separator that follows [x]. *)
Lemma starts_with_early (x y : str) :
  x <> [] ->
  starts_with sep (x ++ y) = starts_with sep (x ++ take (length sep - 1) y).
Proof.
  intros Hx. rewrite (starts_with_take sep (x ++ y)).
  rewrite (starts_with_take sep (x ++ take _ y)).
  f_equal. rewrite !take_app, take_take. do 2 f_equal.
  destruct x; [done|]. cbn [length]. lia.
Qed.

Lemma split_scan_first (a b cur : str) :
  contains sep (a ++ take (length sep - 1) sep) = false ->
  split_scan sep 0 cur (a ++ sep ++ b)
  = (rev cur ++ a) :: split_scan sep 0 [] b.
Proof using sep_ne.
  revert cur. induction a as [|c a IH]; intros cur H.
  - cbn [app]. destruct sep as [|d t] eqn:Hsep; [done|]. rewrite <- Hsep.
    assert (Hst : starts_with sep (sep ++ b) = true) by apply starts_with_app.
    rewrite Hsep in Hst |- * at 2. cbn [app] in Hst |- *. cbn [split_scan].
    rewrite <- Hsep in Hst. rewrite Hsep at 1. rewrite <- Hsep, Hst.
    rewrite split_scan_skip, app_nil_r. do 2 f_equal.
    rewrite Hsep. cbn [length]. rewrite Nat.sub_succ, Nat.sub_0_r.
    by rewrite drop_app_length.
  - cbn [app] in H. rewrite contains_cons in H.
    apply orb_false_iff in H as [Hs Hc].
    change (c :: a ++ take (length sep - 1) sep)
      with ((c :: a) ++ take (length sep - 1) sep) in Hs.
    assert (Hs' : starts_with sep ((c :: a) ++ sep ++ b) = false).
    { rewrite starts_with_early by done. rewrite take_app.
      replace (length sep - 1 - length sep) with 0 by lia.
      rewrite take_0, app_nil_r. done. }
    cbn [app split_scan] in Hs' |- *. rewrite Hs', IH by done.
    cbn [rev]. by rewrite <- app_assoc.
Qed.

End ParseFacts.

(** X29. The part of the response that [_parse_response] reads is the
    whole response when it has no [---], and otherwise everything after
    the first [---]: later separators stay in the text. *)
Theorem content_part_after_first_separator (response_text : str) :
  (contains (u "---") response_text = false ->
   content_part response_text = response_text)
  /\ (forall a b : str,
        response_text = a ++ u "---" ++ b ->
        contains (u "---") (a ++ u "--") = false ->
        content_part response_text = b).
Proof.
  assert (Hne : u "---" <> []) by done.
  unfold content_part, split. split.
  - intros H. by rewrite split_scan_no_sep.
  - intros a b -> H.
    rewrite (split_scan_first (u "---") Hne a b []) by exact H.
    pose proof (split_scan_ne (u "---") 0 [] b) as Hb.
    destruct (split_scan (u "---") 0 [] b) as [|y ys] eqn:Hsp; [done|].
    cbn [length Nat.leb drop]. rewrite <- Hsp.
    by rewrite (join_split_scan (u "---") Hne (length b)).
Qed.

Example content_part_sample :
  content_part (u "META: x" ++ [NL] ++ u "---" ++ [NL] ++ u "## T" ++ [NL]
                ++ u "a" ++ [NL] ++ u "---" ++ [NL] ++ u "b")
  = [NL] ++ u "## T" ++ [NL] ++ u "a" ++ [NL] ++ u "---" ++ [NL] ++ u "b".
Proof. reflexivity. Qed.

(** X30. What [_parse_response] returns: the title is one line without
    surrounding whitespace, and it is empty only when the part read is
    blank; the content is either that part as it is (the fallback) or a
    non-empty text without surrounding whitespace, so it is empty only
    when the part read is empty. *)
Theorem parse_response_shape (response_text : str) :
  let '(title, content) := parse_response response_text in
  one_line title
  /\ strip title = title
  /\ (title = [] <-> strip (content_part response_text) = [])
  /\ (content = content_part response_text
      \/ content <> [] /\ strip content = content)
  /\ (content = [] <-> content_part response_text = []).
Proof.
  unfold parse_response.
  set (cp := content_part response_text).
  pose proof (lines_all_one_line (strip cp)) as Hls.
  pose proof (scan_title_title _ Hls [] false []
                ltac:(split; [constructor | done])) as [Ht1 Ht2].
  destruct (scan_title (lines (strip cp)) [] false []) as [title cl] eqn:Hscan.
  cbn [fst] in Ht1, Ht2.
  assert (Htitle :
    let t := match title with
             | [] => first_nonblank (lines (strip cp)) title
             | _ :: _ => title
             end in
    one_line t /\ strip t = t /\ (t = [] <-> strip cp = [])).
  { cbn zeta. destruct (strip cp) as [|c r] eqn:Hcp.
    - vm_compute in Hscan. injection Hscan as <- <-. vm_compute.
      split; [constructor | done].
    - pose proof (strip_left cp) as Hl. rewrite Hcp in Hl.
      apply lstrip_fixed_cons in Hl.
      destruct (lines_first_not_blank c r Hl) as (x & rest & Hlines & Hnb).
      destruct title as [|t0 title].
      + split; [by apply first_nonblank_title|].
        split; [by apply first_nonblank_title|].
        split; [|done]. rewrite Hlines. cbn [first_nonblank].
        destruct (strip (c :: x)); done.
      + split; [done|]. split; [done|]. split; done. }
  cbn zeta in Htitle. destruct Htitle as (H1 & H2 & H3).
  split; [done|]. split; [done|]. split; [done|].
  destruct (strip (join [NL] cl)) as [|c r] eqn:Hj.
  - split; [by left | done].
  - split; [right; split; [done | rewrite <- Hj; apply strip_idem]|].
    split; [done|]. intros Hcp. exfalso.
    assert (Hcl : cl = []).
    { rewrite Hcp in Hscan. vm_compute in Hscan.
      by injection Hscan as _ <-. }
    subst cl. vm_compute in Hj. discriminate.
Qed.
